(** * django-csp-reports: report parsing, formatting, configuration and dispatch

    A shallow embedding of [cspreports/models.py] and [cspreports/utils.py],
    together with the parts of the Python standard library ([json], [bytes.decode])
    and of Django (model field conversion and validation) that these two files
    call, followed by the properties of the report pipeline. *)

From Stdlib Require Import ZArith NArith List String Ascii Strings.Byte Lia Bool.
From Stdlib Require Import DecimalN DecimalPos DecimalFacts.
From stdpp Require Import gmap strings list fin_maps.

Local Open Scope N_scope.

(** ** Python text and bytes *)

(** A Python [str] is a sequence of code points; [bytes] is a sequence of
    octets.  Identifiers of the program itself (attribute names, setting names)
    are Rocq strings. *)
Abbreviation str := (list N).
Abbreviation bytes := (list byte).

(** The code points of an ASCII literal. *)
Definition txt (s : string) : str :=
  map N_of_ascii (list_ascii_of_string s).

(** The octets of an ASCII literal (a Python [b'...']). *)
Definition octets (s : string) : bytes :=
  list_byte_of_string s.

(** Every value of type [str] that Python can build has code points below
    [0x110000]. *)
Definition code_point (c : N) : Prop := c < 0x110000.
Definition is_high_surrogate (c : N) : bool := (0xD800 <=? c) && (c <=? 0xDBFF).
Definition is_low_surrogate (c : N) : bool := (0xDC00 <=? c) && (c <=? 0xDFFF).
Definition is_surrogate (c : N) : bool := (0xD800 <=? c) && (c <=? 0xDFFF).

(** [s.startswith(prefix)] *)
Fixpoint startswith (s prefix : str) : bool :=
  match prefix, s with
  | [], _ => true
  | p :: prefix', c :: s' => (c =? p) && startswith s' prefix'
  | _ :: _, [] => false
  end.

(** [s.replace(a, b)] for single characters [a] and [b], on identifiers. *)
Fixpoint replace_char (a c : ascii) (s : string) : string :=
  match s with
  | EmptyString => EmptyString
  | String x s' => String (if Ascii.eqb x a then c else x) (replace_char a c s')
  end.

(** *** [bytes.decode('utf-8')]

    The strict decoder: shortest forms only, no surrogates, nothing above
    U+10FFFF.  [None] stands for [UnicodeDecodeError]. *)
Definition continuation (x : N) : bool := (0x80 <=? x) && (x <=? 0xBF).

Fixpoint utf8_decode_N (bs : list N) : option str :=
  match bs with
  | [] => Some []
  | b0 :: r0 =>
    if b0 <? 0x80 then cons b0 <$> utf8_decode_N r0
    else if (0xC2 <=? b0) && (b0 <=? 0xDF) then
      match r0 with
      | b1 :: r1 =>
        if continuation b1
        then cons ((b0 - 0xC0) * 64 + (b1 - 0x80)) <$> utf8_decode_N r1
        else None
      | _ => None
      end
    else if (0xE0 <=? b0) && (b0 <=? 0xEF) then
      match r0 with
      | b1 :: b2 :: r2 =>
        if continuation b1 && continuation b2
           && negb ((b0 =? 0xE0) && (b1 <? 0xA0))
           && negb ((b0 =? 0xED) && (0x9F <? b1))
        then cons ((b0 - 0xE0) * 4096 + (b1 - 0x80) * 64 + (b2 - 0x80))
               <$> utf8_decode_N r2
        else None
      | _ => None
      end
    else if (0xF0 <=? b0) && (b0 <=? 0xF4) then
      match r0 with
      | b1 :: b2 :: b3 :: r3 =>
        if continuation b1 && continuation b2 && continuation b3
           && negb ((b0 =? 0xF0) && (b1 <? 0x90))
           && negb ((b0 =? 0xF4) && (0x8F <? b1))
        then cons ((b0 - 0xF0) * 262144 + (b1 - 0x80) * 4096
                   + (b2 - 0x80) * 64 + (b3 - 0x80))
               <$> utf8_decode_N r3
        else None
      | _ => None
      end
    else None
  end.

Definition utf8_decode (bs : bytes) : option str :=
  utf8_decode_N (map Byte.to_N bs).

(** ** Python floats

    The pipeline never computes with floats: it reads them from JSON number
    literals, prints them back, truncates them to integers and tests them for
    zero.  They are taken as an interface. *)
Inductive float_class := FNaN | FPosInf | FNegInf | FFinite.

Class PyFloat := {
  float : Type;
  (** [float(text)] on a JSON number literal with a fraction or an exponent *)
  float_of_literal : str -> float;
  (** [float.__repr__] *)
  float_repr : float -> str;
  float_nan : float;
  float_inf : float;
  float_neg_inf : float;
  float_classify : float -> float_class;
  (** [int(x)] for a finite [x] *)
  float_trunc : float -> Z;
  (** [x == n] for an integer [n] *)
  float_eq_int : float -> Z -> bool;
}.

(** ** Python values *)

Section Values.
Context `{PyFloat}.

(** The values [json.loads] builds, which are also the values settings and model
    attributes hold.  A [dict] keeps its items in insertion order, with
    distinct keys. *)
Inductive value :=
| VNone
| VBool (t : bool)
| VInt (z : Z)
| VFloat (x : float)
| VStr (s : str)
| VList (l : list value)
| VDict (d : list (str * value)).

(** [d.get(k)] as an option; [k in d] is [is_Some]. *)
Fixpoint dict_get (k : str) (d : list (str * value)) : option value :=
  match d with
  | [] => None
  | (k', v) :: d' => if decide (k' = k) then Some v else dict_get k d'
  end.

(** [d[k] = v] *)
Fixpoint dict_set (k : str) (v : value) (d : list (str * value)) : list (str * value) :=
  match d with
  | [] => [(k, v)]
  | (k', v') :: d' =>
    if decide (k' = k) then (k', v) :: d' else (k', v') :: dict_set k v d'
  end.

(** Truth value testing ([bool(x)]). *)
Definition truthy (x : value) : bool :=
  match x with
  | VNone => false
  | VBool t => t
  | VInt z => negb (Z.eqb z 0)
  | VFloat x => negb (float_eq_int x 0)
  | VStr s => negb (bool_decide (s = []))
  | VList l => match l with [] => false | _ => true end
  | VDict d => match d with [] => false | _ => true end
  end.

End Values.

(** ** The [json] module of the standard library *)

Section Json.
Context `{PyFloat}.

(** *** Decoding: [json.loads]

    The scanner of [json.decoder] and [json.scanner] (CPython's C
    implementation) in strict mode.  A scan either finds a value and leaves the
    rest of the text, or fails ([ValueError]); [Starved] only says that the
    recursion budget handed to the scanner ran out, which [loads] never lets
    happen. *)
Inductive scan (A : Type) :=
| Found (a : A) (rest : str)
| Invalid
| Starved.
Global Arguments Found {A} a rest.
Global Arguments Invalid {A}.
Global Arguments Starved {A}.

Definition is_ws (c : N) : bool :=
  (c =? 32) || (c =? 9) || (c =? 10) || (c =? 13).

Fixpoint skip_ws (s : str) : str :=
  match s with
  | c :: s' => if is_ws c then skip_ws s' else s
  | [] => []
  end.

Definition is_digit (c : N) : bool := (48 <=? c) && (c <=? 57).

Definition hex_value (c : N) : option N :=
  if is_digit c then Some (c - 48)
  else if (97 <=? c) && (c <=? 102) then Some (c - 87)
  else if (65 <=? c) && (c <=? 70) then Some (c - 55)
  else None.

(** Four hexadecimal digits of a [\uXXXX] escape. *)
Definition decode_hex4 (h1 h2 h3 h4 : N) : option N :=
  match hex_value h1, hex_value h2, hex_value h3, hex_value h4 with
  | Some a, Some b, Some c, Some d =>
    Some (N.lor (N.shiftl (N.lor (N.shiftl (N.lor (N.shiftl a 4) b) 4) c) 4) d)
  | _, _, _, _ => None
  end.

(** [Py_UNICODE_JOIN_SURROGATES] *)
Definition join_surrogates (high low : N) : N :=
  N.lor (N.shiftl (N.land high 0x3FF) 10) (N.land low 0x3FF) + 0x10000.

(** Backslash escapes other than [\u]. *)
Definition simple_escape (c : N) : option N :=
  if c =? 34 then Some 34        (* quote *)
  else if c =? 92 then Some 92   (* backslash *)
  else if c =? 47 then Some 47   (* slash *)
  else if c =? 98 then Some 8    (* b: backspace *)
  else if c =? 102 then Some 12  (* f: form feed *)
  else if c =? 110 then Some 10  (* n: line feed *)
  else if c =? 114 then Some 13  (* r: carriage return *)
  else if c =? 116 then Some 9   (* t: tab *)
  else None.

Definition push (c : N) (r : option (str * str)) : option (str * str) :=
  match r with
  | Some (x, rest) => Some (c :: x, rest)
  | None => None
  end.

(** [scanstring(s, end, strict=True)]: the text after an opening quote; gives
    the decoded string and the text after the closing quote.  A high surrogate
    escape directly followed by a low surrogate escape is one code point; a
    high surrogate followed by another [\u] escape that is no low surrogate
    stays alone, and the scan goes on at that second escape.  (The C scanner
    tests the remaining length before it looks for the second escape; the test
    only fails on text whose string is unterminated, which is refused either
    way.) *)
Fixpoint scanstring (s : str) : option (str * str) :=
  match s with
  | [] => None
  | c :: s1 =>
    if c =? 34 then Some ([], s1)
    else if c =? 92 then
      match s1 with
      | [] => None
      | e :: s2 =>
        if e =? 117 then
          match s2 with
          | h1 :: h2 :: h3 :: h4 :: s3 =>
            match decode_hex4 h1 h2 h3 h4 with
            | None => None
            | Some c1 =>
              if is_high_surrogate c1 then
                match s3 with
                | b1 :: b2 :: k1 :: k2 :: k3 :: k4 :: s5 =>
                  if (b1 =? 92) && (b2 =? 117) then
                    match decode_hex4 k1 k2 k3 k4 with
                    | None => None
                    | Some c2 =>
                      if is_low_surrogate c2
                      then push (join_surrogates c1 c2) (scanstring s5)
                      else push c1 (scanstring s3)
                    end
                  else push c1 (scanstring s3)
                | _ => push c1 (scanstring s3)
                end
              else push c1 (scanstring s3)
            end
          | _ => None
          end
        else
          match simple_escape e with
          | Some c' => push c' (scanstring s2)
          | None => None
          end
      end
    else if c <=? 0x1F then None
    else push c (scanstring s1)
  end.

(** The longest prefix of decimal digits. *)
Fixpoint span_digits (s : str) : str * str :=
  match s with
  | c :: s' =>
    if is_digit c then let '(ds, r) := span_digits s' in (c :: ds, r) else ([], s)
  | [] => ([], [])
  end.

(** [int(digits)] for ASCII decimal digits. *)
Definition int_of_digits (ds : str) : N :=
  fold_left (fun acc c => acc * 10 + (c - 48)) ds 0.

Definition match_sign (s : str) : str * str :=
  match s with
  | c :: s' => if c =? 45 then ([c], s') else ([], s)
  | [] => ([], [])
  end.

(** The integer part: [0] or a non-zero digit followed by digits. *)
Definition match_integer (s : str) : option (str * str) :=
  match s with
  | c :: s' =>
    if c =? 48 then Some ([c], s')
    else if is_digit c then let '(ds, r) := span_digits s' in Some (c :: ds, r)
    else None
  | [] => None
  end.

(** The fraction: a dot and at least one digit, or nothing. *)
Definition match_frac (s : str) : str * str :=
  match s with
  | p :: d :: s' =>
    if (p =? 46) && is_digit d
    then let '(ds, r) := span_digits s' in (p :: d :: ds, r)
    else ([], s)
  | _ => ([], s)
  end.

(** The exponent: [e] or [E], an optional sign and at least one digit, or
    nothing. *)
Definition match_exp (s : str) : str * str :=
  match s with
  | e :: s' =>
    if (e =? 101) || (e =? 69) then
      let '(sg, s1) :=
        match s' with
        | c :: s'' => if (c =? 45) || (c =? 43) then ([c], s'') else ([], s')
        | [] => ([], [])
        end in
      match span_digits s1 with
      | ([], _) => ([], s)
      | (ds, r) => (e :: sg ++ ds, r)
      end
    else ([], s)
  | [] => ([], [])
  end.

(** [_match_number_unicode]: a number with a fraction or an exponent is a
    float, any other is an integer. *)
Definition match_number (s : str) : option (value * str) :=
  let '(sg, s1) := match_sign s in
  match match_integer s1 with
  | None => None
  | Some (ip, s2) =>
    let '(fr, s3) := match_frac s2 in
    let '(ex, s4) := match_exp s3 in
    match fr, ex with
    | [], [] =>
      Some (VInt (match sg with
                  | [] => Z.of_N (int_of_digits ip)
                  | _ => - Z.of_N (int_of_digits ip)
                  end)%Z, s4)
    | _, _ => Some (VFloat (float_of_literal (sg ++ ip ++ fr ++ ex)), s4)
    end
  end.

(** [scan_once], [JSONArray] and [JSONObject].  [array_loop] stands at an
    element, [object_loop] just after the opening quote of a key. *)
Fixpoint scan_once (fuel : nat) (s : str) {struct fuel} : scan value :=
  match fuel with
  | O => Starved
  | S n =>
    match s with
    | [] => Invalid
    | c :: s' =>
      if c =? 34 then
        match scanstring s' with
        | Some (x, r) => Found (VStr x) r
        | None => Invalid
        end
      else if c =? 123 then
        match skip_ws s' with
        | c1 :: r =>
          if c1 =? 125 then Found (VDict []) r
          else if c1 =? 34 then object_loop n [] r
          else Invalid
        | [] => Invalid
        end
      else if c =? 91 then
        match skip_ws s' with
        | c1 :: r =>
          if c1 =? 93 then Found (VList []) r else array_loop n [] (c1 :: r)
        | [] => Invalid
        end
      else if startswith s (txt "null") then Found VNone (drop 4 s)
      else if startswith s (txt "true") then Found (VBool true) (drop 4 s)
      else if startswith s (txt "false") then Found (VBool false) (drop 5 s)
      else
        match match_number s with
        | Some (v, r) => Found v r
        | None =>
          if startswith s (txt "NaN") then Found (VFloat float_nan) (drop 3 s)
          else if startswith s (txt "Infinity")
          then Found (VFloat float_inf) (drop 8 s)
          else if startswith s (txt "-Infinity")
          then Found (VFloat float_neg_inf) (drop 9 s)
          else Invalid
        end
    end
  end
with array_loop (fuel : nat) (acc : list value) (s : str) {struct fuel} : scan value :=
  match fuel with
  | O => Starved
  | S n =>
    match scan_once n s with
    | Found v r =>
      match skip_ws r with
      | c :: r' =>
        if c =? 93 then Found (VList (rev (v :: acc))) r'
        else if c =? 44 then array_loop n (v :: acc) (skip_ws r')
        else Invalid
      | [] => Invalid
      end
    | Invalid => Invalid
    | Starved => Starved
    end
  end
with object_loop (fuel : nat) (acc : list (str * value)) (s : str) {struct fuel} : scan value :=
  match fuel with
  | O => Starved
  | S n =>
    match scanstring s with
    | None => Invalid
    | Some (key, r) =>
      match skip_ws r with
      | c :: r1 =>
        if c =? 58 then
          match scan_once n (skip_ws r1) with
          | Found v r2 =>
            match skip_ws r2 with
            | c' :: r3 =>
              if c' =? 125 then Found (VDict (dict_set key v acc)) r3
              else if c' =? 44 then
                match skip_ws r3 with
                | q :: r4 =>
                  if q =? 34 then object_loop n (dict_set key v acc) r4
                  else Invalid
                | [] => Invalid
                end
              else Invalid
            | [] => Invalid
            end
          | Invalid => Invalid
          | Starved => Starved
          end
        else Invalid
      | [] => Invalid
      end
    end
  end.

(** [json.loads(s)] on text: [None] stands for [ValueError].  A leading byte
    order mark is refused, white space may surround the value, nothing else
    may follow it. *)
Definition loads (s : str) : option value :=
  if startswith s [0xFEFF] then None
  else
    match scan_once (2 * length s + 1) (skip_ws s) with
    | Found v r =>
      match skip_ws r with
      | [] => Some v
      | _ :: _ => None
      end
    | Invalid => None
    | Starved => None
    end.

(** *** Encoding: [json.dumps(o, indent=4, sort_keys=True, separators=(',', ': '))] *)

(** ["0123456789abcdef"[n]] *)
Definition hex_digit (n : N) : N := if n <? 10 then 48 + n else 87 + n.

(** The escape [\uXXXX] of a code unit. *)
Definition encode_hex4 (c : N) : str :=
  [92; 117;
   hex_digit (N.land (N.shiftr c 12) 0xF); hex_digit (N.land (N.shiftr c 8) 0xF);
   hex_digit (N.land (N.shiftr c 4) 0xF); hex_digit (N.land c 0xF)].

(** One character of [encode_basestring_ascii]: printable ASCII other than the
    quote and the backslash stands for itself; everything else is escaped, a
    code point above U+FFFF as a surrogate pair. *)
Definition escape_char (c : N) : str :=
  if (32 <=? c) && (c <=? 126) && negb (c =? 92) && negb (c =? 34) then [c]
  else if c =? 92 then [92; 92]
  else if c =? 34 then [92; 34]
  else if c =? 8 then [92; 98]
  else if c =? 12 then [92; 102]
  else if c =? 10 then [92; 110]
  else if c =? 13 then [92; 114]
  else if c =? 9 then [92; 116]
  else if 0x10000 <=? c then
    let v := c - 0x10000 in
    encode_hex4 (N.lor 0xD800 (N.land (N.shiftr v 10) 0x3FF))
    ++ encode_hex4 (N.lor 0xDC00 (N.land v 0x3FF))
  else encode_hex4 c.

Definition escape_body (s : str) : str := flat_map escape_char s.

Definition encode_basestring_ascii (s : str) : str :=
  34 :: escape_body s ++ [34].

Fixpoint uint_digits (d : Decimal.uint) : str :=
  match d with
  | Decimal.Nil => []
  | Decimal.D0 d' => 48 :: uint_digits d'
  | Decimal.D1 d' => 49 :: uint_digits d'
  | Decimal.D2 d' => 50 :: uint_digits d'
  | Decimal.D3 d' => 51 :: uint_digits d'
  | Decimal.D4 d' => 52 :: uint_digits d'
  | Decimal.D5 d' => 53 :: uint_digits d'
  | Decimal.D6 d' => 54 :: uint_digits d'
  | Decimal.D7 d' => 55 :: uint_digits d'
  | Decimal.D8 d' => 56 :: uint_digits d'
  | Decimal.D9 d' => 57 :: uint_digits d'
  end.

(** [int.__repr__] *)
Definition int_repr (z : Z) : str :=
  match z with
  | Z0 => [48]
  | Zpos p => uint_digits (Pos.to_uint p)
  | Zneg p => 45 :: uint_digits (Pos.to_uint p)
  end.

(** [floatstr] of [json.encoder] *)
Definition floatstr (x : float) : str :=
  match float_classify x with
  | FNaN => txt "NaN"
  | FPosInf => txt "Infinity"
  | FNegInf => txt "-Infinity"
  | FFinite => float_repr x
  end.

(** Text comparison, code point by code point ([a < b] on [str]). *)
Fixpoint str_ltb (a c : str) : bool :=
  match a, c with
  | _, [] => false
  | [], _ :: _ => true
  | x :: a', y :: c' =>
    if x <? y then true else if y <? x then false else str_ltb a' c'
  end.

(** [sorted(items)] for items with distinct keys: insertion by key. *)
Fixpoint insert_item {A} (kv : str * A) (l : list (str * A)) : list (str * A) :=
  match l with
  | [] => [kv]
  | kv' :: l' =>
    if str_ltb kv'.1 kv.1 then kv' :: insert_item kv l' else kv :: l
  end.

Definition sort_items {A} (l : list (str * A)) : list (str * A) :=
  foldr insert_item [] l.

(** [sep.join(chunks)] *)
Fixpoint join (sep : str) (chunks : list str) : str :=
  match chunks with
  | [] => []
  | [x] => x
  | x :: rest => x ++ sep ++ join sep rest
  end.

(** A line break and the indentation of a nesting level. *)
Definition newline_indent (level : nat) : str :=
  10 :: repeat 32 (4 * level)%nat.

Definition item_separator (level : nat) : str := 44 :: newline_indent level.

(** [_iterencode] with its chunks concatenated.  A dict's items are sorted by
    key and each is written as key, colon, space, value; the values are
    encoded before the items are put in order, which gives the same text as
    encoding them afterwards. *)
Fixpoint iterencode (level : nat) (o : value) : str :=
  match o with
  | VNone => txt "null"
  | VBool true => txt "true"
  | VBool false => txt "false"
  | VInt z => int_repr z
  | VFloat x => floatstr x
  | VStr s => encode_basestring_ascii s
  | VList [] => txt "[]"
  | VList l =>
    91 :: newline_indent (S level)
    ++ join (item_separator (S level)) (map (iterencode (S level)) l)
    ++ newline_indent level ++ [93]
  | VDict [] => txt "{}"
  | VDict d =>
    123 :: newline_indent (S level)
    ++ join (item_separator (S level))
         (map (fun kc : str * str => encode_basestring_ascii kc.1 ++ [58; 32] ++ kc.2)
            (sort_items (map (fun kv : str * value => (kv.1, iterencode (S level) kv.2)) d)))
    ++ newline_indent level ++ [125]
  end.

Definition dumps (o : value) : str := iterencode 0 o.

End Json.

(** ** Exceptions *)

Inductive exn :=
| ValueError
| UnicodeDecodeError
| KeyError
| TypeError
| AttributeError
| OverflowError
| LookupError
| ImportError
| FieldDoesNotExist
| ValidationError.

#[global] Instance exn_eq_dec : EqDecision exn.
Proof. solve_decision. Defined.

(** The outcome of a call: a result, or an exception that reaches the caller. *)
Inductive res (A : Type) :=
| Ok (a : A)
| Raise (e : exn).
Global Arguments Ok {A} a.
Global Arguments Raise {A} e.

(** ** The interpreter and the database backend

    What the pipeline takes from its surroundings without fixing it: the
    built-in conversions to text and to integers, the codec registry, the
    import system, and the integer ranges of the database in use. *)
Class Python `{PyFloat} := {
  (** [str(x)] for a value that is not text already *)
  py_str : value -> str;
  (** [int(text)]; [None] for [ValueError] *)
  int_of_str : str -> option Z;
  (** the codec of a name: [None] when the name is unknown ([LookupError]);
      a codec gives [None] on octets it cannot decode ([UnicodeDecodeError]) *)
  lookup_codec : str -> option (bytes -> option str);
  (** function objects *)
  callable : Type;
  (** [getattr(import_module(module_name), function_name)] *)
  import_function : str -> str -> res callable;
}.

Inductive integer_field := PositiveSmallInteger | PositiveInteger.

Class Database := {
  (** [connection.ops.integer_field_range(internal_type)] *)
  integer_field_range : integer_field -> option Z * option Z;
}.

(** ** Django model fields *)

Section Fields.
Context `{Python} `{Database}.

(** [int(x)] *)
Definition py_int (x : value) : res Z :=
  match x with
  | VBool t => Ok (if t then 1 else 0)%Z
  | VInt z => Ok z
  | VFloat x =>
    match float_classify x with
    | FFinite => Ok (float_trunc x)
    | FNaN => Raise ValueError
    | FPosInf | FNegInf => Raise OverflowError
    end
  | VStr s =>
    match int_of_str s with
    | Some z => Ok z
    | None => Raise ValueError
    end
  | VNone | VList _ | VDict _ => Raise TypeError
  end.

Inductive field_kind :=
| TextField
| CharField (max_length : nat)
| BooleanField
| IntegerField (internal_type : integer_field).

Inductive validator :=
| MinValueValidator (limit_value : Z)
| MaxValueValidator (limit_value : Z)
| MaxLengthValidator (limit_value : nat).

Record field := {
  name : string;
  kind : field_kind;
  blank : bool;
  null : bool;
  (** the keys of [choices]; empty when the field has none *)
  choices : list str;
  (** the validators given to the constructor *)
  own_validators : list validator;
}.

(** [raw_value in f.empty_values], the empty values being
    [None], the empty text, list, tuple and dict. *)
Definition in_empty_values (x : value) : bool :=
  match x with
  | VNone | VStr [] | VList [] | VDict [] => true
  | _ => false
  end.

(** [Field.to_python]: text fields keep text and [None] and turn anything
    else into text; integer fields convert with [int] and report [TypeError]
    and [ValueError] as [ValidationError] (nothing else); boolean fields
    accept the booleans, the numbers equal to them, and a few spellings. *)
Definition to_python (k : field_kind) (x : value) : res value :=
  match k with
  | TextField | CharField _ =>
    match x with
    | VStr _ | VNone => Ok x
    | _ => Ok (VStr (py_str x))
    end
  | IntegerField _ =>
    match x with
    | VNone => Ok VNone
    | _ =>
      match py_int x with
      | Ok z => Ok (VInt z)
      | Raise TypeError | Raise ValueError => Raise ValidationError
      | Raise e => Raise e
      end
    end
  | BooleanField =>
    match x with
    | VBool t => Ok (VBool t)
    | VInt z => if (Z.eqb z 0 || Z.eqb z 1)%bool then Ok (VBool (truthy x))
                else Raise ValidationError
    | VFloat y => if (float_eq_int y 0 || float_eq_int y 1)%bool
                  then Ok (VBool (truthy x)) else Raise ValidationError
    | VStr s =>
      if bool_decide (s ∈ [txt "t"; txt "True"; txt "1"]) then Ok (VBool true)
      else if bool_decide (s ∈ [txt "f"; txt "False"; txt "0"]) then Ok (VBool false)
      else Raise ValidationError
    | _ => Raise ValidationError
    end
  end.

(** The validators a field runs: its own, then [MaxLengthValidator] for a
    [CharField], or the bounds of the database for an integer field. *)
Definition validators (f : field) : list validator :=
  own_validators f ++
  match kind f with
  | CharField n => [MaxLengthValidator n]
  | IntegerField t =>
    let '(lo, hi) := integer_field_range t in
    match lo with Some m => [MinValueValidator m] | None => [] end
    ++ match hi with Some m => [MaxValueValidator m] | None => [] end
  | _ => []
  end.

(** One validator on a converted value: [true] when it accepts.  The value of
    an integer field is an [int] and that of a [CharField] is text when the
    validators run. *)
Definition accepts (vd : validator) (x : value) : bool :=
  match vd, x with
  | MinValueValidator m, VInt z => (m <=? z)%Z
  | MaxValueValidator m, VInt z => (z <=? m)%Z
  | MaxLengthValidator n, VStr s => (length s <=? n)%nat
  | _, _ => true
  end.

(** [Field.validate]: a value outside the choices, [None] in a field that is
    not nullable, and an empty value in a field that may not be blank are
    refused. *)
Definition validate (f : field) (x : value) : bool :=
  (match choices f, x with
   | [], _ => true
   | cs, VStr s => in_empty_values x || bool_decide (s ∈ cs)
   | _, _ => in_empty_values x
   end)
  && negb (match x with VNone => negb (null f) | _ => false end)
  && negb (negb (blank f) && in_empty_values x).

(** [Field.run_validators]: nothing runs on an empty value. *)
Definition run_validators (f : field) (x : value) : bool :=
  in_empty_values x || forallb (fun vd => accepts vd x) (validators f).

(** [Field.clean] *)
Definition clean (f : field) (x : value) : res value :=
  match to_python (kind f) x with
  | Ok x' => if validate f x' && run_validators f x' then Ok x' else Raise ValidationError
  | Raise e => Raise e
  end.

End Fields.

(** ** [cspreports/models.py] *)

Section Models.
Context `{Python} `{Database}.

Definition DISPOSITIONS : list (str * str) :=
  [(txt "enforce", txt "enforce"); (txt "report", txt "report")].

Definition REQUIRED_FIELDS : list string :=
  ["document-uri"; "referrer"; "blocked-uri"; "violated-directive";
   "original-policy"]%string.

Definition OPTIONAL_FIELDS : list string :=
  ["disposition"; "effective-directive"; "source-file"; "status-code";
   "line-number"; "column-number"]%string.

(** A [CSPReport] object: its attributes by name. *)
Abbreviation instance := (gmap string value).

(** [getattr(self, name)]; every attribute read below is one the constructor
    has set. *)
Definition getattr (self : instance) (n : string) : value :=
  default VNone (self !! n).

Definition nullable_text (n : string) : field :=
  {| name := n; kind := TextField; blank := true; null := true;
     choices := []; own_validators := [] |}.

Definition counter (n : string) (t : integer_field) : field :=
  {| name := n; kind := IntegerField t; blank := true; null := true;
     choices := []; own_validators := [MinValueValidator 0] |}.

Definition disposition_field : field :=
  {| name := "disposition"; kind := CharField 10; blank := true; null := true;
     choices := map fst DISPOSITIONS; own_validators := [] |}.

(** The fields of the model, in the order of the class body.  The primary key
    and the two timestamps are left aside: they stay [None] until the storage
    layer writes the report, and [clean_fields] passes over a blank field that
    holds [None].  [BooleanField] is blank as in the Django releases the
    package asks for. *)
Definition CSPReport_fields : list field :=
  [ {| name := "user_agent"; kind := TextField; blank := true; null := false;
       choices := []; own_validators := [] |};
    {| name := "json"; kind := TextField; blank := false; null := false;
       choices := []; own_validators := [] |};
    {| name := "is_valid"; kind := BooleanField; blank := true; null := false;
       choices := []; own_validators := [] |};
    nullable_text "document_uri";
    nullable_text "referrer";
    nullable_text "blocked_uri";
    nullable_text "violated_directive";
    nullable_text "original_policy";
    nullable_text "effective_directive";
    counter "status_code" PositiveSmallInteger;
    nullable_text "source_file";
    counter "line_number" PositiveInteger;
    counter "column_number" PositiveInteger;
    disposition_field ]%string.

(** [cls._meta.get_field(name)] *)
Definition get_field (n : string) : option field :=
  find (fun f => bool_decide (name f = n)) CSPReport_fields.

(** [cls(json=message)]: every other attribute at its default. *)
Definition new_report (message : str) : instance :=
  <["json" := VStr message]>
    (list_to_map
       (("user_agent", VStr []) :: ("is_valid", VBool false)
        :: map (fun n => (replace_char "-" "_" n, VNone))
             (REQUIRED_FIELDS ++ OPTIONAL_FIELDS)))%string.

(** [Model.clean_fields]: a blank field holding an empty value is passed
    over; any other is cleaned and set to the cleaned value, or its name is
    added to the errors. *)
Fixpoint clean_fields (fs : list field) (self : instance) (errors : list string)
  : res (instance * list string) :=
  match fs with
  | [] => Ok (self, errors)
  | f :: fs' =>
    let raw_value := getattr self (name f) in
    if blank f && in_empty_values raw_value then clean_fields fs' self errors
    else
      match clean f raw_value with
      | Ok x => clean_fields fs' (<[name f := x]> self) errors
      | Raise ValidationError => clean_fields fs' self (errors ++ [name f])
      | Raise e => Raise e
      end
  end.

(** [Model.full_clean]: the errors of [clean_fields] become one
    [ValidationError].  [Model.clean] does nothing, and [validate_unique] has
    nothing to look up: the only unique field is the primary key, which is
    [None].  The object keeps what [clean_fields] has set, also when the call
    raises. *)
Definition Model_full_clean (self : instance) : instance * res unit :=
  match clean_fields CSPReport_fields self [] with
  | Raise e => (self, Raise e)
  | Ok (self', []) => (self', Ok tt)
  | Ok (self', _ :: _) => (self', Raise ValidationError)
  end.

(** The loop of [CSPReport.full_clean] over [REQUIRED_FIELDS]. *)
Fixpoint require_fields (names : list string) (self : instance) : res unit :=
  match names with
  | [] => Ok tt
  | field_name :: rest =>
    let django_field_name := replace_char "-" "_" field_name in
    match getattr self django_field_name with
    | VNone => Raise ValidationError
    | _ => require_fields rest self
    end
  end.

(** [CSPReport.full_clean] *)
Definition full_clean (self : instance) : instance * res unit :=
  match Model_full_clean self with
  | (self', Ok _) => (self', require_fields REQUIRED_FIELDS self')
  | (self', Raise e) => (self', Raise e)
  end.

(** [decoded_data[key]] *)
Definition getitem (o : value) (key : str) : res value :=
  match o with
  | VDict d =>
    match dict_get key d with
    | Some x => Ok x
    | None => Raise KeyError
    end
  | _ => Raise TypeError
  end.

(** [o.get(key, fallback)]: only a dict has the method. *)
Definition get_method (o : value) (key : str) (fallback : value) : res value :=
  match o with
  | VDict d => Ok (default fallback (dict_get key d))
  | _ => Raise AttributeError
  end.

(** The loop of [from_message] over the field names: convert what the report
    holds under the name and set the attribute; a [ValidationError] of the
    converter leaves the attribute as it is. *)
Fixpoint populate (names : list string) (report_data : value) (self : instance)
  : res instance :=
  match names with
  | [] => Ok self
  | json_field_name :: rest =>
    let django_field_name := replace_char "-" "_" json_field_name in
    match get_field django_field_name with
    | None => Raise FieldDoesNotExist
    | Some f =>
      match get_method report_data (txt json_field_name) VNone with
      | Raise e => Raise e
      | Ok x =>
        match to_python (kind f) x with
        | Ok x' => populate rest report_data (<[django_field_name := x']> self)
        | Raise ValidationError => populate rest report_data self
        | Raise e => Raise e
        end
      end
    end
  end.

(** [CSPReport.from_message] *)
Definition from_message (message : str) : res instance :=
  let self := new_report message in
  match loads message with
  | None => Ok self
  | Some decoded_data =>
    match getitem decoded_data (txt "csp-report") with
    | Raise KeyError => Ok self
    | Raise e => Raise e
    | Ok report_data =>
      match populate (REQUIRED_FIELDS ++ OPTIONAL_FIELDS) report_data self with
      | Raise e => Raise e
      | Ok self1 =>
        match full_clean self1 with
        | (self2, Ok _) => Ok (<["is_valid" := VBool true]> self2)
        | (self2, Raise ValidationError) => Ok (<["is_valid" := VBool false]> self2)
        | (_, Raise e) => Raise e
        end
      end
    end
  end%string.

End Models.

(** ** [cspreports/utils.py] *)

Section Utils.
Context `{Python} `{Database}.

(** The request, as far as the pipeline reads it. *)
Record HttpRequest := {
  body : bytes;
  META : gmap string str;
  encoding : option str;
}.

(** What the pipeline does to the outside: mail to the administrators, a call
    of a logger method, the storage of a report, the import of a handler, and
    the call of a handler. *)
Inductive event :=
| MailAdmins (subject message : str)
| LogCall (method : str) (msg : str) (arg : str)
| SaveReport (report : gmap string value)
| ImportFunction (module_name function_name : str)
| HandlerCall (handler : callable) (request : HttpRequest).

(** The state a call runs in: the settings store, the module global
    [_additional_handlers] ([None] until the handlers are resolved), and the
    events so far. *)
Record world := {
  settings : gmap string value;
  _additional_handlers : option (list callable);
  effects : list event;
}.

(** A call reads and changes the state and returns or raises. *)
Definition action (A : Type) : Type := world -> res A * world.

Definition ret {A} (a : A) : action A := fun w => (Ok a, w).

Definition bind {A B} (m : action A) (k : A -> action B) : action B :=
  fun w =>
    match m w with
    | (Ok a, w') => k a w'
    | (Raise e, w') => (Raise e, w')
    end.

#[global] Instance action_ret : MRet action := @ret.
#[global] Instance action_bind : MBind action := fun A B k m => bind m k.

(** The outcome of a call that touches no state. *)
Definition lift {A} (r : res A) : action A := fun w => (r, w).

Definition raise {A} (e : exn) : action A := lift (Raise e).

Definition emit (ev : event) : action unit :=
  fun w =>
    (Ok tt, {| settings := settings w;
               _additional_handlers := _additional_handlers w;
               effects := effects w ++ [ev] |}).

(** [if c: m] *)
Definition when (c : bool) (m : action unit) : action unit :=
  if c then m else ret tt.

(** *** [Config] *)

(** The class attributes of [Config]: the defaults. *)
Definition Config_defaults (n : string) : option value :=
  if bool_decide (n = "EMAIL_ADMINS"%string) then Some (VBool true)
  else if bool_decide (n = "LOG"%string) then Some (VBool true)
  else if bool_decide (n = "LOG_LEVEL"%string) then Some (VStr (txt "warning"))
  else if bool_decide (n = "SAVE"%string) then Some (VBool true)
  else if bool_decide (n = "ADDITIONAL_HANDLERS"%string) then Some (VList [])
  else if bool_decide (n = "IGNORE_BROWSER_EXTENSIONS"%string) then Some (VBool false)
  else None.

(** [Config.__getattribute__]: the setting of the prefixed name, or else the
    class attribute. *)
Definition Config__getattribute__ (n : string) : action value :=
  fun w =>
    match settings w !! String.append "CSP_REPORTS_" n with
    | Some x => (Ok x, w)
    | None =>
      match Config_defaults n with
      | Some x => (Ok x, w)
      | None => (Raise AttributeError, w)
      end
    end.

(** [config.NAME] *)
Abbreviation config := Config__getattribute__.

(** *** [format_report] *)

(** The argument of [format_report]: [bytes] or text. *)
Inductive payload :=
| Bytes (bs : bytes)
| Text (s : str).

Definition format_report (jsn : payload) : res str :=
  match
    match jsn with
    | Bytes bs =>
      match utf8_decode bs with
      | Some s => Ok s
      | None => Raise UnicodeDecodeError
      end
    | Text s => Ok s
    end
  with
  | Raise e => Raise e
  | Ok jsn =>
    match loads jsn with
    | Some o => Ok (dumps o)
    | None => Ok (txt "Invalid JSON. Raw dump is below." ++ [10; 10] ++ jsn)
    end
  end.

(** *** The sinks *)

(** [request.META.get('HTTP_USER_AGENT', '')] *)
Definition user_agent_of (request : HttpRequest) : str :=
  default [] (META request !! "HTTP_USER_AGENT"%string).

Definition email_admins (request : HttpRequest) : action unit :=
  let user_agent := user_agent_of request in
  report ← lift (format_report (Bytes (body request)));
  let message :=
    txt "User agent:" ++ [10] ++ user_agent ++ [10; 10]
    ++ txt "Report:" ++ [10] ++ report in
  emit (MailAdmins (txt "CSP Violation Report") message).

(** The methods of [logging.Logger] that take a message and its arguments. *)
Definition logger_methods : list str :=
  [txt "debug"; txt "info"; txt "warning"; txt "warn"; txt "error";
   txt "exception"; txt "critical"; txt "fatal"].

(** [getattr(logger, level)] for such a method; any other name is taken to
    fail. *)
Definition logger_method (level : value) : res str :=
  match level with
  | VStr n => if bool_decide (n ∈ logger_methods) then Ok n else Raise AttributeError
  | _ => Raise TypeError
  end.

Definition log_report (request : HttpRequest) : action unit :=
  level ← config "LOG_LEVEL";
  func ← lift (logger_method level);
  report ← lift (format_report (Bytes (body request)));
  emit (LogCall func (txt "Content Security Policy violation: %s") report).

(** [bs.decode(charset)] *)
Definition decode (bs : bytes) (charset : value) : res str :=
  match charset with
  | VStr n =>
    match lookup_codec n with
    | None => Raise LookupError
    | Some codec =>
      match codec bs with
      | Some s => Ok s
      | None => Raise UnicodeDecodeError
      end
    end
  | _ => Raise TypeError
  end.

(** [request.encoding or settings.DEFAULT_CHARSET]; Django's own default
    charset is utf-8. *)
Definition charset_of (request : HttpRequest) : action value :=
  fun w =>
    match encoding request with
    | Some (c :: e) => (Ok (VStr (c :: e)), w)
    | _ => (Ok (default (VStr (txt "utf-8")) (settings w !! "DEFAULT_CHARSET"%string)), w)
    end.

Definition save_report (request : HttpRequest) : action unit :=
  charset ← charset_of request;
  message ← lift (decode (body request) charset);
  report ← lift (from_message message);
  let report := <["user_agent"%string := VStr (user_agent_of request)]> report in
  emit (SaveReport report).

(** *** The additional handlers *)

(** [name.rsplit('.', 1)] unpacked into two names: [None] when the name has
    no dot ([ValueError]). *)
Fixpoint rsplit_dot (s : str) : option (str * str) :=
  match s with
  | [] => None
  | c :: s' =>
    match rsplit_dot s' with
    | Some (m, f) => Some (c :: m, f)
    | None => if c =? 46 then Some ([], s') else None
    end
  end.

(** The items a [for] loop draws from a value. *)
Definition iterate (x : value) : res (list value) :=
  match x with
  | VList l => Ok l
  | VStr s => Ok (map (fun c => VStr [c]) s)
  | VDict d => Ok (map (fun kv => VStr kv.1) d)
  | _ => Raise TypeError
  end.

(** The loop of [get_additional_handlers]. *)
Fixpoint resolve_handlers (names : list value) (handlers : list callable)
  : action (list callable) :=
  match names with
  | [] => ret handlers
  | n :: rest =>
    match n with
    | VStr s =>
      match rsplit_dot s with
      | None => raise ValueError
      | Some (module_name, function_name) =>
        emit (ImportFunction module_name function_name);;
        function ← lift (import_function module_name function_name);
        resolve_handlers rest (handlers ++ [function])
      end
    | _ => raise AttributeError
    end
  end.

Definition set_additional_handlers (handlers : list callable) : action unit :=
  fun w =>
    (Ok tt, {| settings := settings w;
               _additional_handlers := Some handlers;
               effects := effects w |}).

Definition get_additional_handlers : action (list callable) :=
  fun w =>
    match _additional_handlers w with
    | Some handlers => (Ok handlers, w)
    | None =>
      (names ← config "ADDITIONAL_HANDLERS";
       items ← lift (iterate names);
       handlers ← resolve_handlers items [];
       set_additional_handlers handlers;;
       ret handlers) w
    end.

Fixpoint call_handlers (handlers : list callable) (request : HttpRequest)
  : action unit :=
  match handlers with
  | [] => ret tt
  | handler :: rest => emit (HandlerCall handler request);; call_handlers rest request
  end.

Definition run_additional_handlers (request : HttpRequest) : action unit :=
  handlers ← get_additional_handlers;
  call_handlers handlers request.

(** *** The ignore check and the dispatch *)

Definition should_ignore_report (request : HttpRequest) : action bool :=
  flag ← config "IGNORE_BROWSER_EXTENSIONS";
  if negb (truthy flag) then ret false
  else
    json_str ← lift (match utf8_decode (body request) with
                     | Some s => Ok s
                     | None => Raise UnicodeDecodeError
                     end);
    report ← lift (match loads json_str with
                   | Some o => Ok o
                   | None => Raise ValueError
                   end);
    src_file ← lift (get_method report (txt "source-file") (VStr []));
    match src_file with
    | VStr s => ret (startswith s (txt "moz-extension://"))
    | _ => raise AttributeError
    end.

(** The four sinks of [process_report], each behind its toggle. *)
Definition run_sinks (request : HttpRequest) : action unit :=
  email ← config "EMAIL_ADMINS";
  when (truthy email) (email_admins request);;
  log ← config "LOG";
  when (truthy log) (log_report request);;
  save ← config "SAVE";
  when (truthy save) (save_report request);;
  additional ← config "ADDITIONAL_HANDLERS";
  when (truthy additional) (run_additional_handlers request).

Definition process_report (request : HttpRequest) : action unit :=
  ignored ← should_ignore_report request;
  if ignored : bool then ret tt else run_sinks request.

End Utils.

(** ** [cspreports/models.py]: how a report is shown *)

Section Display.
Context `{PyFloat}.

(** [key in s] for text: [key] occurs in [s]. *)
Fixpoint occurs_in (key s : str) : bool :=
  startswith s key
  || match s with
     | [] => false
     | _ :: s' => occurs_in key s'
     end.

(** [key in data] for a text [key]: a key of a dict, an item of a list, a
    part of a text; a number, a boolean and [None] cannot be searched. *)
Definition contains (data : value) (key : str) : res bool :=
  match data with
  | VDict d => Ok (bool_decide (is_Some (dict_get key d)))
  | VList l =>
    Ok (existsb (fun x => match x with
                          | VStr s => bool_decide (s = key)
                          | _ => false
                          end) l)
  | VStr s => Ok (occurs_in key s)
  | _ => Raise TypeError
  end.

(** [CSPReport.nice_report], which is also [CSPReport.__str__]. *)
Definition nice_report (self : gmap string value) : res str :=
  let json := default VNone (self !! "json"%string) in
  if negb (truthy json) then Ok (txt "[no CSP report data]")
  else
    match json with
    | VStr s =>
      match loads s with
      | None => Ok (txt "Invalid CSP report: '" ++ s ++ txt "'")
      | Some data =>
        match contains data (txt "csp-report") with
        | Raise e => Raise e
        | Ok false => Ok (txt "Invalid CSP report: " ++ dumps data)
        | Ok true =>
          match getitem data (txt "csp-report") with
          | Ok report => Ok (dumps report)
          | Raise e => Raise e
          end
        end
      end
    | _ => Raise TypeError
    end.

(** [django.utils.html.escape]: the ampersand, the angle brackets, the double
    quote and the apostrophe become character references. *)
Definition escape_html_char (c : N) : str :=
  if c =? 38 then txt "&amp;"
  else if c =? 60 then txt "&lt;"
  else if c =? 62 then txt "&gt;"
  else if c =? 34 then txt "&quot;"
  else if c =? 39 then txt "&#39;"
  else [c].

Definition escape (text : str) : str := flat_map escape_html_char text.

(** [CSPReport.json_as_html] *)
Definition json_as_html (self : gmap string value) : res str :=
  match default VNone (self !! "json"%string) with
  | VStr s =>
    match format_report (Text s) with
    | Ok formatted_json =>
      Ok (txt "<pre>" ++ [10] ++ escape formatted_json ++ txt "</pre>")
    | Raise e => Raise e
    end
  | _ => Raise TypeError
  end.

(** [CSPReport.data]: the decoded [json], kept in the instance attribute
    [_data] from the first access on; gives the outcome and the instance
    after the access. *)
Definition data (self : gmap string value) : res value * gmap string value :=
  match self !! "_data"%string with
  | Some data => (Ok data, self)
  | None =>
    match default VNone (self !! "json"%string) with
    | VStr s =>
      match loads s with
      | Some data => (Ok data, <["_data"%string := data]> self)
      | None => (Raise ValueError, self)
      end
    | _ => (Raise TypeError, self)
    end
  end.

End Display.


(** ** A reference environment

    A small interpreter and backend to run the pipeline on concrete requests:
    floats that hold whole numbers only, plain signed decimal numerals for
    [int(text)], the codecs utf-8 and latin-1, one module with two handlers,
    and the integer ranges of Django's base backend. *)

Inductive whole := WNaN | WInf | WNegInf | WFin (z : Z).

Definition signed (sg : str) (n : N) : Z :=
  match sg with
  | [] => Z.of_N n
  | _ :: _ => - Z.of_N n
  end.

Definition whole_of_literal (lit : str) : whole :=
  let '(sg, s1) := match_sign lit in
  let '(ds, _) := span_digits s1 in
  WFin (signed sg (int_of_digits ds)).

Definition whole_repr (x : whole) : str :=
  match x with
  | WNaN => txt "nan"
  | WInf => txt "inf"
  | WNegInf => txt "-inf"
  | WFin z => int_repr z ++ txt ".0"
  end.

Definition whole_floats : PyFloat :=
  {| float := whole;
     float_of_literal := whole_of_literal;
     float_repr := whole_repr;
     float_nan := WNaN;
     float_inf := WInf;
     float_neg_inf := WNegInf;
     float_classify x :=
       match x with
       | WNaN => FNaN
       | WInf => FPosInf
       | WNegInf => FNegInf
       | WFin _ => FFinite
       end;
     float_trunc x := match x with WFin z => z | _ => 0%Z end;
     float_eq_int x n := match x with WFin z => Z.eqb z n | _ => false end |}.

Definition reference_str (x : @value whole_floats) : str :=
  match x with
  | VNone => txt "None"
  | VBool true => txt "True"
  | VBool false => txt "False"
  | VInt z => int_repr z
  | VFloat y => whole_repr y
  | VStr s => s
  | VList _ => txt "[...]"
  | VDict _ => txt "{...}"
  end.

Definition reference_int_of_str (s : str) : option Z :=
  let '(sg, s1) := match_sign s in
  match span_digits s1 with
  | (d :: ds, []) => Some (signed sg (int_of_digits (d :: ds)))
  | _ => None
  end.

Definition reference_codec (n : str) : option (bytes -> option str) :=
  if bool_decide (n = txt "utf-8") then Some utf8_decode
  else if bool_decide (n = txt "latin-1") then Some (fun bs => Some (map Byte.to_N bs))
  else None.

Definition reference_import (module_name function_name : str) : res str :=
  if bool_decide (module_name = txt "site.handlers") then
    if bool_decide (function_name ∈ [txt "notify"; txt "audit"])
    then Ok (module_name ++ [46] ++ function_name)
    else Raise AttributeError
  else Raise ImportError.

Definition reference_python : @Python whole_floats :=
  {| py_str := reference_str;
     int_of_str := reference_int_of_str;
     lookup_codec := reference_codec;
     callable := str;
     import_function := reference_import |}.

Definition reference_database : Database :=
  {| integer_field_range t :=
       match t with
       | PositiveSmallInteger => (Some 0, Some 32767)%Z
       | PositiveInteger => (Some 0, Some 2147483647)%Z
       end |}.

(** Concrete payloads are written with apostrophes where JSON has double
    quotes. *)
Definition quoted (s : string) : str :=
  map (fun c => if c =? 39 then 34 else c) (txt s).

Definition quoted_octets (s : string) : bytes :=
  map (fun x => if Byte.eqb x "'"%byte then x22 else x) (octets s).

(** *** Sample requests and states *)

Section Samples.
#[local] Existing Instance whole_floats.
#[local] Existing Instance reference_python.
#[local] Existing Instance reference_database.

Definition state_of (s : list (string * value)) : world :=
  {| settings := list_to_map s; _additional_handlers := None; effects := [] |}.

Definition request_of (payload : string) : HttpRequest :=
  {| body := quoted_octets payload;
     META := {[ "HTTP_USER_AGENT"%string := txt "Mozilla/5.0" ]};
     encoding := None |}.

(** A complete report. *)
Definition complete_report : string :=
  "{'csp-report': {'document-uri': 'https://example.org/page', 'referrer': '', 'blocked-uri': 'https://cdn.example.net/x.js', 'violated-directive': 'script-src', 'original-policy': 'script-src self', 'status-code': 200}}".

(** A complete report with a disposition that is none of the choices. *)
Definition odd_disposition_report : string :=
  "{'csp-report': {'document-uri': 'https://example.org/page', 'referrer': '', 'blocked-uri': 'https://cdn.example.net/x.js', 'violated-directive': 'script-src', 'original-policy': 'script-src self', 'disposition': 'bogus'}}".

(** A complete report with a negative status code. *)
Definition negative_status_report : string :=
  "{'csp-report': {'document-uri': 'https://example.org/page', 'referrer': '', 'blocked-uri': 'https://cdn.example.net/x.js', 'violated-directive': 'script-src', 'original-policy': 'script-src self', 'status-code': -1}}".

(** A complete report whose line number is no number. *)
Definition odd_line_report : string :=
  "{'csp-report': {'document-uri': 'https://example.org/page', 'referrer': '', 'blocked-uri': 'https://cdn.example.net/x.js', 'violated-directive': 'script-src', 'original-policy': 'script-src self', 'line-number': 'twelve'}}".


Definition nested_extension_payload : string :=
  "{'csp-report': {'source-file': 'moz-extension://abc', 'document-uri': 'https://example.org/page'}}".

Definition chrome_extension_payload : string :=
  "{'source-file': 'chrome-extension://abc'}".

Definition broken_payload : string := "{'csp-report': ".

(** All sinks on, with one additional handler. *)
Definition all_sinks_state : world :=
  state_of
    [("CSP_REPORTS_ADDITIONAL_HANDLERS"%string,
      VList [VStr (txt "site.handlers.notify")])].

Definition ignoring_state : world :=
  state_of [("CSP_REPORTS_IGNORE_BROWSER_EXTENSIONS"%string, VBool true)].

Definition sample_formatted : str :=
  Eval vm_compute in
    match format_report (Bytes (quoted_octets complete_report)) with
    | Ok s => s
    | Raise _ => []
    end.

Definition sample_record : gmap string value :=
  match from_message (quoted complete_report) with
  | Ok r => r
  | Raise _ => ∅
  end.

(** A report without its [blocked-uri]. *)
Definition incomplete_report : string :=
  "{'csp-report': {'document-uri': 'https://example.org/page', 'referrer': '', 'violated-directive': 'script-src', 'original-policy': 'script-src self', 'line-number': 12}}".

(** A report with the five required members and nothing else. *)
Definition plain_report : string :=
  "{'csp-report': {'document-uri': 'https://example.org/page', 'referrer': '', 'blocked-uri': 'https://cdn.example.net/x.js', 'violated-directive': 'script-src', 'original-policy': 'script-src self'}}".

(** The decoded object of a payload and its [csp-report] member. *)
Definition object_of (payload : string) : list (str * value) :=
  match loads (quoted payload) with
  | Some (VDict d) => d
  | _ => []
  end.

Definition members_of (payload : string) : list (str * value) :=
  match dict_get (txt "csp-report") (object_of payload) with
  | Some (VDict m) => m
  | _ => []
  end.

Definition record_of (payload : string) : gmap string value :=
  match from_message (quoted payload) with
  | Ok r => r
  | Raise _ => ∅
  end.


(** A payload that is JSON but no object, and an object whose [source-file]
    is a number. *)
Definition list_payload : string := "[]".

Definition odd_source_payload : string := "{'source-file': 5}".

(** A record whose [json] is a JSON number. *)
Definition scalar_record : gmap string value := new_report (txt "5").

(** One handler that cannot be imported after one that can. *)
Definition failing_handlers_state : world :=
  state_of
    [("CSP_REPORTS_ADDITIONAL_HANDLERS"%string,
      VList [VStr (txt "site.handlers.notify"); VStr (txt "site.handlers.missing")])].

(** Two handlers. *)
Definition two_handlers_state : world :=
  state_of
    [("CSP_REPORTS_ADDITIONAL_HANDLERS"%string,
      VList [VStr (txt "site.handlers.notify"); VStr (txt "site.handlers.audit")])].

(** Every sink switched off. *)
Definition silent_state : world :=
  state_of
    [("CSP_REPORTS_EMAIL_ADMINS"%string, VBool false);
     ("CSP_REPORTS_LOG"%string, VBool false);
     ("CSP_REPORTS_SAVE"%string, VBool false)].


(** A payload with its keys out of order, a nested list and dict, a float, a
    negative number and characters the encoder escapes. *)
Definition mixed_payload : string :=
  "{'b': [1, 2.0, 'x<y\\z', []], 'a': {'d': null, 'c': true, 'f': {}}, 'e': -30}".




(** A request whose body is Latin-1 and says so: the report of a page with
    an accented letter in its address. *)
Definition latin1_request : HttpRequest :=
  {| body := quoted_octets "{'csp-report': {'document-uri': 'https://example.org/caf"
             ++ [xe9] ++ quoted_octets "'}}";
     META := {[ "HTTP_USER_AGENT"%string := txt "Mozilla/5.0" ]};
     encoding := Some (txt "latin-1") |}.

(** The dotted name of a handler given as one text, not as a list of one. *)
Definition bare_name_state : world :=
  state_of
    [("CSP_REPORTS_ADDITIONAL_HANDLERS"%string, VStr (txt "site.handlers.notify"))].

(** A complete report of a Firefox extension, as browsers send it: the
    [source-file] is a member of [csp-report]. *)
Definition firefox_extension_report : string :=
  "{'csp-report': {'document-uri': 'https://example.org/page', 'referrer': '', 'blocked-uri': 'https://cdn.example.net/x.js', 'violated-directive': 'script-src', 'original-policy': 'script-src self', 'source-file': 'moz-extension://abc'}}".

(** A payload whose [csp-report] member is a number. *)
Definition scalar_report_payload : string := "{'csp-report': 5}".

(** The ignore check on, all sinks on, one additional handler. *)
Definition ignoring_all_sinks_state : world :=
  state_of
    [("CSP_REPORTS_IGNORE_BROWSER_EXTENSIONS"%string, VBool true);
     ("CSP_REPORTS_ADDITIONAL_HANDLERS"%string,
      VList [VStr (txt "site.handlers.notify")])].

End Samples.

(** ** Vocabulary of the properties *)

Section Vocabulary.
Context `{Python} `{Database}.

(** The state with another settings store: a reconfiguration between calls. *)
Definition with_settings (s : gmap string value) (w : world) : world :=
  {| settings := s;
     _additional_handlers := _additional_handlers w;
     effects := effects w |}.

(** The state after more events. *)
Definition with_events (evs : list event) (w : world) : world :=
  {| settings := settings w;
     _additional_handlers := _additional_handlers w;
     effects := effects w ++ evs |}.

(** Calls of [get_additional_handlers], one under each settings store of the
    list in turn: the results and the final state. *)
Fixpoint later_calls (ss : list (gmap string value)) (w : world)
  : list (res (list callable)) * world :=
  match ss with
  | [] => ([], w)
  | s :: ss' =>
    let '(r, w') := get_additional_handlers (with_settings s w) in
    let '(rs, w'') := later_calls ss' w' in
    (r :: rs, w'')
  end.

Definition is_import (ev : event) : bool :=
  match ev with
  | ImportFunction _ _ => true
  | _ => false
  end.

(** The attribute names of the required fields. *)
Definition required_attributes : list string :=
  map (replace_char "-" "_") REQUIRED_FIELDS.

(** What the model's validators accept in the optional fields. *)
Definition disposition_ok (x : value) : Prop :=
  x = VNone ∨ x = VStr [] ∨ x = VStr (txt "enforce") ∨ x = VStr (txt "report").

Definition within (range : option Z * option Z) (z : Z) : Prop :=
  (0 ≤ z)%Z
  ∧ match range.1 with Some m => (m ≤ z)%Z | None => True end
  ∧ match range.2 with Some m => (z ≤ m)%Z | None => True end.

Definition count_ok (t : integer_field) (x : value) : Prop :=
  x = VNone ∨ ∃ z, x = VInt z ∧ within (integer_field_range t) z.

Definition optional_valid (r : gmap string value) : Prop :=
  disposition_ok (getattr r "disposition")
  ∧ count_ok PositiveSmallInteger (getattr r "status_code")
  ∧ count_ok PositiveInteger (getattr r "line_number")
  ∧ count_ok PositiveInteger (getattr r "column_number").

Definition required_present (r : gmap string value) : Prop :=
  Forall (fun n => getattr r n ≠ VNone) required_attributes.

(** The values a field of a kind holds once converted. *)
Definition kind_ok (k : field_kind) (x : value) : Prop :=
  match k with
  | TextField | CharField _ => x = VNone ∨ ∃ s, x = VStr s
  | IntegerField _ => x = VNone ∨ ∃ z, x = VInt z
  | BooleanField => ∃ t, x = VBool t
  end.

(** Whether [clean_fields] lets a field with a converted value pass. *)
Definition field_ok (f : field) (x : value) : bool :=
  (blank f && in_empty_values x) || (validate f x && run_validators f x).

(** An object whose attributes all hold values of their field's kind. *)
Definition well_typed (self : gmap string value) : Prop :=
  ∀ f, f ∈ CSPReport_fields -> ∃ x, self !! name f = Some x ∧ kind_ok (kind f) x.

(** The names of the report members that are numbers. *)
Definition number_fields : list string :=
  ["status-code"; "line-number"; "column-number"]%string.

(** A float that [int] cannot convert without overflow. *)
Definition infinite (x : value) : Prop :=
  ∃ y, x = VFloat y ∧ (float_classify y = FPosInf ∨ float_classify y = FNegInf).

(** The optional members the model validates. *)
Definition validated_fields : list string :=
  ["disposition"; "status-code"; "line-number"; "column-number"]%string.

(** A state that a call has only added to: the same settings, the earlier
    events still first, and a resolved handler list still in place. *)
Definition grows (w w' : world) : Prop :=
  settings w' = settings w
  ∧ (∃ evs, effects w' = effects w ++ evs)
  ∧ (∀ hs, _additional_handlers w = Some hs -> _additional_handlers w' = Some hs).

(** The events of a sink behind its toggle: none when the toggle resolves to
    a false value. *)
Definition sink_events (toggle : value) (evs : list event) : list event :=
  if truthy toggle then evs else [].

End Vocabulary.

(** ** Values that survive encoding and decoding *)

Section Stability.
Context `{PyFloat}.

(** No high surrogate is directly followed by a low surrogate. *)
Fixpoint pair_free (s : str) : bool :=
  match s with
  | [] => true
  | c :: s' =>
    match s' with
    | c' :: _ => negb (is_high_surrogate c && is_low_surrogate c')
    | [] => true
    end && pair_free s'
  end.

(** Text of code points in which no two surrogates stand as a pair. *)
Definition plain_text (s : str) : bool :=
  forallb (fun c => c <? 0x110000) s && pair_free s.

(** What follows a value in the encoder's output: nothing, a line break or a
    comma. *)
Definition delimited (rest : str) : bool :=
  match rest with
  | [] => true
  | c :: _ => (c =? 10) || (c =? 44)
  end.

(** The float a literal of the encoder reads back as. *)
Definition reread_float (x : float) : float :=
  match float_classify x with
  | FNaN => float_nan
  | FPosInf => float_inf
  | FNegInf => float_neg_inf
  | FFinite =>
    match match_number (float_repr x) with
    | Some (VFloat y, _) => y
    | _ => x
    end
  end.

(** A float whose text is a JSON number, or one of the three names, that
    reads back as a float with the same text. *)
Definition float_stable (x : float) : bool :=
  bool_decide (floatstr (reread_float x) = floatstr x)
  && match float_classify x with
     | FFinite =>
       match match_number (float_repr x) with
       | Some (VFloat _, []) => true
       | _ => false
       end
     | _ => true
     end.

(** Values the encoder writes so that the decoder reads them back: plain text
    in strings and keys, stable floats, no key twice in a dict. *)
Fixpoint stable (v : value) : bool :=
  match v with
  | VFloat x => float_stable x
  | VStr s => plain_text s
  | VList l => forallb stable l
  | VDict d =>
    forallb (fun kv : str * value => plain_text kv.1 && stable kv.2) d
    && bool_decide (NoDup (map fst d))
  | _ => true
  end.

(** What the decoder reads from the encoder's text of a value: the items of
    every dict in the order of their keys, every float as its text reads. *)
Fixpoint reread (v : value) : value :=
  match v with
  | VFloat x => VFloat (reread_float x)
  | VList l => VList (map reread l)
  | VDict d => VDict (sort_items (map (fun kv : str * value => (kv.1, reread kv.2)) d))
  | _ => v
  end.

(** Items in the order [sort_items] leaves them in. *)
Fixpoint key_sorted {A} (l : list (str * A)) : bool :=
  match l with
  | [] => true
  | kv :: l' =>
    match l' with
    | kv' :: _ => negb (str_ltb kv'.1 kv.1)
    | [] => true
    end && key_sorted l'
  end.

(** What may follow the escape of a lone high surrogate: no escape of a low
    surrogate. *)
Definition no_low_escape (X : str) : Prop :=
  ∀ k1 k2 k3 k4 s5,
    X = 92 :: 117 :: k1 :: k2 :: k3 :: k4 :: s5 ->
    ∃ c2, decode_hex4 k1 k2 k3 k4 = Some c2 ∧ is_low_surrogate c2 = false.

(** One step of [int(digits)]. *)
Definition add_digit (acc c : N) : N := acc * 10 + (c - 48).

(** The first character of a value's text: no white space, no closing
    bracket, no byte order mark. *)
Definition starts_value (s : str) : Prop :=
  ∃ c s', s = c :: s' ∧ is_ws c = false ∧ c ≠ 93 ∧ c ≠ 0xFEFF.

(** A value whose text, at any nesting level and before any delimiter, the
    scanner reads back. *)
Definition reads_back (e : value) : Prop :=
  stable e = true ->
  ∀ level rest fuel,
    delimited rest = true ->
    (length (iterencode level e) <= fuel)%nat ->
    scan_once fuel (iterencode level e ++ rest) = Found (reread e) rest.

(** The text of one item of a dict. *)
Definition item_text (level : nat) (kv : str * value) : str :=
  encode_basestring_ascii kv.1 ++ [58; 32] ++ iterencode (S level) kv.2.
End Stability.

(** ** Values as the decoder builds them from UTF-8 *)

Section WellFormed.
Context `{PyFloat}.

(** Text as the UTF-8 decoder gives it: code points below [0x110000], none of
    them a surrogate. *)
Definition scalar_text (s : str) : bool :=
  forallb (fun c => (c <? 0x110000) && negb (is_surrogate c)) s.

(** Every float of a value is stable. *)
Fixpoint floats_stable (v : value) : bool :=
  match v with
  | VFloat x => float_stable x
  | VList l => forallb floats_stable l
  | VDict d => forallb (fun kv : str * value => floats_stable kv.2) d
  | _ => true
  end.

(** Plain text in strings and keys, no key twice in a dict. *)
Fixpoint well_formed (v : value) : bool :=
  match v with
  | VStr s => plain_text s
  | VList l => forallb well_formed l
  | VDict d =>
    forallb (fun kv : str * value => plain_text kv.1 && well_formed kv.2) d
    && bool_decide (NoDup (map fst d))
  | _ => true
  end.

(** Text that starts with the escape of a low surrogate. *)
Definition low_escape_start (s : str) : Prop :=
  ∃ k1 k2 k3 k4 s5 c2,
    s = 92 :: 117 :: k1 :: k2 :: k3 :: k4 :: s5
    ∧ decode_hex4 k1 k2 k3 k4 = Some c2
    ∧ is_low_surrogate c2 = true.
End WellFormed.

(** * Properties *)

Section Properties.
Context `{Python} `{Database}.

Ltac run :=
  repeat (unfold mbind, action_bind, bind, lift, raise, ret, when, mret, action_ret; simpl).

(** ** Configuration *)

Lemma config_keeps_state (n : string) (w : world) :
  (Config__getattribute__ n w).2 = w.
Proof.
  unfold Config__getattribute__.
  destruct (settings w !! _); [done|]. by destruct (Config_defaults n).
Qed.

Lemma config_known (n : string) (x0 : value) (w : world) :
  Config_defaults n = Some x0 ->
  Config__getattribute__ n w
  = (Ok (default x0 (settings w !! String.append "CSP_REPORTS_" n)), w).
Proof.
  intros Hd. unfold Config__getattribute__. rewrite Hd.
  by destruct (settings w !! _).
Qed.

Lemma config_frame (n : string) (w : world) (evs : list event)
      (c : option (list callable)) :
  Config__getattribute__ n
    {| settings := settings w; _additional_handlers := c; effects := evs |}
  = ((Config__getattribute__ n w).1,
     {| settings := settings w; _additional_handlers := c; effects := evs |}).
Proof.
  unfold Config__getattribute__. simpl.
  destruct (settings w !! _); [done|]. by destruct (Config_defaults n).
Qed.

(** C5.  Every access to one of the six options reads the settings store of
    the moment under the prefixed name, returns the stored value when there is
    one and the documented default otherwise, and leaves the state as it was:
    nothing is cached, so the next access reads the store again. *)
Theorem config_reads_store_then_default (w : world) :
  let stored n := settings w !! String.append "CSP_REPORTS_" n in
  Config__getattribute__ "EMAIL_ADMINS" w
    = (Ok (default (VBool true) (stored "EMAIL_ADMINS"%string)), w)
  ∧ Config__getattribute__ "LOG" w
    = (Ok (default (VBool true) (stored "LOG"%string)), w)
  ∧ Config__getattribute__ "LOG_LEVEL" w
    = (Ok (default (VStr (txt "warning")) (stored "LOG_LEVEL"%string)), w)
  ∧ Config__getattribute__ "SAVE" w
    = (Ok (default (VBool true) (stored "SAVE"%string)), w)
  ∧ Config__getattribute__ "ADDITIONAL_HANDLERS" w
    = (Ok (default (VList []) (stored "ADDITIONAL_HANDLERS"%string)), w)
  ∧ Config__getattribute__ "IGNORE_BROWSER_EXTENSIONS" w
    = (Ok (default (VBool false) (stored "IGNORE_BROWSER_EXTENSIONS"%string)), w).
Proof.
  intros stored. repeat split; by apply config_known.
Qed.

(** ** The ignore check *)

Lemma should_ignore_report_unfold (request : HttpRequest) (w : world) (flag : value) :
  Config__getattribute__ "IGNORE_BROWSER_EXTENSIONS" w = (Ok flag, w) ->
  should_ignore_report request w =
  if negb (truthy flag) then (Ok false, w)
  else
    match utf8_decode (body request) with
    | None => (Raise UnicodeDecodeError, w)
    | Some json_str =>
      match loads json_str with
      | None => (Raise ValueError, w)
      | Some report =>
        match get_method report (txt "source-file") (VStr []) with
        | Raise e => (Raise e, w)
        | Ok (VStr s) => (Ok (startswith s (txt "moz-extension://")), w)
        | Ok _ => (Raise AttributeError, w)
        end
      end
    end.
Proof.
  intros Hc. unfold should_ignore_report. run. rewrite Hc.
  destruct (negb (truthy flag)); [done|].
  destruct (utf8_decode (body request)) as [json_str|]; [|done].
  destruct (loads json_str) as [report|]; [|done].
  destruct (get_method report _ _) as [[]|]; done.
Qed.

Lemma ignore_flag_resolves (w : world) :
  ∃ flag, Config__getattribute__ "IGNORE_BROWSER_EXTENSIONS" w = (Ok flag, w).
Proof. eexists. by apply config_known. Qed.

(** C9.  When [IGNORE_BROWSER_EXTENSIONS] resolves to a false value, the
    ignore check answers [False] whatever the body of the request is, decodable
    or not, and dispatch goes on to the sinks: the check cannot raise. *)
Theorem ignore_check_off_never_reads_body
        (request : HttpRequest) (w : world) (flag : value) :
  Config__getattribute__ "IGNORE_BROWSER_EXTENSIONS" w = (Ok flag, w) ->
  truthy flag = false ->
  should_ignore_report request w = (Ok false, w)
  ∧ process_report request w = run_sinks request w.
Proof.
  intros Hc Hoff.
  assert (Hs : should_ignore_report request w = (Ok false, w)).
  { rewrite (should_ignore_report_unfold _ _ _ Hc), Hoff. done. }
  split; [done|]. unfold process_report. run. by rewrite Hs.
Qed.


(** The parser keeps a message that is no JSON as it is. *)
Lemma from_message_not_json (message : str) :
  loads message = None -> from_message message = Ok (new_report message).
Proof. intros Hl. unfold from_message. by rewrite Hl. Qed.

(** C8.  With the ignore check switched on, a payload that is text but no
    JSON makes [process_report] raise [ValueError] to its caller before any
    sink has run, although the parser and the formatter both accept the same
    payload: the parser returns the untouched invalid record, the formatter
    the raw dump. *)
Theorem ignore_check_decode_error_propagates
        (request : HttpRequest) (w : world) (flag : value) (text : str) :
  Config__getattribute__ "IGNORE_BROWSER_EXTENSIONS" w = (Ok flag, w) ->
  truthy flag = true ->
  utf8_decode (body request) = Some text ->
  loads text = None ->
  process_report request w = (Raise ValueError, w)
  ∧ from_message text = Ok (new_report text)
  ∧ getattr (new_report text) "is_valid" = VBool false
  ∧ format_report (Bytes (body request))
    = Ok (txt "Invalid JSON. Raw dump is below." ++ [10; 10] ++ text).
Proof.
  intros Hc Hon Hdec Hloads. repeat split.
  - unfold process_report. run.
    by rewrite (should_ignore_report_unfold _ _ _ Hc), Hon, Hdec, Hloads.
  - by apply from_message_not_json.
  - unfold format_report. by rewrite Hdec, Hloads.
Qed.

(** ** The additional handlers *)

Lemma config_fst_frame (n : string) (w : world) (evs : list event)
      (c : option (list callable)) :
  Config__getattribute__ n
    {| settings := settings w; _additional_handlers := c; effects := evs |}
  = ((Config__getattribute__ n w).1,
     {| settings := settings w; _additional_handlers := c; effects := evs |}).
Proof. apply config_frame. Qed.

Lemma config_with_events (n : string) (w : world) (evs : list event) (x : value) :
  Config__getattribute__ n w = (Ok x, w) ->
  Config__getattribute__ n (with_events evs w) = (Ok x, with_events evs w).
Proof.
  intros Hc. unfold with_events. rewrite config_frame. by rewrite Hc.
Qed.

Lemma with_events_nil (w : world) : with_events [] w = w.
Proof. destruct w. unfold with_events. simpl. by rewrite app_nil_r. Qed.

Lemma with_events_app (evs1 evs2 : list event) (w : world) :
  with_events evs2 (with_events evs1 w) = with_events (evs1 ++ evs2) w.
Proof. unfold with_events. simpl. by rewrite app_assoc. Qed.

Lemma emit_with_events (ev : event) (w : world) :
  emit ev w = (Ok tt, with_events [ev] w).
Proof. done. Qed.

(** The loop that resolves the names reads nothing of the state and only adds
    import events to it. *)
Lemma resolve_handlers_frame (names : list value) (handlers : list callable) :
  ∃ r evs, forallb is_import evs = true
           ∧ ∀ w, resolve_handlers names handlers w = (r, with_events evs w).
Proof.
  revert handlers. induction names as [|n names IH]; intros handlers.
  - exists (Ok handlers), []. split; [done|]. intros w. by rewrite with_events_nil.
  - destruct n as [| | | |s| |]; simpl;
      try (exists (Raise AttributeError), []; split; [done|];
           intros w; by rewrite with_events_nil).
    destruct (rsplit_dot s) as [[m f]|].
    + destruct (import_function m f) as [h|e] eqn:Himp.
      * destruct (IH (handlers ++ [h])) as (r & evs & Hev & Hr).
        exists r, (ImportFunction m f :: evs). split; [done|].
        intros w. run. rewrite Hr. unfold with_events. simpl. by rewrite <- app_assoc.
      * exists (Raise e), [ImportFunction m f]. split; [done|].
        intros w. run. done.
    + exists (Raise ValueError), []. split; [done|].
      intros w. by rewrite with_events_nil.
Qed.

(** A call that completes leaves the resolved list in the global, keeps the
    settings, and adds import events only; it does the same from any state
    with the same settings and global. *)
Lemma get_additional_handlers_frame (w w1 : world) (hs : list callable) :
  get_additional_handlers w = (Ok hs, w1) ->
  ∃ evs, forallb is_import evs = true
    ∧ ∀ E, get_additional_handlers
             {| settings := settings w;
                _additional_handlers := _additional_handlers w;
                effects := E |}
           = (Ok hs, {| settings := settings w;
                        _additional_handlers := Some hs;
                        effects := E ++ evs |}).
Proof.
  unfold get_additional_handlers.
  destruct (_additional_handlers w) as [hs0|] eqn:Hcache.
  - intros [= <- <-]. exists []. split; [done|]. intros E. simpl.
    by rewrite app_nil_r.
  - run.
    destruct (Config__getattribute__ "ADDITIONAL_HANDLERS" w)
      as [[names|e] w'] eqn:Hc; [|done].
    pose proof (config_keeps_state "ADDITIONAL_HANDLERS" w) as Hw.
    rewrite Hc in Hw. simpl in Hw. subst w'.
    destruct (iterate names) as [items|e] eqn:Hit; [|done].
    destruct (resolve_handlers_frame items []) as (r & evs & Hev & Hr).
    rewrite Hr. destruct r as [hs'|e]; [|done]. simpl.
    intros [= <- <-]. exists evs. split; [done|]. intros E. simpl.
    rewrite config_frame, Hc. simpl. rewrite Hit, Hr. done.
Qed.

Lemma get_additional_handlers_cached (w : world) (hs : list callable) :
  _additional_handlers w = Some hs -> get_additional_handlers w = (Ok hs, w).
Proof. intros Hc. unfold get_additional_handlers. by rewrite Hc. Qed.

Lemma get_additional_handlers_sets_global (w w1 : world) (hs : list callable) :
  get_additional_handlers w = (Ok hs, w1) -> _additional_handlers w1 = Some hs.
Proof.
  intros Hg. destruct (get_additional_handlers_frame _ _ _ Hg) as (evs & _ & Hf).
  specialize (Hf (effects w)). destruct w as [s c E]. simpl in Hf.
  rewrite Hg in Hf. by injection Hf as ->.
Qed.

Lemma later_calls_cached (ss : list (gmap string value)) (w : world)
      (hs : list callable) :
  _additional_handlers w = Some hs ->
  Forall (fun r => r = Ok hs) (later_calls ss w).1
  ∧ length (later_calls ss w).1 = length ss
  ∧ effects (later_calls ss w).2 = effects w
  ∧ _additional_handlers (later_calls ss w).2 = Some hs.
Proof.
  revert w. induction ss as [|s ss IH]; intros w Hc; simpl.
  - done.
  - rewrite (get_additional_handlers_cached (with_settings s w) hs) by done.
    destruct (later_calls ss (with_settings s w)) as [rs w2] eqn:Hl.
    specialize (IH (with_settings s w) Hc). rewrite Hl in IH. simpl in *.
    destruct IH as (Hrs & Hlen & Heff & Hcache).
    repeat split; [by constructor | by rewrite Hlen | done | done].
Qed.

(** C6.  Once a call of [get_additional_handlers] has completed with a list,
    every later call returns that same list, whatever the settings store
    (and so the [ADDITIONAL_HANDLERS] setting) has become in between, and
    resolves nothing: it adds no import, nor any other event.  The options
    themselves are still read from the store of the moment on each access. *)
Theorem additional_handlers_resolved_once
        (w w1 : world) (hs : list callable) (ss : list (gmap string value)) :
  get_additional_handlers w = (Ok hs, w1) ->
  (Forall (fun r => r = Ok hs) (later_calls ss w1).1
   ∧ length (later_calls ss w1).1 = length ss
   ∧ effects (later_calls ss w1).2 = effects w1
   ∧ _additional_handlers (later_calls ss w1).2 = Some hs)
  ∧ (∀ s n x0, Config_defaults n = Some x0 ->
       Config__getattribute__ n (with_settings s w1)
       = (Ok (default x0 (s !! String.append "CSP_REPORTS_" n)),
          with_settings s w1)).
Proof.
  intros Hg. split.
  - apply later_calls_cached. by eapply get_additional_handlers_sets_global.
  - intros s n x0 Hd. by apply config_known.
Qed.

(** ** The sinks *)

Lemma email_admins_sends (request : HttpRequest) (w : world) (formatted : str) :
  format_report (Bytes (body request)) = Ok formatted ->
  email_admins request w
  = (Ok tt,
     with_events
       [MailAdmins (txt "CSP Violation Report")
          (txt "User agent:" ++ [10] ++ user_agent_of request ++ [10; 10]
           ++ txt "Report:" ++ [10] ++ formatted)] w).
Proof. intros Hf. unfold email_admins. run. by rewrite Hf. Qed.

Lemma log_report_logs (request : HttpRequest) (w : world) (level formatted : str) :
  Config__getattribute__ "LOG_LEVEL" w = (Ok (VStr level), w) ->
  level ∈ logger_methods ->
  format_report (Bytes (body request)) = Ok formatted ->
  log_report request w
  = (Ok tt,
     with_events
       [LogCall level (txt "Content Security Policy violation: %s") formatted] w).
Proof.
  intros Hc Hl Hf. unfold log_report. run. rewrite Hc. simpl.
  rewrite bool_decide_eq_true_2 by done. by rewrite Hf.
Qed.

Lemma charset_of_with_events (request : HttpRequest) (w : world)
      (evs : list event) (charset : value) :
  charset_of request w = (Ok charset, w) ->
  charset_of request (with_events evs w) = (Ok charset, with_events evs w).
Proof.
  unfold charset_of. destruct (encoding request) as [[|c e]|]; simpl; congruence.
Qed.

Lemma save_report_saves (request : HttpRequest) (w : world)
      (charset : value) (message : str) (report : gmap string value) :
  charset_of request w = (Ok charset, w) ->
  decode (body request) charset = Ok message ->
  from_message message = Ok report ->
  save_report request w
  = (Ok tt,
     with_events
       [SaveReport (<["user_agent"%string := VStr (user_agent_of request)]> report)] w).
Proof.
  intros Hc Hd Hm. unfold save_report. run. by rewrite Hc, Hd, Hm.
Qed.

Lemma call_handlers_calls (hs : list callable) (request : HttpRequest) (w : world) :
  call_handlers hs request w
  = (Ok tt, with_events (map (fun h => HandlerCall h request) hs) w).
Proof.
  revert w. induction hs as [|h hs IH]; intros w; simpl.
  - by rewrite with_events_nil.
  - run. rewrite IH. unfold with_events. simpl. by rewrite <- app_assoc.
Qed.

Lemma run_additional_handlers_calls
      (request : HttpRequest) (w w1 : world) (hs : list callable) :
  get_additional_handlers w = (Ok hs, w1) ->
  ∃ imports, forallb is_import imports = true
    ∧ ∀ evs, run_additional_handlers request (with_events evs w)
        = (Ok tt,
           {| settings := settings w;
              _additional_handlers := Some hs;
              effects := effects w ++ evs ++ imports
                         ++ map (fun h => HandlerCall h request) hs |}).
Proof.
  intros Hg. destruct (get_additional_handlers_frame _ _ _ Hg) as (imports & Hi & Hf).
  exists imports. split; [done|]. intros evs.
  unfold run_additional_handlers. run. unfold with_events at 1.
  rewrite Hf. rewrite call_handlers_calls. unfold with_events. simpl.
  by rewrite <- !app_assoc.
Qed.

(** C4.  A request that is not ignored, with the four toggles resolving to
    true values, a log level that names a logger method, a body the formatter
    and the request's charset can decode and the parser accepts (a valid report
    in particular): [process_report] returns, and what it has added to the
    events is, in this order, one mail to the administrators carrying the user
    agent and the formatted body, one call of the logger method named by
    [LOG_LEVEL] with the formatted body, one stored report parsed from the
    decoded body with the same user agent attached, whatever imports the
    resolution of the handlers needed, and one call of each handler with the
    request. *)
Theorem enabled_sinks_run_once_in_order
        (request : HttpRequest) (w w1 : world)
        (email log save additional charset : value)
        (level formatted message : str)
        (report : gmap string value) (hs : list callable) :
  should_ignore_report request w = (Ok false, w) ->
  Config__getattribute__ "EMAIL_ADMINS" w = (Ok email, w) -> truthy email = true ->
  Config__getattribute__ "LOG" w = (Ok log, w) -> truthy log = true ->
  Config__getattribute__ "SAVE" w = (Ok save, w) -> truthy save = true ->
  Config__getattribute__ "ADDITIONAL_HANDLERS" w = (Ok additional, w) ->
  truthy additional = true ->
  Config__getattribute__ "LOG_LEVEL" w = (Ok (VStr level), w) ->
  level ∈ logger_methods ->
  format_report (Bytes (body request)) = Ok formatted ->
  charset_of request w = (Ok charset, w) ->
  decode (body request) charset = Ok message ->
  from_message message = Ok report ->
  get_additional_handlers w = (Ok hs, w1) ->
  ∃ imports,
    forallb is_import imports = true
    ∧ process_report request w
      = (Ok tt,
         {| settings := settings w;
            _additional_handlers := Some hs;
            effects :=
              effects w
              ++ [MailAdmins (txt "CSP Violation Report")
                    (txt "User agent:" ++ [10] ++ user_agent_of request ++ [10; 10]
                     ++ txt "Report:" ++ [10] ++ formatted);
                  LogCall level (txt "Content Security Policy violation: %s")
                    formatted;
                  SaveReport
                    (<["user_agent"%string := VStr (user_agent_of request)]> report)]
              ++ imports
              ++ map (fun h => HandlerCall h request) hs |}).
Proof.
  intros Hign He Hte Hl Htl Hs Hts Ha Hta Hlev Hin Hfmt Hcs Hdec Hmsg Hg.
  destruct (run_additional_handlers_calls request _ _ _ Hg) as (imports & Hi & Hrun).
  exists imports. split; [done|].
  unfold process_report. run. rewrite Hign. unfold run_sinks. run.
  rewrite He, Hte.
  rewrite (email_admins_sends _ _ _ Hfmt).
  rewrite (config_with_events _ _ _ _ Hl), Htl.
  rewrite (log_report_logs _ _ level formatted)
    by (try apply config_with_events; done).
  rewrite with_events_app.
  rewrite (config_with_events _ _ _ _ Hs), Hts.
  rewrite (save_report_saves _ _ charset message report)
    by (try apply charset_of_with_events; done).
  rewrite with_events_app.
  rewrite (config_with_events _ _ _ _ Ha), Hta.
  by rewrite Hrun.
Qed.

Lemma when_sink (toggle : value) (m : action unit) (evs : list event) (w : world) :
  (truthy toggle = true -> m w = (Ok tt, with_events evs w)) ->
  when (truthy toggle) m w = (Ok tt, with_events (sink_events toggle evs) w).
Proof.
  intros Hm. unfold when, sink_events. destruct (truthy toggle); [by apply Hm|].
  unfold ret. by rewrite with_events_nil.
Qed.

(** The sinks one after the other: each one whose toggle resolves to a true
    value adds its events, as long as none of them raises. *)
Lemma run_sinks_events
      (request : HttpRequest) (w w1 : world)
      (email log save additional charset : value)
      (level formatted message : str)
      (report : gmap string value) (hs : list callable) :
  Config__getattribute__ "EMAIL_ADMINS" w = (Ok email, w) ->
  Config__getattribute__ "LOG" w = (Ok log, w) ->
  Config__getattribute__ "SAVE" w = (Ok save, w) ->
  Config__getattribute__ "ADDITIONAL_HANDLERS" w = (Ok additional, w) ->
  format_report (Bytes (body request)) = Ok formatted ->
  (truthy log = true ->
   Config__getattribute__ "LOG_LEVEL" w = (Ok (VStr level), w)
   ∧ level ∈ logger_methods) ->
  (truthy save = true ->
   charset_of request w = (Ok charset, w)
   ∧ decode (body request) charset = Ok message
   ∧ from_message message = Ok report) ->
  (truthy additional = true -> get_additional_handlers w = (Ok hs, w1)) ->
  ∃ imports,
    forallb is_import imports = true
    ∧ run_sinks request w
      = (Ok tt,
         {| settings := settings w;
            _additional_handlers :=
              if truthy additional then Some hs else _additional_handlers w;
            effects :=
              effects w
              ++ sink_events email
                   [MailAdmins (txt "CSP Violation Report")
                      (txt "User agent:" ++ [10] ++ user_agent_of request ++ [10; 10]
                       ++ txt "Report:" ++ [10] ++ formatted)]
              ++ sink_events log
                   [LogCall level (txt "Content Security Policy violation: %s")
                      formatted]
              ++ sink_events save
                   [SaveReport
                      (<["user_agent"%string := VStr (user_agent_of request)]> report)]
              ++ sink_events additional
                   (imports ++ map (fun h => HandlerCall h request) hs) |}).
Proof.
  intros He Hl Hs Ha Hfmt Hlog Hsave Hadd.
  assert (Hlast : ∃ imports,
    forallb is_import imports = true
    ∧ ∀ evs, when (truthy additional) (run_additional_handlers request)
               (with_events evs w)
             = (Ok tt,
                {| settings := settings w;
                   _additional_handlers :=
                     if truthy additional then Some hs else _additional_handlers w;
                   effects :=
                     effects w ++ evs
                     ++ sink_events additional
                          (imports ++ map (fun h => HandlerCall h request) hs) |})).
  { unfold when, sink_events. destruct (truthy additional) eqn:Hta.
    - destruct (run_additional_handlers_calls request _ _ _ (Hadd eq_refl))
        as (imports & Hi & Hrun).
      exists imports. split; [done|]. intros evs. by rewrite Hrun.
    - exists []. split; [done|]. intros evs. unfold ret, with_events.
      by rewrite app_nil_r. }
  destruct Hlast as (imports & Hi & Hlast). exists imports. split; [done|].
  unfold run_sinks, mbind, action_bind, bind.
  rewrite He. cbv beta iota.
  rewrite (when_sink email _
             [MailAdmins (txt "CSP Violation Report")
                (txt "User agent:" ++ [10] ++ user_agent_of request ++ [10; 10]
                 ++ txt "Report:" ++ [10] ++ formatted)])
    by (intros _; by apply email_admins_sends).
  cbv beta iota. rewrite (config_with_events _ _ _ _ Hl). cbv beta iota.
  rewrite (when_sink log _
             [LogCall level (txt "Content Security Policy violation: %s") formatted])
    by (intros Ht; destruct (Hlog Ht);
        apply log_report_logs; [by apply config_with_events|done|done]).
  cbv beta iota. rewrite with_events_app.
  rewrite (config_with_events _ _ _ _ Hs). cbv beta iota.
  rewrite (when_sink save _
             [SaveReport
                (<["user_agent"%string := VStr (user_agent_of request)]> report)])
    by (intros Ht; destruct (Hsave Ht) as (? & ? & ?);
        apply (save_report_saves _ _ charset message);
        [by apply charset_of_with_events|done|done]).
  cbv beta iota. rewrite with_events_app.
  rewrite (config_with_events _ _ _ _ Ha). cbv beta iota.
  rewrite Hlast. by rewrite <- !app_assoc.
Qed.

(** C10.  The check looks for [source-file] among the members of the decoded
    object itself and for the prefix [moz-extension://] only: on an object
    without that member, whatever its [csp-report] member holds, and on one
    whose [source-file] is text with any other beginning, it answers [False],
    and dispatch goes through the sinks: each sink whose toggle resolves to a
    true value runs, in the order mail, log, save, additional handlers, as
    long as none of them raises, which for the log sink asks for a log level
    that names a logger method, for the save sink for a body that the
    request's charset decodes and the parser accepts, and for the handlers
    that they resolve.  The mail and the log carry the formatted object. *)
Theorem ignore_check_reads_top_level_prefix_only
        (request : HttpRequest) (w w1 : world) (text : str) (d : list (str * value))
        (email log save additional charset : value)
        (level message : str)
        (report : gmap string value) (hs : list callable) :
  utf8_decode (body request) = Some text ->
  loads text = Some (VDict d) ->
  (dict_get (txt "source-file") d = None
   ∨ ∃ s, dict_get (txt "source-file") d = Some (VStr s)
          ∧ startswith s (txt "moz-extension://") = false) ->
  Config__getattribute__ "EMAIL_ADMINS" w = (Ok email, w) ->
  Config__getattribute__ "LOG" w = (Ok log, w) ->
  Config__getattribute__ "SAVE" w = (Ok save, w) ->
  Config__getattribute__ "ADDITIONAL_HANDLERS" w = (Ok additional, w) ->
  (truthy log = true ->
   Config__getattribute__ "LOG_LEVEL" w = (Ok (VStr level), w)
   ∧ level ∈ logger_methods) ->
  (truthy save = true ->
   charset_of request w = (Ok charset, w)
   ∧ decode (body request) charset = Ok message
   ∧ from_message message = Ok report) ->
  (truthy additional = true -> get_additional_handlers w = (Ok hs, w1)) ->
  should_ignore_report request w = (Ok false, w)
  ∧ ∃ imports,
      forallb is_import imports = true
      ∧ process_report request w
        = (Ok tt,
           {| settings := settings w;
              _additional_handlers :=
                if truthy additional then Some hs else _additional_handlers w;
              effects :=
                effects w
                ++ sink_events email
                     [MailAdmins (txt "CSP Violation Report")
                        (txt "User agent:" ++ [10] ++ user_agent_of request
                         ++ [10; 10] ++ txt "Report:" ++ [10] ++ dumps (VDict d))]
                ++ sink_events log
                     [LogCall level (txt "Content Security Policy violation: %s")
                        (dumps (VDict d))]
                ++ sink_events save
                     [SaveReport
                        (<["user_agent"%string := VStr (user_agent_of request)]>
                           report)]
                ++ sink_events additional
                     (imports ++ map (fun h => HandlerCall h request) hs) |}).
Proof.
  intros Hdec Hloads Hsrc He Hl Hs Ha Hlog Hsave Hadd.
  destruct (ignore_flag_resolves w) as [flag Hc].
  assert (Hign : should_ignore_report request w = (Ok false, w)).
  { rewrite (should_ignore_report_unfold _ _ _ Hc), Hdec, Hloads. simpl.
    destruct (negb (truthy flag)); [done|].
    destruct Hsrc as [Hnone | (s & Hsome & Hpre)].
    - by rewrite Hnone.
    - by rewrite Hsome; simpl; rewrite Hpre. }
  split; [done|].
  assert (Hfmt : format_report (Bytes (body request)) = Ok (dumps (VDict d))).
  { unfold format_report. by rewrite Hdec, Hloads. }
  destruct (run_sinks_events request w w1 email log save additional charset
              level (dumps (VDict d)) message report hs
              He Hl Hs Ha Hfmt Hlog Hsave Hadd) as (imports & Hi & Hrun).
  exists imports. split; [done|].
  unfold process_report, mbind, action_bind, bind. by rewrite Hign.
Qed.

(** ** The parser *)

(** C2 (what the code does on JSON that is no object, or whose [csp-report]
    member is no object): [from_message] raises [TypeError], respectively
    [AttributeError], to its caller. *)
Theorem from_message_raises_on_non_object :
  from_message (txt "[]") = Raise TypeError
  ∧ from_message (quoted "{'csp-report': 5}") = Raise AttributeError.
Proof. split; vm_compute; reflexivity. Qed.

Lemma to_python_kind_ok (k : field_kind) (x x' : value) :
  to_python k x = Ok x' -> kind_ok k x'.
Proof.
  destruct k; simpl.
  - destruct x; intros [= <-]; eauto.
  - destruct x; intros [= <-]; eauto.
  - destruct x; try done; try (intros [= <-]; by eauto).
    + destruct (_ || _)%bool; intros [= <-]; eauto.
    + destruct (_ || _)%bool; intros [= <-]; eauto.
    + repeat case_bool_decide; intros [= <-]; eauto.
  - destruct x; try (intros [= <-]; by eauto);
      destruct (py_int _) as [z|[]]; intros [= <-]; eauto.
Qed.

Lemma to_python_stable (k : field_kind) (x : value) :
  kind_ok k x -> to_python k x = Ok x.
Proof.
  destruct k; simpl.
  - by intros [-> | [s ->]].
  - by intros [-> | [s ->]].
  - by intros [t ->].
  - by intros [-> | [z ->]].
Qed.

Lemma clean_fields_stable (fs : list field) (self : gmap string value)
      (errors : list string) :
  (∀ f, f ∈ fs -> ∃ x, self !! name f = Some x ∧ kind_ok (kind f) x) ->
  clean_fields fs self errors
  = Ok (self,
        errors ++ map name
                    (List.filter (fun f => negb (field_ok f (getattr self (name f)))) fs)).
Proof.
  revert errors. induction fs as [|f fs IH]; intros errors Hty; simpl.
  - by rewrite app_nil_r.
  - destruct (Hty f) as (x & Hx & Hk); [by left|].
    assert (Hfs : ∀ f', f' ∈ fs -> ∃ x', self !! name f' = Some x' ∧ kind_ok (kind f') x')
      by (intros f' Hf'; apply Hty; by right).
    assert (Hg : getattr self (name f) = x) by (unfold getattr; by rewrite Hx).
    rewrite !Hg. unfold field_ok at 1.
    destruct (blank f && in_empty_values x) eqn:Hskip; simpl.
    + by apply IH.
    + unfold clean. rewrite (to_python_stable _ _ Hk).
      destruct (validate f x && run_validators f x) eqn:Hv; simpl.
      * rewrite insert_id by done. by apply IH.
      * rewrite IH by done. by rewrite <- app_assoc.
Qed.

Lemma require_fields_ok (names : list string) (self : gmap string value) :
  require_fields names self = Ok tt
  ↔ Forall (fun n => getattr self n ≠ VNone) (map (replace_char "-" "_") names).
Proof.
  induction names as [|n names IH]; simpl.
  - split; [constructor | done].
  - destruct (getattr self (replace_char "-" "_" n)) eqn:Hn;
      rewrite Forall_cons, Hn;
      try (rewrite IH; by intuition congruence).
    split; [done | intros [Hne _]; by destruct Hne].
Qed.

Lemma require_fields_raises (names : list string) (self : gmap string value) (e : exn) :
  require_fields names self = Raise e -> e = ValidationError.
Proof.
  induction names as [|n names IH]; simpl; [done|].
  destruct (getattr self _); try done; by intros [= <-].
Qed.

Lemma get_field_spec (n : string) (f : field) :
  get_field n = Some f -> f ∈ CSPReport_fields ∧ name f = n.
Proof.
  unfold get_field. intros Hf. apply find_some in Hf as [Hin Hb].
  split; [by apply list_elem_of_In | by apply bool_decide_eq_true_1 in Hb].
Qed.

Lemma nodup_map_inj {A B} (g : A -> B) (l : list A) (x y : A) :
  NoDup (map g l) -> x ∈ l -> y ∈ l -> g x = g y -> x = y.
Proof.
  induction l as [|a l IH]; simpl; intros Hnd Hx Hy Hg.
  - by apply elem_of_nil in Hx.
  - apply NoDup_cons in Hnd as [Ha Hnd].
    apply elem_of_cons in Hx as [->|Hx]; apply elem_of_cons in Hy as [->|Hy].
    + done.
    + exfalso. apply Ha. rewrite Hg. by apply (list_elem_of_fmap_2 g).
    + exfalso. apply Ha. rewrite <- Hg. by apply (list_elem_of_fmap_2 g).
    + by apply IH.
Qed.

Lemma field_names_nodup : NoDup (map name CSPReport_fields).
Proof. apply (bool_decide_unpack _). by vm_compute. Qed.

Lemma well_typed_insert (self : gmap string value) (f : field) (x : value) :
  f ∈ CSPReport_fields -> kind_ok (kind f) x -> well_typed self ->
  well_typed (<[name f := x]> self).
Proof.
  intros Hf Hk Hty f' Hf'.
  destruct (decide (name f = name f')) as [Heq|Hne].
  - assert (f = f') as <- by (by eapply (nodup_map_inj name), Heq; [apply field_names_nodup|..]).
    exists x. by rewrite lookup_insert_eq.
  - rewrite lookup_insert_ne by done. by apply Hty.
Qed.

Lemma populate_spec (names : list string) (rd : value)
      (self self1 : gmap string value) :
  populate names rd self = Ok self1 ->
  well_typed self ->
  well_typed self1
  ∧ ∀ k, k ∉ map (replace_char "-" "_") names -> self1 !! k = self !! k.
Proof.
  revert self. induction names as [|n names IH]; simpl; intros self Hp Hty.
  - injection Hp as <-. done.
  - destruct (get_field _) as [f|] eqn:Hf; [|done].
    apply get_field_spec in Hf as [Hin Hname].
    destruct (get_method rd _ _) as [x|]; [|done].
    destruct (to_python (kind f) x) as [x'|e] eqn:Hconv.
    + apply to_python_kind_ok in Hconv.
      apply IH in Hp as [Hty1 Hother].
      * split; [done|]. intros k Hk. apply not_elem_of_cons in Hk as [Hk1 Hk2].
        rewrite Hother by done. by rewrite lookup_insert_ne.
      * rewrite <- Hname. by apply well_typed_insert.
    + destruct e; try done.
      apply IH in Hp as [Hty1 Hother]; [|done].
      split; [done|]. intros k Hk. apply not_elem_of_cons in Hk as [Hk1 Hk2].
      by apply Hother.
Qed.

Lemma populate_failed_conversion (names : list string) (rd : value)
      (self self1 : gmap string value) (n : string) (f : field) (x : value) :
  populate names rd self = Ok self1 ->
  well_typed self ->
  NoDup (map (replace_char "-" "_") names) ->
  n ∈ names ->
  get_field (replace_char "-" "_" n) = Some f ->
  get_method rd (txt n) VNone = Ok x ->
  to_python (kind f) x = Raise ValidationError ->
  self1 !! replace_char "-" "_" n = self !! replace_char "-" "_" n.
Proof.
  revert self. induction names as [|n0 names IH]; simpl;
    intros self Hp Hty Hnd Hn Hf Hget Hconv.
  - by apply elem_of_nil in Hn.
  - apply NoDup_cons in Hnd as [Hfresh Hnd].
    apply elem_of_cons in Hn as [<-|Hn].
    + rewrite Hf, Hget, Hconv in Hp.
      apply populate_spec in Hp as [_ Hother]; [|done]. by apply Hother.
    + destruct (get_field (replace_char "-" "_" n0)) as [f0|] eqn:Hf0; [|done].
      pose proof (get_field_spec _ _ Hf0) as [Hin0 Hname0].
      destruct (get_method rd (txt n0) VNone) as [x0|]; [|done].
      assert (Hne : replace_char "-" "_" n0 ≠ replace_char "-" "_" n).
      { intros Heq. apply Hfresh. rewrite Heq.
        by apply (list_elem_of_fmap_2 (replace_char "-" "_")). }
      destruct (to_python (kind f0) x0) as [x0'|e] eqn:Hconv0.
      * apply to_python_kind_ok in Hconv0.
        rewrite (IH _ Hp); try done.
        -- by rewrite lookup_insert_ne.
        -- rewrite <- Hname0. by apply well_typed_insert.
      * destruct e; try done. by apply (IH _ Hp).
Qed.

Lemma field_ok_nullable_text (n : string) (x : value) :
  kind_ok TextField x -> field_ok (nullable_text n) x = true.
Proof.
  intros [-> | [s ->]]; [done|].
  unfold field_ok, validate, run_validators, validators. simpl.
  by rewrite !orb_true_r.
Qed.

Lemma field_ok_counter (n : string) (t : integer_field) (x : value) :
  kind_ok (IntegerField t) x ->
  field_ok (counter n t) x = true ↔ count_ok t x.
Proof.
  intros [-> | [z ->]].
  - split; [by left | done].
  - unfold field_ok, validate, run_validators, validators, count_ok, within. simpl.
    destruct (integer_field_range t) as [[lo|] [hi|]]; simpl;
      rewrite ?andb_true_r, ?andb_true_iff, ?Z.leb_le;
      (split; [intros Hz; right; exists z; by intuition
              | intros [? | (z' & [= <-] & Hz)]; [done | by intuition]]).
Qed.

Lemma field_ok_disposition (x : value) :
  kind_ok (CharField 10) x ->
  field_ok disposition_field x = true ↔ disposition_ok x.
Proof.
  intros [-> | [s ->]].
  - split; [by left | done].
  - unfold field_ok, validate, run_validators, validators, disposition_ok. simpl.
    destruct s as [|c s]; [by intuition|]. simpl.
    rewrite !andb_true_r. split.
    + intros [Hin _]%andb_true_iff. apply bool_decide_eq_true_1 in Hin.
      apply elem_of_cons in Hin as [->|Hin]; [by auto|].
      apply elem_of_cons in Hin as [->|Hin]; [by auto|].
      by apply elem_of_nil in Hin.
    + intros [?|[?|[[= -> ->]|[= -> ->]]]]; try done.
Qed.

Lemma filter_negb_nil {A} (p : A -> bool) (l : list A) :
  List.filter (fun x => negb (p x)) l = [] ↔ forallb p l = true.
Proof.
  induction l as [|a l IH]; simpl; [done|].
  destruct (p a); simpl; [done|]. split; done.
Qed.

Lemma full_clean_spec (self : gmap string value) :
  well_typed self ->
  full_clean self
  = (self,
     if forallb (fun f => field_ok f (getattr self (name f))) CSPReport_fields
     then require_fields REQUIRED_FIELDS self
     else Raise ValidationError).
Proof.
  intros Hty. unfold full_clean, Model_full_clean.
  rewrite (clean_fields_stable _ _ _ Hty), app_nil_l.
  pose proof (filter_negb_nil (fun f => field_ok f (getattr self (name f)))
                CSPReport_fields) as Hnil.
  remember CSPReport_fields as fs eqn:Hfs.
  destruct (List.filter _ fs) as [|bad rest].
  - by rewrite (proj1 Hnil eq_refl).
  - simpl. destruct (forallb _ fs); [|done].
    discriminate (proj2 Hnil eq_refl).
Qed.

Lemma new_report_lookup (message : str) (k : string) :
  k ≠ "json"%string ->
  new_report message !! k
  = (list_to_map
       (("user_agent", VStr []) :: ("is_valid", VBool false)
        :: map (fun n => (replace_char "-" "_" n, VNone))
             (REQUIRED_FIELDS ++ OPTIONAL_FIELDS))%string
     : gmap string value) !! k.
Proof. intros Hk. unfold new_report. by rewrite lookup_insert_ne. Qed.

Lemma new_report_json (message : str) :
  new_report message !! "json"%string = Some (VStr message).
Proof. unfold new_report. by rewrite lookup_insert_eq. Qed.

Lemma new_report_well_typed (message : str) : well_typed (new_report message).
Proof.
  intros f Hf. unfold CSPReport_fields in Hf.
  repeat (apply elem_of_cons in Hf as [->|Hf]);
    try (by apply elem_of_nil in Hf);
    try (rewrite new_report_lookup by done; eexists; split;
         [vm_compute; reflexivity | simpl; by eauto]).
  rewrite new_report_json. eexists. split; [done | simpl; by eauto].
Qed.

Lemma typed_at (self : gmap string value) (f : field) :
  well_typed self -> f ∈ CSPReport_fields -> kind_ok (kind f) (getattr self (name f)).
Proof.
  intros Hty Hf. destruct (Hty f Hf) as (x & Hx & Hk).
  unfold getattr. by rewrite Hx.
Qed.

Lemma all_fields_ok_spec (self : gmap string value) (message : str) :
  well_typed self ->
  self !! "json"%string = Some (VStr message) ->
  message ≠ [] ->
  self !! "user_agent"%string = Some (VStr []) ->
  self !! "is_valid"%string = Some (VBool false) ->
  forallb (fun f => field_ok f (getattr self (name f))) CSPReport_fields = true
  ↔ optional_valid self.
Proof.
  intros Hty Hjson Hmsg Hua Hvalid.
  unfold CSPReport_fields. cbn [forallb].
  rewrite !(field_ok_nullable_text _ _)
    by (apply (typed_at self (nullable_text _) Hty);
        unfold CSPReport_fields; repeat constructor).
  cbn [name]. unfold getattr at 1 2 3. rewrite Hjson, Hua, Hvalid.
  cbn [default from_option id name counter disposition_field].
  replace (field_ok _ (VStr [])) with true by done.
  replace (field_ok _ (VStr message)) with true
    by (destruct message; [done | unfold field_ok; simpl; by rewrite ?orb_true_r]).
  replace (field_ok _ (VBool false)) with true by done.
  cbn [andb]. rewrite !andb_true_r, !andb_true_iff.
  rewrite !field_ok_counter
    by (apply (typed_at self (counter _ _) Hty);
        unfold CSPReport_fields; repeat constructor).
  rewrite field_ok_disposition
    by (apply (typed_at self disposition_field Hty);
        unfold CSPReport_fields; repeat constructor).
  unfold optional_valid. tauto.
Qed.

Lemma getattr_insert_ne (self : gmap string value) (k k' : string) (x : value) :
  k ≠ k' -> getattr (<[k := x]> self) k' = getattr self k'.
Proof. intros Hne. unfold getattr. by rewrite lookup_insert_ne. Qed.

Lemma getattr_insert_eq (self : gmap string value) (k : string) (x : value) :
  getattr (<[k := x]> self) k = x.
Proof. unfold getattr. by rewrite lookup_insert_eq. Qed.

Lemma required_present_insert (self : gmap string value) (x : value) :
  required_present (<["is_valid"%string := x]> self) ↔ required_present self.
Proof.
  unfold required_present, required_attributes, REQUIRED_FIELDS. simpl.
  rewrite !Forall_cons, !Forall_nil. by rewrite !getattr_insert_ne.
Qed.

Lemma optional_valid_insert (self : gmap string value) (x : value) :
  optional_valid (<["is_valid"%string := x]> self) ↔ optional_valid self.
Proof. unfold optional_valid. by rewrite !getattr_insert_ne. Qed.

Lemma new_report_invalid (message : str) :
  getattr (new_report message) "is_valid" = VBool false
  ∧ ¬ required_present (new_report message).
Proof.
  split.
  - unfold getattr. rewrite new_report_lookup by done. by vm_compute.
  - unfold required_present, required_attributes, REQUIRED_FIELDS. simpl.
    rewrite Forall_cons. intros [Hne _]. apply Hne.
    unfold getattr. rewrite new_report_lookup by done. by vm_compute.
Qed.

Lemma loads_nonempty (message : str) (o : value) :
  loads message = Some o -> message ≠ [].
Proof. intros Hl ->. by vm_compute in Hl. Qed.

Lemma optional_names_nodup :
  NoDup (map (replace_char "-" "_") (REQUIRED_FIELDS ++ OPTIONAL_FIELDS)).
Proof. apply (bool_decide_unpack _). by vm_compute. Qed.

(** C1, as the code has it.  For every message the parser returns a record
    for, [is_valid] is true exactly when the five required fields are not
    null and the values of the optional fields pass the validation of the
    model: the disposition is null, empty, [enforce] or [report], and each of
    the three numbers is null or within zero and the bound of the database.
    An optional field whose conversion fails stays null, and null passes, so
    a failed conversion by itself never makes the record invalid. *)
Theorem from_message_validity (message : str) (r : gmap string value) :
  from_message message = Ok r ->
  (getattr r "is_valid" = VBool true ↔ required_present r ∧ optional_valid r)
  ∧ (∀ decoded report_data n f x,
       loads message = Some decoded ->
       getitem decoded (txt "csp-report") = Ok report_data ->
       n ∈ OPTIONAL_FIELDS ->
       get_field (replace_char "-" "_" n) = Some f ->
       get_method report_data (txt n) VNone = Ok x ->
       to_python (kind f) x = Raise ValidationError ->
       getattr r (replace_char "-" "_" n) = VNone).
Proof.
  intros Hfm. unfold from_message in Hfm.
  assert (Hearly : r = new_report message ->
            getattr r "is_valid" = VBool true ↔ required_present r ∧ optional_valid r).
  { intros ->. destruct (new_report_invalid message) as [Hv Hr]. rewrite Hv.
    split; [done | by intros [? _]]. }
  destruct (loads message) as [decoded|] eqn:Hl.
  2:{ injection Hfm as <-. split; [by apply Hearly | done]. }
  destruct (getitem decoded (txt "csp-report")) as [rd|e] eqn:Hitem.
  2:{ destruct e; try done. injection Hfm as <-.
      split; [by apply Hearly | intros ? ? ? ? ? [= <-] ?; congruence]. }
  destruct (populate _ rd (new_report message)) as [self1|] eqn:Hpop; [|done].
  pose proof (populate_spec _ _ _ _ Hpop (new_report_well_typed message))
    as [Hty Hother].
  assert (Hjson : self1 !! "json"%string = Some (VStr message)).
  { rewrite Hother by (apply (bool_decide_unpack _); by vm_compute). apply new_report_json. }
  assert (Hua : self1 !! "user_agent"%string = Some (VStr [])).
  { rewrite Hother by (apply (bool_decide_unpack _); by vm_compute).
    rewrite new_report_lookup by done. by vm_compute. }
  assert (Hvalid : self1 !! "is_valid"%string = Some (VBool false)).
  { rewrite Hother by (apply (bool_decide_unpack _); by vm_compute).
    rewrite new_report_lookup by done. by vm_compute. }
  pose proof (all_fields_ok_spec self1 message Hty Hjson
                (loads_nonempty _ _ Hl) Hua Hvalid) as Hall.
  pose proof (require_fields_ok REQUIRED_FIELDS self1) as Hreq.
  rewrite (full_clean_spec _ Hty) in Hfm.
  assert (Hr : ∃ t, r = <["is_valid"%string := VBool t]> self1
                 ∧ (t = true ↔ required_present self1 ∧ optional_valid self1)).
  { destruct (forallb _ CSPReport_fields).
    - destruct (require_fields REQUIRED_FIELDS self1) as [[]|e] eqn:Hrf.
      + injection Hfm as <-. exists true. split; [done|].
        split; [|done]. intros _. split; [by apply Hreq | by apply Hall].
      + rewrite (require_fields_raises _ _ _ Hrf) in Hfm. injection Hfm as <-.
        exists false. split; [done|]. split; [done|].
        intros [Hp _]. apply Hreq in Hp. congruence.
    - injection Hfm as <-. exists false. split; [done|]. split; [done|].
      intros [_ Ho]. apply Hall in Ho. congruence. }
  destruct Hr as (t & -> & Ht). split.
  - rewrite getattr_insert_eq, required_present_insert, optional_valid_insert.
    rewrite <- Ht. split; [by intros [= ->] | by intros ->].
  - intros decoded' rd' n f x [= <-] Hitem' Hn Hf Hget Hconv.
    rewrite Hitem in Hitem'. injection Hitem' as <-.
    assert (Hne : "is_valid"%string ≠ replace_char "-" "_" n).
    { unfold OPTIONAL_FIELDS in Hn.
      repeat (apply elem_of_cons in Hn as [->|Hn]); try done.
      by apply elem_of_nil in Hn. }
    rewrite getattr_insert_ne by done. unfold getattr.
    rewrite (populate_failed_conversion _ _ _ _ n f x Hpop); try done.
    + rewrite new_report_lookup.
      * unfold OPTIONAL_FIELDS in Hn.
        repeat (apply elem_of_cons in Hn as [->|Hn]); try (by vm_compute).
        by apply elem_of_nil in Hn.
      * unfold OPTIONAL_FIELDS in Hn.
        repeat (apply elem_of_cons in Hn as [->|Hn]); try done.
        by apply elem_of_nil in Hn.
    + apply new_report_well_typed.
    + apply optional_names_nodup.
    + apply elem_of_app. by right.
Qed.

(** ** More on the parser *)

Lemma populate_converted (names : list string) (rd : value)
      (self self1 : gmap string value) (n : string) (f : field) (x x' : value) :
  populate names rd self = Ok self1 ->
  NoDup (map (replace_char "-" "_") names) ->
  n ∈ names ->
  get_field (replace_char "-" "_" n) = Some f ->
  get_method rd (txt n) VNone = Ok x ->
  to_python (kind f) x = Ok x' ->
  self1 !! replace_char "-" "_" n = Some x'.
Proof.
  revert self. induction names as [|n0 names IH]; simpl;
    intros self Hp Hnd Hn Hf Hget Hconv.
  - by apply elem_of_nil in Hn.
  - apply NoDup_cons in Hnd as [Hfresh Hnd].
    destruct (decide (n0 = n)) as [->|Hn0].
    + rewrite Hf, Hget, Hconv in Hp.
      pose proof (get_field_spec _ _ Hf) as [Hin Hname].
      destruct (populate names rd _) as [s1|] eqn:Hrest; [|done].
      injection Hp as ->.
      assert (Hgen : ∀ names self self1 k,
                 populate names rd self = Ok self1 ->
                 k ∉ map (replace_char "-" "_") names -> self1 !! k = self !! k).
      { clear. intros names. induction names as [|a names IH]; simpl; intros self self1 k Hp Hk.
        - by injection Hp as <-.
        - apply not_elem_of_cons in Hk as [Hk1 Hk2].
          destruct (get_field _) as [f|]; [|done].
          destruct (get_method rd _ _) as [x|]; [|done].
          destruct (to_python (kind f) x) as [x'|[]]; try done.
          + rewrite (IH _ _ _ Hp Hk2). by rewrite lookup_insert_ne.
          + by apply (IH _ _ _ Hp Hk2). }
      rewrite (Hgen _ _ _ _ Hrest Hfresh). by rewrite lookup_insert_eq.
    + apply elem_of_cons in Hn as [->|Hn]; [done|].
      destruct (get_field (replace_char "-" "_" n0)) as [f0|]; [|done].
      destruct (get_method rd (txt n0) VNone) as [x0|]; [|done].
      destruct (to_python (kind f0) x0) as [x0'|[]]; try done;
        by apply (IH _ Hp).
Qed.

Lemma all_names_have_fields (n : string) :
  n ∈ REQUIRED_FIELDS ++ OPTIONAL_FIELDS ->
  ∃ f, get_field (replace_char "-" "_" n) = Some f
       ∧ ((n ∈ number_fields
           ∧ ∃ t, kind f = IntegerField t)
          ∨ ((n ∉ number_fields)
             ∧ (kind f = TextField ∨ kind f = CharField 10))).
Proof.
  unfold REQUIRED_FIELDS, OPTIONAL_FIELDS. simpl. intros Hn.
  repeat (apply elem_of_cons in Hn as [->|Hn]);
    try (by apply elem_of_nil in Hn);
    (eexists; split; [reflexivity|]);
    first [ left; split; [apply (bool_decide_unpack _); reflexivity | by eexists]
          | right; split; [apply (bool_decide_unpack _); reflexivity | by auto] ].
Qed.

Lemma to_python_raises (k : field_kind) (x : value) (e : exn) :
  to_python k x = Raise e ->
  e = ValidationError
  ∨ (e = OverflowError
     ∧ (∃ t, k = IntegerField t)
     ∧ ∃ y, x = VFloat y
            ∧ (float_classify y = FPosInf ∨ float_classify y = FNegInf)).
Proof.
  destruct k as [|n| |t]; simpl.
  - by destruct x.
  - by destruct x.
  - destruct x; try (intros [= <-]; by left); try done.
    + destruct (_ || _)%bool; [done | intros [= <-]; by left].
    + destruct (_ || _)%bool; [done | intros [= <-]; by left].
    + repeat case_bool_decide; try done. intros [= <-]. by left.
  - destruct x as [|b|z|y|s|l|d]; simpl; try done; try (intros [= <-]; by left).
    + destruct (float_classify y) eqn:Hc; try done; intros [= <-];
        first [by left | right; split; [done|]; split; [by eexists|]; eexists; by eauto].
    + destruct (int_of_str s); [done|]. intros [= <-]. by left.
Qed.

Lemma to_python_overflow (t : integer_field) (y : float) :
  float_classify y = FPosInf ∨ float_classify y = FNegInf ->
  to_python (IntegerField t) (VFloat y) = Raise OverflowError.
Proof. simpl. by intros [-> | ->]. Qed.

(** The loop over the names on a report that is an object: it raises exactly
    when a member fails to convert with something else than
    [ValidationError]. *)
Lemma populate_dict_outcome (names : list string) (m : list (str * value))
      (self : gmap string value) :
  (∀ n, n ∈ names -> is_Some (get_field (replace_char "-" "_" n))) ->
  (∃ self1, populate names (VDict m) self = Ok self1
            ∧ ∀ n f e, n ∈ names ->
                get_field (replace_char "-" "_" n) = Some f ->
                to_python (kind f) (default VNone (dict_get (txt n) m)) = Raise e ->
                e = ValidationError)
  ∨ (∃ n f e, populate names (VDict m) self = Raise e
              ∧ n ∈ names
              ∧ get_field (replace_char "-" "_" n) = Some f
              ∧ to_python (kind f) (default VNone (dict_get (txt n) m)) = Raise e
              ∧ e ≠ ValidationError).
Proof.
  revert self. induction names as [|n names IH]; intros self Hfields; simpl.
  - left. eexists. split; [done|]. intros n f e Hn. by apply elem_of_nil in Hn.
  - destruct (Hfields n) as [f Hf]; [by left|]. rewrite Hf.
    assert (Hrest : ∀ n', n' ∈ names -> is_Some (get_field (replace_char "-" "_" n')))
      by (intros n' Hn'; apply Hfields; by right).
    destruct (to_python (kind f) (default VNone (dict_get (txt n) m)))
      as [x'|e] eqn:Hconv.
    + destruct (IH (<[replace_char "-" "_" n := x']> self) Hrest)
        as [(self1 & Hp & Hall) | (n' & f' & e' & Hp & Hn' & Hf' & Hc' & He')].
      * left. exists self1. split; [done|]. intros n0 f0 e0 Hn0 Hf0 Hc0.
        apply elem_of_cons in Hn0 as [->|Hn0]; [|by eapply Hall].
        rewrite Hf in Hf0. injection Hf0 as <-. congruence.
      * right. exists n', f', e'. repeat split; try done. by right.
    + destruct (decide (e = ValidationError)) as [->|Hne].
      * destruct (IH self Hrest)
          as [(self1 & Hp & Hall) | (n' & f' & e' & Hp & Hn' & Hf' & Hc' & He')].
        -- left. exists self1. split; [done|]. intros n0 f0 e0 Hn0 Hf0 Hc0.
           apply elem_of_cons in Hn0 as [->|Hn0]; [|by eapply Hall].
           rewrite Hf in Hf0. injection Hf0 as <-. congruence.
        -- right. exists n', f', e'. repeat split; try done. by right.
      * right. exists n, f, e. repeat split; try done; [|by left].
        by destruct e.
Qed.

(** What [from_message] does once the loop over the names has run. *)
Lemma from_message_after_populate (message : str) (decoded rd : value)
      (self1 : gmap string value) :
  loads message = Some decoded ->
  populate (REQUIRED_FIELDS ++ OPTIONAL_FIELDS) rd (new_report message) = Ok self1 ->
  self1 !! "json"%string = Some (VStr message)
  ∧ self1 !! "user_agent"%string = Some (VStr [])
  ∧ ∃ t, (t = true ↔ required_present self1 ∧ optional_valid self1)
         ∧ full_clean self1 = (self1, if t then Ok tt else Raise ValidationError).
Proof.
  intros Hl Hpop.
  pose proof (populate_spec _ _ _ _ Hpop (new_report_well_typed message))
    as [Hty Hother].
  assert (Hjson : self1 !! "json"%string = Some (VStr message)).
  { rewrite Hother by (apply (bool_decide_unpack _); by vm_compute).
    apply new_report_json. }
  assert (Hua : self1 !! "user_agent"%string = Some (VStr [])).
  { rewrite Hother by (apply (bool_decide_unpack _); by vm_compute).
    rewrite new_report_lookup by done. by vm_compute. }
  assert (Hvalid : self1 !! "is_valid"%string = Some (VBool false)).
  { rewrite Hother by (apply (bool_decide_unpack _); by vm_compute).
    rewrite new_report_lookup by done. by vm_compute. }
  split; [done|]. split; [done|].
  pose proof (all_fields_ok_spec self1 message Hty Hjson
                (loads_nonempty _ _ Hl) Hua Hvalid) as Hall.
  pose proof (require_fields_ok REQUIRED_FIELDS self1) as Hreq.
  rewrite (full_clean_spec _ Hty).
  destruct (forallb _ CSPReport_fields).
  - destruct (require_fields REQUIRED_FIELDS self1) as [[]|e] eqn:Hrf.
    + exists true. split; [|done]. split; [|done].
      intros _. split; [by apply Hreq | by apply Hall].
    + rewrite (require_fields_raises _ _ _ Hrf). exists false. split; [|done].
      split; [done|]. intros [Hp _]. apply Hreq in Hp. congruence.
  - exists false. split; [|done]. split; [done|].
    intros [_ Ho]. apply Hall in Ho. congruence.
Qed.

Lemma populate_non_dict (rd : value) (self : gmap string value) :
  (∀ m, rd ≠ VDict m) ->
  populate (REQUIRED_FIELDS ++ OPTIONAL_FIELDS) rd self = Raise AttributeError.
Proof.
  intros Hrd. unfold REQUIRED_FIELDS. cbn [app populate].
  replace (get_field (replace_char "-" "_" "document-uri"))
    with (Some (nullable_text "document_uri")) by reflexivity.
  unfold get_method. destruct rd; try done. by destruct (Hrd d).
Qed.

Lemma names_have_fields (n : string) :
  n ∈ REQUIRED_FIELDS ++ OPTIONAL_FIELDS ->
  is_Some (get_field (replace_char "-" "_" n)).
Proof.
  intros Hn. destruct (all_names_have_fields n Hn) as (f & Hf & _). by exists f.
Qed.

(** The parser raises exactly on JSON that is no object, on a [csp-report]
    member that is no object, and on an infinite float in one of the three
    numbers; it raises [TypeError], [AttributeError] and [OverflowError]
    there, and returns a record on every other message. *)
Theorem from_message_raises_exactly (message : str) (e : exn) :
  from_message message = Raise e
  ↔ ∃ decoded,
      loads message = Some decoded
      ∧ (((∀ d, decoded ≠ VDict d) ∧ e = TypeError)
         ∨ ∃ d report_data,
             decoded = VDict d
             ∧ dict_get (txt "csp-report") d = Some report_data
             ∧ (((∀ m, report_data ≠ VDict m) ∧ e = AttributeError)
                ∨ ∃ m n x,
                    report_data = VDict m
                    ∧ n ∈ number_fields
                    ∧ dict_get (txt n) m = Some x
                    ∧ infinite x
                    ∧ e = OverflowError)).
Proof.
  unfold from_message. split.
  - destruct (loads message) as [decoded|] eqn:Hl; [|done].
    intros Hfm. exists decoded. split; [done|].
    destruct decoded as [| | | | | |d];
      try (left; split; [done | unfold getitem in Hfm; congruence]).
    right. unfold getitem in Hfm.
    destruct (dict_get (txt "csp-report") d) as [rd|] eqn:Hrd; [|done].
    exists d, rd. split; [done|]. split; [done|].
    destruct (populate _ rd (new_report message)) as [self1|e'] eqn:Hpop.
    + destruct (from_message_after_populate _ _ _ _ Hl Hpop)
        as (_ & _ & t & _ & Hfc).
      rewrite Hfc in Hfm. by destruct t.
    + injection Hfm as ->.
      destruct rd as [| | | | | |m];
        try (left; split; [done | rewrite populate_non_dict in Hpop by done; congruence]).
      right.
      destruct (populate_dict_outcome _ m (new_report message) names_have_fields)
        as [(self1 & Hp & _) | (n & f & e' & Hp & Hn & Hf & Hc & He)];
        [congruence|].
      rewrite Hpop in Hp. injection Hp as <-.
      destruct (to_python_raises _ _ _ Hc) as [?|(-> & [t Hk] & y & Hy & Hinf)];
        [done|].
      exists m, n, (VFloat y). split; [done|].
      destruct (all_names_have_fields n Hn) as (f' & Hf' & Hkind).
      rewrite Hf in Hf'. injection Hf' as <-.
      destruct Hkind as [[Hnum _] | [_ [Hk' | Hk']]]; [|congruence..].
      split; [done|]. split; [|split; [by exists y | done]].
      destruct (dict_get (txt n) m); [simpl in Hy; by subst | done].
  - intros (decoded & -> & [[Hnd ->] | (d & rd & -> & Hrd & Hcase)]).
    + unfold getitem. destruct decoded; try done. by destruct (Hnd d).
    + unfold getitem. rewrite Hrd.
      destruct Hcase as [[Hnd ->] | (m & n & x & -> & Hn & Hx & (y & -> & Hinf) & ->)].
      * by rewrite populate_non_dict.
      * destruct (populate_dict_outcome _ m (new_report message) names_have_fields)
          as [(self1 & Hp & Hall) | (n' & f & e' & Hp & Hn' & Hf & Hc & He)].
        -- exfalso.
           assert (Hn' : n ∈ REQUIRED_FIELDS ++ OPTIONAL_FIELDS).
           { unfold number_fields in Hn.
             repeat (apply elem_of_cons in Hn as [->|Hn]);
               try (by apply elem_of_nil in Hn);
               apply (bool_decide_unpack _); reflexivity. }
           destruct (all_names_have_fields n Hn') as (f & Hf & Hkind).
           destruct Hkind as [[_ [t Hk]] | [Hnot _]]; [|done].
           specialize (Hall n f OverflowError Hn' Hf).
           rewrite Hx, Hk in Hall. simpl default in Hall.
           by specialize (Hall (to_python_overflow t y Hinf)).
        -- rewrite Hp.
           destruct (to_python_raises _ _ _ Hc) as [?|(-> & _)]; done.
Qed.

Lemma from_message_returns (message : str) (r : gmap string value) :
  from_message message = Ok r ->
  (r = new_report message
   ∧ (loads message = None
      ∨ ∃ d, loads message = Some (VDict d) ∧ dict_get (txt "csp-report") d = None))
  ∨ ∃ d rd self1 t,
      loads message = Some (VDict d)
      ∧ dict_get (txt "csp-report") d = Some rd
      ∧ populate (REQUIRED_FIELDS ++ OPTIONAL_FIELDS) rd (new_report message) = Ok self1
      ∧ r = <["is_valid"%string := VBool t]> self1
      ∧ (t = true ↔ required_present self1 ∧ optional_valid self1)
      ∧ self1 !! "json"%string = Some (VStr message)
      ∧ self1 !! "user_agent"%string = Some (VStr []).
Proof.
  unfold from_message. destruct (loads message) as [decoded|] eqn:Hl.
  2:{ intros [= <-]. left. by auto. }
  unfold getitem. destruct decoded as [| | | | | |d]; try done.
  destruct (dict_get (txt "csp-report") d) as [rd|] eqn:Hrd.
  2:{ intros [= <-]. left. split; [done|]. right. by exists d. }
  destruct (populate _ rd (new_report message)) as [self1|] eqn:Hpop; [|done].
  destruct (from_message_after_populate _ _ _ _ Hl Hpop)
    as (Hjson & Hua & t & Ht & Hfc).
  rewrite Hfc. intros Hr. right. exists d, rd, self1, t.
  repeat split; try done; try (by apply Ht); by destruct t; injection Hr as <-.
Qed.

Lemma attribute_is_not_is_valid (n : string) :
  n ∈ REQUIRED_FIELDS ++ OPTIONAL_FIELDS ->
  "is_valid"%string ≠ replace_char "-" "_" n.
Proof.
  unfold REQUIRED_FIELDS, OPTIONAL_FIELDS. simpl. intros Hn.
  repeat (apply elem_of_cons in Hn as [->|Hn]); try done.
  by apply elem_of_nil in Hn.
Qed.

Lemma new_report_null (message : str) (n : string) :
  n ∈ REQUIRED_FIELDS ++ OPTIONAL_FIELDS ->
  getattr (new_report message) (replace_char "-" "_" n) = VNone.
Proof.
  unfold REQUIRED_FIELDS, OPTIONAL_FIELDS, getattr. simpl. intros Hn.
  repeat (apply elem_of_cons in Hn as [->|Hn]);
    try (by apply elem_of_nil in Hn);
    rewrite new_report_lookup by done; reflexivity.
Qed.

(** Whenever the parser returns a record, the record holds the message
    itself, unchanged, as its [json] attribute, and an empty user agent. *)
Theorem from_message_keeps_message (message : str) (r : gmap string value) :
  from_message message = Ok r ->
  getattr r "json" = VStr message ∧ getattr r "user_agent" = VStr [].
Proof.
  intros Hfm.
  destruct (from_message_returns _ _ Hfm)
    as [[-> _] | (d & rd & self1 & t & _ & _ & _ & -> & _ & Hjson & Hua)].
  - unfold getattr. rewrite new_report_json.
    rewrite new_report_lookup by done. split; reflexivity.
  - rewrite !getattr_insert_ne by done. unfold getattr. by rewrite Hjson, Hua.
Qed.

(** A message that is no JSON, or a JSON object without a [csp-report]
    member, gives the record of a new report: flagged invalid, the message
    kept, and each of the eleven report fields null. *)
Theorem from_message_without_report (message : str) :
  (loads message = None
   ∨ ∃ d, loads message = Some (VDict d) ∧ dict_get (txt "csp-report") d = None) ->
  ∃ r, from_message message = Ok r
       ∧ getattr r "is_valid" = VBool false
       ∧ getattr r "json" = VStr message
       ∧ ∀ n, n ∈ REQUIRED_FIELDS ++ OPTIONAL_FIELDS ->
              getattr r (replace_char "-" "_" n) = VNone.
Proof.
  intros Hcase. exists (new_report message). split.
  - unfold from_message. destruct Hcase as [-> | (d & -> & Hnone)]; [done|].
    unfold getitem. by rewrite Hnone.
  - split; [apply new_report_invalid|]. split.
    + unfold getattr. by rewrite new_report_json.
    + apply new_report_null.
Qed.

(** Each report attribute is read from the member of the same name of the
    [csp-report] object: text is stored as it is, an integer in one of the
    three numbers as it is, and a member that is missing or null gives
    null. *)
Theorem from_message_reads_members
        (message : str) (r : gmap string value)
        (d m : list (str * value)) (n : string) :
  from_message message = Ok r ->
  loads message = Some (VDict d) ->
  dict_get (txt "csp-report") d = Some (VDict m) ->
  n ∈ REQUIRED_FIELDS ++ OPTIONAL_FIELDS ->
  ((n ∉ number_fields) ->
   ∀ s, dict_get (txt n) m = Some (VStr s) ->
        getattr r (replace_char "-" "_" n) = VStr s)
  ∧ (n ∈ number_fields ->
     ∀ z, dict_get (txt n) m = Some (VInt z) ->
          getattr r (replace_char "-" "_" n) = VInt z)
  ∧ (dict_get (txt n) m = None ∨ dict_get (txt n) m = Some VNone ->
     getattr r (replace_char "-" "_" n) = VNone).
Proof.
  intros Hfm Hl Hrd Hn.
  destruct (from_message_returns _ _ Hfm)
    as [[_ [Hnone | (d' & Hl' & Hnone)]]
       | (d' & rd & self1 & t & Hl' & Hrd' & Hpop & -> & _)];
    try congruence.
  rewrite Hl in Hl'. injection Hl' as <-.
  rewrite Hrd in Hrd'. injection Hrd' as <-.
  destruct (all_names_have_fields n Hn) as (f & Hf & Hkind).
  pose proof (attribute_is_not_is_valid n Hn) as Hne.
  assert (Hconv : ∀ x x',
             default VNone (dict_get (txt n) m) = x ->
             to_python (kind f) x = Ok x' ->
             getattr (<["is_valid"%string := VBool t]> self1)
                     (replace_char "-" "_" n) = x').
  { intros x x' Hx Hc. rewrite getattr_insert_ne by done. unfold getattr.
    rewrite (populate_converted _ _ _ _ n f x x' Hpop); try done.
    - apply optional_names_nodup.
    - unfold get_method. by rewrite Hx. }
  repeat split.
  - intros Hnot s Hs. apply (Hconv (VStr s)); [by rewrite Hs|].
    destruct Hkind as [[? _] | [_ [-> | ->]]]; done.
  - intros Hnum z Hz. apply (Hconv (VInt z)); [by rewrite Hz|].
    destruct Hkind as [[_ [t' ->]] | [? _]]; done.
  - intros Hmiss. apply (Hconv VNone); [by destruct Hmiss as [-> | ->]|].
    destruct Hkind as [[_ [t' ->]] | [_ [-> | ->]]]; done.
Qed.

Lemma required_is_listed (n : string) :
  n ∈ REQUIRED_FIELDS -> n ∈ REQUIRED_FIELDS ++ OPTIONAL_FIELDS ∧ (n ∉ number_fields).
Proof.
  unfold REQUIRED_FIELDS. intros Hn.
  repeat (apply elem_of_cons in Hn as [->|Hn]);
    try (by apply elem_of_nil in Hn);
    split; apply (bool_decide_unpack _); reflexivity.
Qed.

Lemma validated_is_listed (n : string) :
  n ∈ validated_fields -> n ∈ REQUIRED_FIELDS ++ OPTIONAL_FIELDS.
Proof.
  unfold validated_fields. intros Hn.
  repeat (apply elem_of_cons in Hn as [->|Hn]);
    try (by apply elem_of_nil in Hn);
    apply (bool_decide_unpack _); reflexivity.
Qed.

Lemma number_is_validated (n : string) :
  n ∈ number_fields -> n ∈ validated_fields.
Proof.
  unfold number_fields. intros Hn.
  repeat (apply elem_of_cons in Hn as [->|Hn]);
    try (by apply elem_of_nil in Hn);
    apply (bool_decide_unpack _); reflexivity.
Qed.

(** The attribute the loop leaves for a member that is missing or null. *)
Lemma populate_null (m : list (str * value)) (self self1 : gmap string value)
      (n : string) :
  populate (REQUIRED_FIELDS ++ OPTIONAL_FIELDS) (VDict m) self = Ok self1 ->
  n ∈ REQUIRED_FIELDS ++ OPTIONAL_FIELDS ->
  dict_get (txt n) m = None ∨ dict_get (txt n) m = Some VNone ->
  getattr self1 (replace_char "-" "_" n) = VNone.
Proof.
  intros Hpop Hn Hmiss.
  destruct (all_names_have_fields n Hn) as (f & Hf & Hkind).
  unfold getattr.
  rewrite (populate_converted _ _ _ _ n f VNone VNone Hpop); try done.
  - apply optional_names_nodup.
  - unfold get_method. by destruct Hmiss as [-> | ->].
  - destruct Hkind as [[_ [t' ->]] | [_ [-> | ->]]]; done.
Qed.

(** A report whose [csp-report] object holds text under each of the five
    required names, and no disposition and none of the three numbers, is
    parsed into a record flagged valid. *)
Theorem complete_report_is_valid (message : str) (d m : list (str * value)) :
  loads message = Some (VDict d) ->
  dict_get (txt "csp-report") d = Some (VDict m) ->
  (∀ n, n ∈ REQUIRED_FIELDS -> ∃ s, dict_get (txt n) m = Some (VStr s)) ->
  (∀ n, n ∈ validated_fields -> dict_get (txt n) m = None) ->
  ∃ r, from_message message = Ok r ∧ getattr r "is_valid" = VBool true.
Proof.
  intros Hl Hrd Hreq Hopt.
  destruct (populate_dict_outcome _ m (new_report message) names_have_fields)
    as [(self1 & Hpop & _) | (n & f & e & _ & Hn & Hf & Hc & He)].
  - destruct (from_message_after_populate _ _ _ _ Hl Hpop)
      as (_ & _ & t & Ht & Hfc).
    exists (<["is_valid"%string := VBool t]> self1). split.
    + unfold from_message. rewrite Hl. unfold getitem. rewrite Hrd, Hpop, Hfc.
      by destruct t.
    + rewrite getattr_insert_eq. f_equal. apply Ht. split.
      * unfold required_present, required_attributes.
        apply Forall_fmap, Forall_forall. intros n Hn. simpl.
        destruct (Hreq n Hn) as [s Hs].
        destruct (required_is_listed n Hn) as [Hlisted Hnot].
        destruct (all_names_have_fields n Hlisted) as (f & Hf & Hkind).
        unfold getattr.
        rewrite (populate_converted _ _ _ _ n f (VStr s) (VStr s) Hpop); try done.
        -- apply optional_names_nodup.
        -- unfold get_method. by rewrite Hs.
        -- destruct Hkind as [[? _] | [_ [-> | ->]]]; done.
      * assert (Hnull : ∀ n, n ∈ validated_fields ->
                   getattr self1 (replace_char "-" "_" n) = VNone).
        { intros n Hn. apply (populate_null m _ _ n Hpop).
          - by apply validated_is_listed.
          - left. by apply Hopt. }
        assert (Hd : getattr self1 "disposition" = VNone)
          by (apply (Hnull "disposition"%string), (bool_decide_unpack _); reflexivity).
        assert (Hs : getattr self1 "status_code" = VNone)
          by (apply (Hnull "status-code"%string), (bool_decide_unpack _); reflexivity).
        assert (Hln : getattr self1 "line_number" = VNone)
          by (apply (Hnull "line-number"%string), (bool_decide_unpack _); reflexivity).
        assert (Hcn : getattr self1 "column_number" = VNone)
          by (apply (Hnull "column-number"%string), (bool_decide_unpack _); reflexivity).
        unfold optional_valid. rewrite Hd, Hs, Hln, Hcn.
        repeat split; by left.
  - exfalso.
    destruct (to_python_raises _ _ _ Hc) as [?|(_ & [t Hk] & y & Hy & _)]; [done|].
    destruct (all_names_have_fields n Hn) as (f' & Hf' & Hkind).
    rewrite Hf in Hf'. injection Hf' as <-.
    destruct Hkind as [[Hnum _] | [_ [Hk' | Hk']]]; [|congruence..].
    rewrite (Hopt n (number_is_validated n Hnum)) in Hy. done.
Qed.

(** A report in which one of the five required members is missing or null is
    flagged invalid. *)
Theorem missing_required_member_is_invalid
        (message : str) (r : gmap string value)
        (d m : list (str * value)) (n : string) :
  from_message message = Ok r ->
  loads message = Some (VDict d) ->
  dict_get (txt "csp-report") d = Some (VDict m) ->
  n ∈ REQUIRED_FIELDS ->
  dict_get (txt n) m = None ∨ dict_get (txt n) m = Some VNone ->
  getattr r "is_valid" = VBool false.
Proof.
  intros Hfm Hl Hrd Hn Hmiss.
  destruct (from_message_returns _ _ Hfm)
    as [[-> _] | (d' & rd & self1 & t & Hl' & Hrd' & Hpop & -> & Ht & _)].
  - apply new_report_invalid.
  - rewrite Hl in Hl'. injection Hl' as <-.
    rewrite Hrd in Hrd'. injection Hrd' as <-.
    rewrite getattr_insert_eq. f_equal.
    destruct t; [|done]. exfalso.
    destruct (proj1 Ht eq_refl) as [Hpresent _].
    unfold required_present, required_attributes in Hpresent.
    rewrite Forall_fmap, Forall_forall in Hpresent.
    apply (Hpresent n Hn). simpl.
    apply (populate_null m _ _ n Hpop); [|done].
    by apply required_is_listed.
Qed.

(** ** The formatter and the display of a report *)

(** The formatter never raises on text, and on bytes only when they are not
    UTF-8; text that is no JSON comes back whole behind the fixed notice. *)
Theorem format_report_total (s : str) (bs : bytes) (e : exn) :
  (∃ out, format_report (Text s) = Ok out)
  ∧ (loads s = None ->
     format_report (Text s)
     = Ok (txt "Invalid JSON. Raw dump is below." ++ [10; 10] ++ s))
  ∧ (format_report (Bytes bs) = Raise e
     ↔ utf8_decode bs = None ∧ e = UnicodeDecodeError)
  ∧ (∀ t, utf8_decode bs = Some t ->
          format_report (Bytes bs) = format_report (Text t)).
Proof.
  unfold format_report. split; [|split; [|split]].
  - destruct (loads s); by eexists.
  - by intros ->.
  - destruct (utf8_decode bs) as [t|].
    + split; [by destruct (loads t) | by intros [? _]].
    + split; [by intros [= <-] | by intros [_ ->]].
  - by intros t ->.
Qed.

Lemma escape_html_char_plain (c x : N) :
  x ∈ escape_html_char c -> x ≠ 60 ∧ x ≠ 62 ∧ x ≠ 34 ∧ x ≠ 39.
Proof.
  unfold escape_html_char.
  destruct (c =? 38) eqn:H38; [|destruct (c =? 60) eqn:H60;
    [|destruct (c =? 62) eqn:H62; [|destruct (c =? 34) eqn:H34;
      [|destruct (c =? 39) eqn:H39]]]].
  1-5: intros Hx; vm_compute in Hx;
       repeat (apply elem_of_cons in Hx as [->|Hx]); try done;
       by apply elem_of_nil in Hx.
  intros Hx. apply list_elem_of_singleton in Hx as ->.
  apply N.eqb_neq in H60, H62, H34, H39. done.
Qed.

(** The page fragment of a report is the formatted message between the two
    tags of a [pre] element, and no angle bracket, double quote or
    apostrophe of the message is left in it; on a record whose [json] is text
    the call never raises. *)
Theorem json_as_html_is_escaped (self : gmap string value) (s : str) :
  self !! "json"%string = Some (VStr s) ->
  ∃ formatted,
    format_report (Text s) = Ok formatted
    ∧ json_as_html self
      = Ok (txt "<pre>" ++ [10] ++ escape formatted ++ txt "</pre>")
    ∧ Forall (fun x => x ≠ 60 ∧ x ≠ 62 ∧ x ≠ 34 ∧ x ≠ 39) (escape formatted).
Proof.
  intros Hjson.
  destruct (format_report (Text s)) as [formatted|e] eqn:Hf.
  2:{ unfold format_report in Hf. by destruct (loads s). }
  exists formatted. split; [done|]. split.
  - unfold json_as_html. rewrite Hjson.
    change (default VNone (Some (VStr s))) with (VStr s).
    cbv beta iota. by rewrite Hf.
  - apply Forall_forall. intros x Hx. unfold escape in Hx.
    apply list_elem_of_In, in_flat_map in Hx as (c & _ & Hx).
    apply (escape_html_char_plain c). by apply list_elem_of_In.
Qed.

Lemma from_message_json_lookup (message : str) (r : gmap string value) :
  from_message message = Ok r -> r !! "json"%string = Some (VStr message).
Proof.
  intros Hfm.
  destruct (from_message_returns _ _ Hfm)
    as [[-> _] | (d & rd & self1 & t & _ & _ & _ & -> & _ & Hjson & _)].
  - apply new_report_json.
  - by rewrite lookup_insert_ne.
Qed.

Lemma nice_report_text (self : gmap string value) (s : str) :
  self !! "json"%string = Some (VStr s) ->
  nice_report self
  = if bool_decide (s = []) then Ok (txt "[no CSP report data]")
    else
      match loads s with
      | None => Ok (txt "Invalid CSP report: '" ++ s ++ txt "'")
      | Some data =>
        match contains data (txt "csp-report") with
        | Raise e => Raise e
        | Ok false => Ok (txt "Invalid CSP report: " ++ dumps data)
        | Ok true =>
          match getitem data (txt "csp-report") with
          | Ok report => Ok (dumps report)
          | Raise e => Raise e
          end
        end
      end.
Proof.
  intros Hjson. unfold nice_report. rewrite Hjson.
  change (default VNone (Some (VStr s))) with (VStr s).
  unfold truthy. by destruct (bool_decide (s = [])).
Qed.

(** Showing a record the parser has returned never raises: the text is the
    formatted [csp-report] member when the message has one, and the message
    itself between apostrophes behind a notice when it is no JSON. *)
Theorem nice_report_of_parsed (message : str) (r : gmap string value) :
  from_message message = Ok r ->
  (∃ out, nice_report r = Ok out)
  ∧ (∀ d rd, loads message = Some (VDict d) ->
             dict_get (txt "csp-report") d = Some rd ->
             nice_report r = Ok (dumps rd))
  ∧ (message ≠ [] -> loads message = None ->
     nice_report r = Ok (txt "Invalid CSP report: '" ++ message ++ txt "'")).
Proof.
  intros Hfm.
  rewrite (nice_report_text r message (from_message_json_lookup _ _ Hfm)).
  split; [|split].
  - case_bool_decide; [by eexists|].
    destruct (from_message_returns _ _ Hfm)
      as [[_ [-> | (d & -> & Hnone)]]
         | (d & rd & self1 & t & -> & Hrd & _)].
    + by eexists.
    + unfold contains. rewrite Hnone.
      rewrite bool_decide_eq_false_2 by (by intros [? ?]). by eexists.
    + unfold contains, getitem. rewrite Hrd.
      rewrite bool_decide_eq_true_2 by (by eexists). by eexists.
  - intros d rd Hl Hrd. rewrite bool_decide_eq_false_2 by (by eapply loads_nonempty).
    rewrite Hl. unfold contains, getitem. rewrite Hrd.
    by rewrite bool_decide_eq_true_2 by (by eexists).
  - intros Hne Hl. rewrite bool_decide_eq_false_2 by done. by rewrite Hl.
Qed.

(** Showing a record whose [json] is a JSON number, boolean or null raises
    [TypeError]: the membership test cannot search such a value. *)
Theorem nice_report_raises_on_scalar
        (self : gmap string value) (s : str) (data : value) :
  self !! "json"%string = Some (VStr s) ->
  loads s = Some data ->
  (∀ d, data ≠ VDict d) -> (∀ l, data ≠ VList l) -> (∀ x, data ≠ VStr x) ->
  nice_report self = Raise TypeError.
Proof.
  intros Hjson Hl Hd Hli Hs.
  rewrite (nice_report_text self s Hjson).
  rewrite bool_decide_eq_false_2 by (by eapply loads_nonempty).
  rewrite Hl. destruct data; try done.
  - by destruct (Hs s0).
  - by destruct (Hli l).
  - by destruct (Hd d).
Qed.

(** ** More on the dispatch *)

(** With the ignore check switched on, a payload that is JSON but no object,
    or an object whose [source-file] is no text, makes [process_report] raise
    [AttributeError] before any sink has run. *)
Theorem ignore_check_raises_on_odd_json
        (request : HttpRequest) (w : world) (flag : value) (text : str) (o : value) :
  Config__getattribute__ "IGNORE_BROWSER_EXTENSIONS" w = (Ok flag, w) ->
  truthy flag = true ->
  utf8_decode (body request) = Some text ->
  loads text = Some o ->
  ((∀ d, o ≠ VDict d)
   ∨ ∃ d x, o = VDict d
            ∧ dict_get (txt "source-file") d = Some x
            ∧ ∀ s, x ≠ VStr s) ->
  process_report request w = (Raise AttributeError, w).
Proof.
  intros Hc Hon Hdec Hl Hodd. unfold process_report. run.
  rewrite (should_ignore_report_unfold _ _ _ Hc), Hon, Hdec, Hl.
  cbn [negb]. unfold get_method.
  destruct Hodd as [Hnd | (d & x & -> & Hx & Hns)].
  - destruct o; try done. by destruct (Hnd d).
  - rewrite Hx. cbn [default from_option id].
    destruct x; try done. by destruct (Hns s).
Qed.

(** A call of [get_additional_handlers] that raises leaves the global empty,
    so the next call resolves the names again. *)
Theorem failed_resolution_is_not_cached (w w1 : world) (e : exn) :
  get_additional_handlers w = (Raise e, w1) ->
  _additional_handlers w = None
  ∧ _additional_handlers w1 = None
  ∧ settings w1 = settings w.
Proof.
  unfold get_additional_handlers.
  destruct (_additional_handlers w) as [hs0|] eqn:Hcache; [done|].
  run.
  destruct (Config__getattribute__ "ADDITIONAL_HANDLERS" w)
    as [[names|e'] w'] eqn:Hc.
  - pose proof (config_keeps_state "ADDITIONAL_HANDLERS" w) as Hw.
    rewrite Hc in Hw. simpl in Hw. subst w'.
    destruct (iterate names) as [items|e'] eqn:Hit.
    + destruct (resolve_handlers_frame items []) as (r & evs & Hev & Hr).
      rewrite Hr. destruct r as [hs'|e']; [done|].
      intros [= <- <-]. done.
    + intros [= <- <-]. done.
  - pose proof (config_keeps_state "ADDITIONAL_HANDLERS" w) as Hw.
    rewrite Hc in Hw. simpl in Hw. subst w'. intros [= <- <-]. done.
Qed.

Lemma rsplit_dot_no_dot (f : str) : 46 ∉ f -> rsplit_dot f = None.
Proof.
  induction f as [|c f IH]; [done|]. intros Hf.
  apply not_elem_of_cons in Hf as [Hc Hf]. simpl. rewrite (IH Hf).
  by rewrite (proj2 (N.eqb_neq c 46)) by done.
Qed.

Lemma rsplit_dot_app (m f : str) :
  46 ∉ f -> rsplit_dot (m ++ 46 :: f) = Some (m, f).
Proof.
  intros Hf. induction m as [|c m IH]; simpl.
  - by rewrite (rsplit_dot_no_dot f Hf).
  - by rewrite IH.
Qed.

Lemma resolve_handlers_in_order (items : list value) (hs acc : list callable) :
  Forall2 (fun item h => ∃ m f, item = VStr (m ++ 46 :: f) ∧ (46 ∉ f)
                                ∧ import_function m f = Ok h) items hs ->
  ∃ evs, ∀ w, resolve_handlers items acc w = (Ok (acc ++ hs), with_events evs w).
Proof.
  intros Hall. revert acc.
  induction Hall as [|item h items hs (m & f & -> & Hf & Himp) _ IH]; intros acc.
  - exists []. intros w. simpl. by rewrite app_nil_r, with_events_nil.
  - destruct (IH (acc ++ [h])) as [evs Hevs].
    exists (ImportFunction m f :: evs). intros w. simpl.
    rewrite (rsplit_dot_app m f Hf). run. rewrite Himp, Hevs.
    unfold with_events. simpl. by rewrite <- !app_assoc.
Qed.

(** On the first call, with a list of dotted names that all import, the
    handlers come back in the order of the setting, one per name, and are
    left in the global. *)
Theorem handlers_resolved_in_order
        (w : world) (items : list value) (hs : list callable) :
  _additional_handlers w = None ->
  Config__getattribute__ "ADDITIONAL_HANDLERS" w = (Ok (VList items), w) ->
  Forall2 (fun item h => ∃ m f, item = VStr (m ++ 46 :: f) ∧ (46 ∉ f)
                                ∧ import_function m f = Ok h) items hs ->
  (get_additional_handlers w).1 = Ok hs
  ∧ _additional_handlers (get_additional_handlers w).2 = Some hs.
Proof.
  intros Hcache Hc Hall.
  destruct (resolve_handlers_in_order items hs [] Hall) as [evs Hevs].
  unfold get_additional_handlers. rewrite Hcache. run. rewrite Hc. simpl.
  rewrite Hevs. done.
Qed.

(** With the ignore check and the four toggles all resolving to false values,
    [process_report] does nothing at all. *)
Theorem all_toggles_off_does_nothing
        (request : HttpRequest) (w : world)
        (flag email log save additional : value) :
  Config__getattribute__ "IGNORE_BROWSER_EXTENSIONS" w = (Ok flag, w) ->
  truthy flag = false ->
  Config__getattribute__ "EMAIL_ADMINS" w = (Ok email, w) -> truthy email = false ->
  Config__getattribute__ "LOG" w = (Ok log, w) -> truthy log = false ->
  Config__getattribute__ "SAVE" w = (Ok save, w) -> truthy save = false ->
  Config__getattribute__ "ADDITIONAL_HANDLERS" w = (Ok additional, w) ->
  truthy additional = false ->
  process_report request w = (Ok tt, w).
Proof.
  intros Hc Hoff He Hte Hl Htl Hs Hts Ha Hta.
  unfold process_report. run.
  rewrite (should_ignore_report_unfold _ _ _ Hc), Hoff. cbn [negb].
  unfold run_sinks. run.
  by rewrite He, Hte, Hl, Htl, Hs, Hts, Ha, Hta.
Qed.

(** When the parser raises on the decoded body, [process_report] raises the
    same exception after the mail and the log call have been made: nothing
    is stored and no handler is called or resolved. *)
Theorem failing_save_aborts_dispatch
        (request : HttpRequest) (w : world)
        (email log save charset : value)
        (level formatted message : str) (e : exn) :
  should_ignore_report request w = (Ok false, w) ->
  Config__getattribute__ "EMAIL_ADMINS" w = (Ok email, w) -> truthy email = true ->
  Config__getattribute__ "LOG" w = (Ok log, w) -> truthy log = true ->
  Config__getattribute__ "SAVE" w = (Ok save, w) -> truthy save = true ->
  Config__getattribute__ "LOG_LEVEL" w = (Ok (VStr level), w) ->
  level ∈ logger_methods ->
  format_report (Bytes (body request)) = Ok formatted ->
  charset_of request w = (Ok charset, w) ->
  decode (body request) charset = Ok message ->
  from_message message = Raise e ->
  process_report request w
  = (Raise e,
     with_events
       [MailAdmins (txt "CSP Violation Report")
          (txt "User agent:" ++ [10] ++ user_agent_of request ++ [10; 10]
           ++ txt "Report:" ++ [10] ++ formatted);
        LogCall level (txt "Content Security Policy violation: %s") formatted] w).
Proof.
  intros Hign He Hte Hl Htl Hs Hts Hlev Hin Hfmt Hcs Hdec Hmsg.
  unfold process_report. run. rewrite Hign. unfold run_sinks. run.
  rewrite He, Hte.
  rewrite (email_admins_sends _ _ _ Hfmt).
  rewrite (config_with_events _ _ _ _ Hl), Htl.
  rewrite (log_report_logs _ _ level formatted)
    by (try apply config_with_events; done).
  rewrite with_events_app.
  rewrite (config_with_events _ _ _ _ Hs), Hts.
  unfold save_report. run.
  rewrite (charset_of_with_events _ _ _ _ Hcs). by rewrite Hdec, Hmsg.
Qed.

(** A body that decodes but is no JSON is stored all the same: one record,
    flagged invalid, holding the decoded body and the user agent of the
    request. *)
Theorem malformed_report_is_stored_invalid
        (request : HttpRequest) (w : world) (charset : value) (message : str) :
  charset_of request w = (Ok charset, w) ->
  decode (body request) charset = Ok message ->
  loads message = None ->
  let stored := <["user_agent"%string := VStr (user_agent_of request)]>
                  (new_report message) in
  save_report request w = (Ok tt, with_events [SaveReport stored] w)
  ∧ getattr stored "is_valid" = VBool false
  ∧ getattr stored "json" = VStr message
  ∧ getattr stored "user_agent" = VStr (user_agent_of request).
Proof.
  intros Hcs Hdec Hl stored. split; [|split; [|split]].
  - by apply (save_report_saves _ _ charset message), from_message_not_json.
  - unfold stored. rewrite getattr_insert_ne by done. apply new_report_invalid.
  - unfold stored. rewrite getattr_insert_ne by done.
    unfold getattr. by rewrite new_report_json.
  - unfold stored. apply getattr_insert_eq.
Qed.

(** ** What a call leaves of the state *)

Lemma grows_refl (w : world) : grows w w.
Proof.
  split; [done|]. split; [|done]. exists []. by rewrite app_nil_r.
Qed.

Lemma grows_trans (w1 w2 w3 : world) : grows w1 w2 -> grows w2 w3 -> grows w1 w3.
Proof.
  intros (Hs1 & [e1 He1] & Hc1) (Hs2 & [e2 He2] & Hc2).
  split; [congruence|]. split.
  - exists (e1 ++ e2). by rewrite He2, He1, <- app_assoc.
  - intros hs Hh. by apply Hc2, Hc1.
Qed.

Lemma grows_with_events (evs : list event) (w : world) : grows w (with_events evs w).
Proof. split; [done|]. split; [by exists evs | done]. Qed.

Lemma bind_grows {A B} (m : action A) (k : A -> action B) :
  (∀ w, grows w (m w).2) -> (∀ a w, grows w (k a w).2) ->
  ∀ w, grows w (bind m k w).2.
Proof.
  intros Hm Hk w. unfold bind. specialize (Hm w).
  destruct (m w) as [[a|e] w']; simpl in *; [|done].
  eapply grows_trans; [exact Hm | apply Hk].
Qed.

Lemma config_grows (n : string) (w : world) :
  grows w (Config__getattribute__ n w).2.
Proof. rewrite config_keeps_state. apply grows_refl. Qed.

Lemma lift_grows {A} (r : res A) (w : world) : grows w (lift r w).2.
Proof. apply grows_refl. Qed.

Lemma emit_grows (ev : event) (w : world) : grows w (emit ev w).2.
Proof. apply (grows_with_events [ev]). Qed.

Lemma when_grows (c : bool) (m : action unit) :
  (∀ w, grows w (m w).2) -> ∀ w, grows w (when c m w).2.
Proof. intros Hm w. destruct c; [apply Hm | apply grows_refl]. Qed.

Lemma charset_of_grows (request : HttpRequest) (w : world) :
  grows w (charset_of request w).2.
Proof.
  unfold charset_of. destruct (encoding request) as [[|c e]|]; apply grows_refl.
Qed.

Ltac frame :=
  unfold mbind, action_bind;
  repeat first
    [ apply config_grows | apply lift_grows | apply emit_grows
    | apply charset_of_grows | apply grows_refl
    | apply bind_grows; intros ].

Lemma email_admins_grows (request : HttpRequest) (w : world) :
  grows w (email_admins request w).2.
Proof. revert w. unfold email_admins. frame. Qed.

Lemma log_report_grows (request : HttpRequest) (w : world) :
  grows w (log_report request w).2.
Proof. revert w. unfold log_report. frame. Qed.

Lemma save_report_grows (request : HttpRequest) (w : world) :
  grows w (save_report request w).2.
Proof. revert w. unfold save_report. frame. Qed.

Lemma get_additional_handlers_grows (w : world) :
  grows w (get_additional_handlers w).2.
Proof.
  unfold get_additional_handlers.
  destruct (_additional_handlers w) as [hs0|] eqn:Hcache; [apply grows_refl|].
  run.
  pose proof (config_keeps_state "ADDITIONAL_HANDLERS" w) as Hw.
  destruct (Config__getattribute__ "ADDITIONAL_HANDLERS" w) as [[names|e'] w'];
    simpl in Hw; subst w'; [|apply grows_refl].
  destruct (iterate names) as [items|e']; [|apply grows_refl].
  destruct (resolve_handlers_frame items []) as (r & evs & _ & Hr).
  rewrite Hr. destruct r as [hs|e']; [|apply grows_with_events].
  split; [done|]. split; [by exists evs|].
  intros hs'. by rewrite Hcache.
Qed.

Lemma run_additional_handlers_grows (request : HttpRequest) (w : world) :
  grows w (run_additional_handlers request w).2.
Proof.
  revert w. unfold run_additional_handlers, mbind, action_bind.
  apply bind_grows.
  - apply get_additional_handlers_grows.
  - intros hs w. rewrite call_handlers_calls. apply grows_with_events.
Qed.

Lemma should_ignore_report_keeps_state (request : HttpRequest) (w : world) :
  (should_ignore_report request w).2 = w.
Proof.
  unfold should_ignore_report. run.
  pose proof (config_keeps_state "IGNORE_BROWSER_EXTENSIONS" w) as Hw.
  destruct (Config__getattribute__ "IGNORE_BROWSER_EXTENSIONS" w)
    as [[flag|e'] w']; simpl in Hw; subst w'; [|done].
  destruct (negb (truthy flag)); [done|].
  destruct (utf8_decode (body request)) as [s|]; [|done].
  destruct (loads s) as [o|]; [|done].
  destruct (get_method o (txt "source-file") (VStr [])) as [[| | | |x| |]|e']; done.
Qed.

(** Whatever a call of [process_report] does and however it ends, it leaves
    the settings as they were, keeps every earlier event in place before the
    ones it adds, and never replaces a handler list that was resolved. *)
Theorem process_report_only_adds (request : HttpRequest) (w : world) :
  grows w (process_report request w).2.
Proof.
  revert w. unfold process_report, mbind, action_bind.
  apply bind_grows.
  - intros w. rewrite should_ignore_report_keeps_state. apply grows_refl.
  - intros [|]; [intros w; apply grows_refl|].
    unfold run_sinks, mbind, action_bind.
    repeat first
      [ apply config_grows
      | apply when_grows; intros
      | apply email_admins_grows | apply log_report_grows
      | apply save_report_grows | apply run_additional_handlers_grows
      | apply bind_grows; intros ].
Qed.

(** ** The decoded report of a record *)

Lemma from_message_no_data (message : str) (r : gmap string value) :
  from_message message = Ok r -> r !! "_data"%string = None.
Proof.
  intros Hfm.
  destruct (from_message_returns _ _ Hfm)
    as [[-> _] | (d & rd & self1 & t & _ & _ & Hpop & -> & _)].
  - by rewrite new_report_lookup.
  - rewrite lookup_insert_ne by done.
    destruct (populate_spec _ _ _ _ Hpop (new_report_well_typed message))
      as [_ Hother].
    rewrite Hother; [by rewrite new_report_lookup|].
    apply (bool_decide_unpack _). reflexivity.
Qed.

(** On a record the parser has returned, the first access to [data] decodes
    the message and keeps the result in the record; when the message is no
    JSON, which the parser lets pass as an invalid record, the access raises
    [ValueError] and keeps nothing. *)
Theorem data_of_parsed (message : str) (r : gmap string value) :
  from_message message = Ok r ->
  (∀ decoded, loads message = Some decoded ->
              data r = (Ok decoded, <["_data"%string := decoded]> r))
  ∧ (loads message = None -> data r = (Raise ValueError, r)).
Proof.
  intros Hfm. unfold data.
  rewrite (from_message_no_data _ _ Hfm), (from_message_json_lookup _ _ Hfm).
  change (default VNone (Some (VStr message))) with (VStr message).
  split; [intros decoded Hl|intros Hl]; by rewrite Hl.
Qed.

(** Once an access to [data] has returned, every later access returns the
    same value and leaves the record as it is, also after [json] has been set
    to other text: the message is decoded once. *)
Theorem data_is_decoded_once
        (self self1 : gmap string value) (decoded : value) :
  data self = (Ok decoded, self1) ->
  data self1 = (Ok decoded, self1)
  ∧ ∀ s, data (<["json"%string := VStr s]> self1)
         = (Ok decoded, <["json"%string := VStr s]> self1).
Proof.
  intros Hdata.
  assert (Hkept : self1 !! "_data"%string = Some decoded).
  { unfold data in Hdata.
    destruct (self !! "_data"%string) as [d0|] eqn:Hd0.
    - by injection Hdata as <- <-.
    - destruct (default VNone (self !! "json"%string)); try done.
      destruct (loads s); [|done]. injection Hdata as <- <-.
      by rewrite lookup_insert_eq. }
  split; [|intros s]; unfold data.
  - by rewrite Hkept.
  - by rewrite lookup_insert_ne, Hkept.
Qed.

(** ** Bodies that are not UTF-8, and handler names that are no list *)

(** The mail and the log sink decode the body as UTF-8 whatever encoding the
    request declares.  With either of them on, a body that is not UTF-8 makes
    [process_report] raise [UnicodeDecodeError] before anything is mailed,
    logged or stored, although [save_report] alone decodes the body with the
    request's own encoding and stores the report. *)
Theorem non_utf8_body_stops_dispatch
        (request : HttpRequest) (w : world) (email log : value) (level : str) :
  should_ignore_report request w = (Ok false, w) ->
  utf8_decode (body request) = None ->
  Config__getattribute__ "EMAIL_ADMINS" w = (Ok email, w) ->
  Config__getattribute__ "LOG" w = (Ok log, w) ->
  Config__getattribute__ "LOG_LEVEL" w = (Ok (VStr level), w) ->
  level ∈ logger_methods ->
  truthy email || truthy log = true ->
  process_report request w = (Raise UnicodeDecodeError, w)
  ∧ ∀ charset message report,
      charset_of request w = (Ok charset, w) ->
      decode (body request) charset = Ok message ->
      from_message message = Ok report ->
      save_report request w
      = (Ok tt,
         with_events
           [SaveReport (<["user_agent"%string := VStr (user_agent_of request)]> report)]
           w).
Proof.
  intros Hign Hbody He Hl Hlev Hin Hon. split; [|apply save_report_saves].
  unfold process_report. run. rewrite Hign. unfold run_sinks. run.
  rewrite He. destruct (truthy email).
  - unfold email_admins, format_report. run. by rewrite Hbody.
  - simpl in Hon. simpl. rewrite Hl, Hon.
    unfold log_report, format_report. run. rewrite Hlev. simpl.
    rewrite bool_decide_eq_true_2 by done. by rewrite Hbody.
Qed.

(** A handler name given as one text instead of a list is taken character by
    character: unless it starts with a dot, the first character has no dot to
    split at, and [get_additional_handlers] raises [ValueError] without
    importing anything. *)
Theorem bare_handler_name_is_refused (w : world) (c : N) (name : str) :
  _additional_handlers w = None ->
  Config__getattribute__ "ADDITIONAL_HANDLERS" w = (Ok (VStr (c :: name)), w) ->
  c ≠ 46 ->
  get_additional_handlers w = (Raise ValueError, w).
Proof.
  intros Hcache Hc Hdot. unfold get_additional_handlers. rewrite Hcache. run.
  rewrite Hc. simpl. by rewrite (proj2 (N.eqb_neq c 46)) by done.
Qed.

End Properties.

(** * The formatter on its own output *)
Section RoundTrip.
Context `{PyFloat}.

(** ** Reading back what the encoder writes *)

Ltac compare_all :=
  repeat match goal with
         | |- context [?a <=? ?b] => destruct (N.leb_spec a b); try lia
         | |- context [?a <? ?b] => destruct (N.ltb_spec a b); try lia
         | |- context [?a =? ?b] => destruct (N.eqb_spec a b); try lia
         end.

Lemma land_shiftl_low (a b k : N) : b < 2 ^ k -> N.land (N.shiftl a k) b = 0.
Proof.
  intros Hb. apply N.bits_inj. intros n.
  rewrite N.land_spec, N.bits_0.
  destruct (N.lt_ge_cases n k) as [Hn|Hn].
  - by rewrite N.shiftl_spec_low.
  - rewrite <- (N.mod_small b (2 ^ k)) by done.
    rewrite N.mod_pow2_bits_high by done. apply andb_false_r.
Qed.

Lemma lor_shiftl_add (a b k : N) :
  b < 2 ^ k -> N.lor (N.shiftl a k) b = a * 2 ^ k + b.
Proof.
  intros Hb. rewrite <- N.lxor_lor, <- N.add_nocarry_lxor
    by (by apply land_shiftl_low).
  by rewrite N.shiftl_mul_pow2.
Qed.

Lemma hex_value_hex_digit (n : N) : n < 16 -> hex_value (hex_digit n) = Some n.
Proof.
  intros Hn. unfold hex_value, hex_digit, is_digit.
  destruct (N.ltb_spec n 10); compare_all; simpl; f_equal; lia.
Qed.

Lemma nibble_lt (x : N) : N.land x 0xF < 16.
Proof.
  change 0xF with (N.ones 4). rewrite N.land_ones. by apply N.mod_lt.
Qed.

Lemma decode_hex4_encode (c : N) :
  c < 0x10000 ->
  decode_hex4 (hex_digit (N.land (N.shiftr c 12) 0xF))
              (hex_digit (N.land (N.shiftr c 8) 0xF))
              (hex_digit (N.land (N.shiftr c 4) 0xF))
              (hex_digit (N.land c 0xF)) = Some c.
Proof.
  intros Hc. unfold decode_hex4.
  rewrite !hex_value_hex_digit by apply nibble_lt.
  f_equal.
  rewrite !lor_shiftl_add by apply nibble_lt.
  change 0xF with (N.ones 4). rewrite !N.land_ones, !N.shiftr_div_pow2.
  change (2 ^ 4) with 16. change (2 ^ 8) with 256. change (2 ^ 12) with 4096.
  zify. Z.to_euclidean_division_equations. lia.
Qed.

Ltac euclid := zify; Z.to_euclidean_division_equations; lia.

(** The escape of a surrogate pair reads back as the code point. *)
Lemma join_surrogates_split (c : N) :
  0x10000 <= c -> c < 0x110000 ->
  let v := c - 0x10000 in
  let hi := N.lor 0xD800 (N.land (N.shiftr v 10) 0x3FF) in
  let lo := N.lor 0xDC00 (N.land v 0x3FF) in
  hi < 0x10000 ∧ lo < 0x10000
  ∧ is_high_surrogate hi = true ∧ is_low_surrogate hi = false
  ∧ is_low_surrogate lo = true
  ∧ join_surrogates hi lo = c.
Proof.
  intros Hlo Hhi v hi lo.
  assert (Hv : v < 2 ^ 20) by (unfold v; change (2 ^ 20) with 0x100000; lia).
  assert (Hh : hi = 0xD800 + v / 1024).
  { unfold hi. change 0xD800 with (N.shiftl 54 10).
    change 0x3FF with (N.ones 10).
    rewrite N.land_ones, N.shiftr_div_pow2.
    rewrite lor_shiftl_add by (by apply N.mod_lt).
    change (2 ^ 10) with 1024. change (2 ^ 20) with 0x100000 in Hv.
    change (N.shiftl 54 10) with 55296. euclid. }
  assert (Hl : lo = 0xDC00 + v mod 1024).
  { unfold lo. change 0xDC00 with (N.shiftl 55 10).
    change 0x3FF with (N.ones 10).
    rewrite N.land_ones.
    rewrite lor_shiftl_add by (by apply N.mod_lt).
    change (2 ^ 10) with 1024. change (N.shiftl 55 10) with 56320. lia. }
  assert (Hvc : v = c - 0x10000) by done.
  clearbody hi lo v.
  change (2 ^ 20) with 0x100000 in Hv.
  assert (Hq : v / 1024 < 1024) by euclid.
  assert (Hr : v mod 1024 < 1024) by (by apply N.mod_lt).
  split; [lia|]. split; [lia|].
  unfold is_high_surrogate, is_low_surrogate, join_surrogates.
  split; [apply andb_true_iff; split; apply N.leb_le; euclid|].
  split; [apply andb_false_iff; left; apply N.leb_gt; euclid|].
  split; [apply andb_true_iff; split; apply N.leb_le; euclid|].
  rewrite Hh, Hl. change 0x3FF with (N.ones 10). rewrite !N.land_ones.
  rewrite lor_shiftl_add by (by apply N.mod_lt).
  change (2 ^ 10) with 1024. euclid.
Qed.

Lemma scanstring_plain (c : N) (X : str) :
  c ≠ 34 -> c ≠ 92 -> 0x1F < c -> scanstring (c :: X) = push c (scanstring X).
Proof.
  intros H34 H92 Hc. simpl.
  rewrite (proj2 (N.eqb_neq c 34)), (proj2 (N.eqb_neq c 92)) by done.
  by rewrite (proj2 (N.leb_gt c 0x1F)) by done.
Qed.

Lemma scanstring_simple (e c : N) (X : str) :
  e ≠ 117 -> simple_escape e = Some c ->
  scanstring (92 :: e :: X) = push c (scanstring X).
Proof.
  intros He Hs. simpl. rewrite (proj2 (N.eqb_neq e 117)) by done. by rewrite Hs.
Qed.

Lemma scanstring_unit (h1 h2 h3 h4 c : N) (X : str) :
  decode_hex4 h1 h2 h3 h4 = Some c ->
  is_high_surrogate c = false ∨ no_low_escape X ->
  scanstring (92 :: 117 :: h1 :: h2 :: h3 :: h4 :: X) = push c (scanstring X).
Proof.
  intros Hd Hcase.
  change (scanstring (92 :: 117 :: h1 :: h2 :: h3 :: h4 :: X))
    with (match decode_hex4 h1 h2 h3 h4 with
          | None => None
          | Some c1 =>
            if is_high_surrogate c1 then
              match X with
              | b1 :: b2 :: k1 :: k2 :: k3 :: k4 :: s5 =>
                if (b1 =? 92) && (b2 =? 117) then
                  match decode_hex4 k1 k2 k3 k4 with
                  | None => None
                  | Some c2 =>
                    if is_low_surrogate c2
                    then push (join_surrogates c1 c2) (scanstring s5)
                    else push c1 (scanstring X)
                  end
                else push c1 (scanstring X)
              | _ => push c1 (scanstring X)
              end
            else push c1 (scanstring X)
          end).
  rewrite Hd. destruct (is_high_surrogate c) eqn:Hh; [|done].
  destruct Hcase as [|Hno]; [done|].
  destruct X as [|b1 [|b2 [|k1 [|k2 [|k3 [|k4 s5]]]]]]; try done.
  destruct (N.eqb_spec b1 92) as [->|]; [|done].
  destruct (N.eqb_spec b2 117) as [->|]; [|done].
  destruct (Hno _ _ _ _ _ eq_refl) as (c2 & Hc2 & Hl).
  cbn [andb]. by rewrite Hc2, Hl.
Qed.

Lemma scanstring_pair (h1 h2 h3 h4 k1 k2 k3 k4 c1 c2 : N) (X : str) :
  decode_hex4 h1 h2 h3 h4 = Some c1 -> is_high_surrogate c1 = true ->
  decode_hex4 k1 k2 k3 k4 = Some c2 -> is_low_surrogate c2 = true ->
  scanstring (92 :: 117 :: h1 :: h2 :: h3 :: h4
              :: 92 :: 117 :: k1 :: k2 :: k3 :: k4 :: X)
  = push (join_surrogates c1 c2) (scanstring X).
Proof.
  intros Hd1 Hh Hd2 Hl.
  change (scanstring (92 :: 117 :: h1 :: h2 :: h3 :: h4
                      :: 92 :: 117 :: k1 :: k2 :: k3 :: k4 :: X))
    with (match decode_hex4 h1 h2 h3 h4 with
          | None => None
          | Some c1 =>
            if is_high_surrogate c1 then
              match decode_hex4 k1 k2 k3 k4 with
              | None => None
              | Some c2 =>
                if is_low_surrogate c2
                then push (join_surrogates c1 c2) (scanstring X)
                else push c1 (scanstring (92 :: 117 :: k1 :: k2 :: k3 :: k4 :: X))
              end
            else push c1 (scanstring (92 :: 117 :: k1 :: k2 :: k3 :: k4 :: X))
          end).
  by rewrite Hd1, Hh, Hd2, Hl.
Qed.

(** The four shapes of an escaped character. *)
Lemma escape_char_cases (c : N) :
  c < 0x110000 ->
  (escape_char c = [c] ∧ c ≠ 34 ∧ c ≠ 92 ∧ 0x1F < c)
  ∨ (∃ e, escape_char c = [92; e] ∧ e ≠ 117 ∧ simple_escape e = Some c)
  ∨ (0x10000 <= c
     ∧ escape_char c
       = encode_hex4 (N.lor 0xD800 (N.land (N.shiftr (c - 0x10000) 10) 0x3FF))
         ++ encode_hex4 (N.lor 0xDC00 (N.land (c - 0x10000) 0x3FF)))
  ∨ (c < 0x10000 ∧ escape_char c = encode_hex4 c).
Proof.
  intros Hc. unfold escape_char.
  destruct ((32 <=? c) && (c <=? 126) && negb (c =? 92) && negb (c =? 34)) eqn:Hp.
  { left. apply andb_true_iff in Hp as [Hp H34].
    apply andb_true_iff in Hp as [Hp H92].
    apply andb_true_iff in Hp as [H32 _].
    apply negb_true_iff, N.eqb_neq in H34, H92. apply N.leb_le in H32.
    repeat split; [done|done|lia]. }
  right.
  destruct (N.eqb_spec c 92) as [->|_]; [left; by exists 92|].
  destruct (N.eqb_spec c 34) as [->|_]; [left; by exists 34|].
  destruct (N.eqb_spec c 8) as [->|_]; [left; by exists 98|].
  destruct (N.eqb_spec c 12) as [->|_]; [left; by exists 102|].
  destruct (N.eqb_spec c 10) as [->|_]; [left; by exists 110|].
  destruct (N.eqb_spec c 13) as [->|_]; [left; by exists 114|].
  destruct (N.eqb_spec c 9) as [->|_]; [left; by exists 116|].
  right. destruct (N.leb_spec 0x10000 c); [left|right]; done.
Qed.

Lemma no_low_escape_body (s rest : str) :
  forallb (fun c => c <? 0x110000) s = true ->
  match s with c' :: _ => is_low_surrogate c' = false | [] => True end ->
  no_low_escape (escape_body s ++ 34 :: rest).
Proof.
  intros Hall Hhead k1 k2 k3 k4 s5 Heq.
  destruct s as [|c' s']; [discriminate Heq|].
  simpl in Hall. apply andb_true_iff in Hall as [Hc' _]. apply N.ltb_lt in Hc'.
  change (escape_body (c' :: s')) with (escape_char c' ++ escape_body s') in Heq.
  destruct (escape_char_cases c' Hc')
    as [(He & _ & H92 & _) | [(e & He & H117 & _) | [(Hbig & He) | (Hsmall & He)]]];
    rewrite He in Heq.
  - injection Heq as Heq _. done.
  - injection Heq as Heq _. done.
  - destruct (join_surrogates_split c' Hbig Hc') as (Hhi & _ & _ & Hnl & _).
    injection Heq as <- <- <- <- _.
    eexists. split; [by apply decode_hex4_encode | done].
  - injection Heq as <- <- <- <- _.
    eexists. split; [by apply decode_hex4_encode | done].
Qed.

(** The scanner reads the body of an encoded string back, up to the closing
    quote. *)
Lemma scanstring_escape_body (s rest : str) :
  plain_text s = true ->
  scanstring (escape_body s ++ 34 :: rest) = Some (s, rest).
Proof.
  unfold plain_text. intros Hs. apply andb_true_iff in Hs as [Hall Hfree].
  induction s as [|c s IH]; [done|].
  pose proof Hall as Hall'.
  simpl in Hall. apply andb_true_iff in Hall as [Hc Hall]. apply N.ltb_lt in Hc.
  change (pair_free (c :: s))
    with (match s with
          | c' :: _ => negb (is_high_surrogate c && is_low_surrogate c')
          | [] => true
          end && pair_free s) in Hfree.
  apply andb_true_iff in Hfree as [Hpair Hfree].
  specialize (IH Hall Hfree).
  change (escape_body (c :: s)) with (escape_char c ++ escape_body s).
  rewrite <- app_assoc.
  destruct (escape_char_cases c Hc)
    as [(He & H34 & H92 & Hlow) | [(e & He & H117 & Hsimple)
        | [(Hbig & He) | (Hsmall & He)]]];
    rewrite He.
  - simpl app. rewrite scanstring_plain by done. by rewrite IH.
  - simpl app. rewrite (scanstring_simple e c) by done. by rewrite IH.
  - destruct (join_surrogates_split c Hbig Hc)
      as (Hhi & Hlo & Hh & _ & Hl & Hjoin).
    rewrite <- app_assoc. unfold encode_hex4. simpl app.
    erewrite scanstring_pair;
      [|by apply decode_hex4_encode|done|by apply decode_hex4_encode|done].
    by rewrite IH, Hjoin.
  - unfold encode_hex4. simpl app.
    rewrite (scanstring_unit _ _ _ _ c); [by rewrite IH|by apply decode_hex4_encode|].
    destruct (is_high_surrogate c) eqn:Hh; [right|by left].
    apply no_low_escape_body; [done|].
    destruct s as [|c' s']; [done|]. by apply negb_true_iff in Hpair.
Qed.
End RoundTrip.

Section Numbers.
Context `{PyFloat}.

Lemma delimited_head (rest : str) :
  delimited rest = true ->
  match rest with
  | [] => True
  | c :: _ => c = 10 ∨ c = 44
  end.
Proof.
  destruct rest as [|c r]; [done|]. simpl. intros Hc.
  apply orb_true_iff in Hc as [Hc|Hc]; apply N.eqb_eq in Hc; auto.
Qed.

Lemma span_digits_app (s rest : str) :
  delimited rest = true ->
  span_digits (s ++ rest) = ((span_digits s).1, (span_digits s).2 ++ rest).
Proof.
  intros Hr. induction s as [|c s IH]; simpl.
  - destruct rest as [|c r]; [done|].
    destruct (delimited_head _ Hr) as [-> | ->]; done.
  - destruct (is_digit c); [|done]. rewrite IH. by destruct (span_digits s).
Qed.

Lemma match_sign_app (s rest : str) :
  delimited rest = true ->
  match_sign (s ++ rest) = ((match_sign s).1, (match_sign s).2 ++ rest).
Proof.
  intros Hr. destruct s as [|c s]; simpl.
  - destruct rest as [|c r]; [done|].
    destruct (delimited_head _ Hr) as [-> | ->]; done.
  - by destruct (c =? 45).
Qed.

Lemma match_integer_app (s rest ip r : str) :
  delimited rest = true ->
  match_integer s = Some (ip, r) ->
  match_integer (s ++ rest) = Some (ip, r ++ rest).
Proof.
  intros Hr. destruct s as [|c s]; [done|]. simpl.
  destruct (c =? 48); [by intros [= <- <-]|].
  destruct (is_digit c); [|done].
  rewrite span_digits_app by done. destruct (span_digits s) as [ds r'].
  by intros [= <- <-].
Qed.

Lemma match_frac_app (s rest : str) :
  delimited rest = true ->
  match_frac (s ++ rest) = ((match_frac s).1, (match_frac s).2 ++ rest).
Proof.
  intros Hr. destruct s as [|p [|d s]].
  - destruct rest as [|c [|c' r]]; try done.
    simpl. destruct (delimited_head _ Hr) as [-> | ->]; done.
  - destruct rest as [|c r]; [done|].
    simpl. destruct (delimited_head _ Hr) as [-> | ->];
      by rewrite andb_false_r.
  - simpl. destruct ((p =? 46) && is_digit d); [|done].
    rewrite span_digits_app by done. by destruct (span_digits s).
Qed.

Lemma match_exp_app (s rest : str) :
  delimited rest = true ->
  match_exp (s ++ rest) = ((match_exp s).1, (match_exp s).2 ++ rest).
Proof.
  intros Hr. destruct s as [|e s].
  - destruct rest as [|c r]; [done|].
    simpl. destruct (delimited_head _ Hr) as [-> | ->]; done.
  - simpl. destruct ((e =? 101) || (e =? 69)); [|done].
    destruct s as [|c s].
    + simpl. destruct rest as [|c r]; [done|].
      destruct (delimited_head _ Hr) as [-> | ->]; done.
    + simpl. destruct ((c =? 45) || (c =? 43)).
      * rewrite span_digits_app by done.
        destruct (span_digits s) as [[|d ds] r']; done.
      * rewrite app_comm_cons, span_digits_app by done.
        destruct (span_digits (c :: s)) as [[|d ds] r']; done.
Qed.

Lemma match_number_app (s rest r : str) (v : value) :
  delimited rest = true ->
  match_number s = Some (v, r) ->
  match_number (s ++ rest) = Some (v, r ++ rest).
Proof.
  intros Hr. unfold match_number.
  rewrite match_sign_app by done. destruct (match_sign s) as [sg s1].
  cbn [fst snd].
  destruct (match_integer s1) as [[ip s2]|] eqn:Hi; [|done].
  rewrite (match_integer_app _ _ _ _ Hr Hi).
  rewrite match_frac_app by done. destruct (match_frac s2) as [fr s3].
  cbn [fst snd].
  rewrite match_exp_app by done. destruct (match_exp s3) as [ex s4].
  cbn [fst snd].
  destruct fr, ex; by intros [= <- <-].
Qed.

(** A number starts with a sign or a digit. *)
Lemma match_number_head (s r : str) (v : value) :
  match_number s = Some (v, r) ->
  ∃ c s', s = c :: s' ∧ (c = 45 ∨ is_digit c = true).
Proof.
  unfold match_number. destruct s as [|c s']; [done|].
  intros Hm. exists c, s'. split; [done|].
  simpl in Hm. destruct (N.eqb_spec c 45); [by left|right].
  simpl in Hm. destruct (c =? 48) eqn:H48.
  - apply N.eqb_eq in H48 as ->. done.
  - by destruct (is_digit c).
Qed.

(** *** Integers *)

Lemma int_of_digits_acc (d : Decimal.uint) (acc : positive) :
  fold_left add_digit (uint_digits d) (N.pos acc) = N.pos (Pos.of_uint_acc d acc).
Proof.
  revert acc. induction d; intros acc; simpl; [done|..];
    rewrite <- IHd; f_equal; unfold add_digit; lia.
Qed.

Lemma int_of_digits_uint (d : Decimal.uint) :
  int_of_digits (uint_digits d) = Pos.of_uint d.
Proof.
  unfold int_of_digits. change (fun acc c => acc * 10 + (c - 48)) with add_digit.
  induction d; simpl; [done|done|..]; by rewrite <- int_of_digits_acc.
Qed.

Lemma span_digits_uint (d : Decimal.uint) :
  span_digits (uint_digits d) = (uint_digits d, []).
Proof. induction d; simpl; [done|..]; by rewrite IHd. Qed.

Lemma to_uint_head (p : positive) (d' : Decimal.uint) :
  Pos.to_uint p ≠ Decimal.D0 d'.
Proof.
  pose proof (Unsigned.to_of (Pos.to_uint p)) as Hn.
  rewrite Unsigned.of_to in Hn. simpl in Hn.
  destruct (Decimal.nzhead (Pos.to_uint p)) eqn:Hz;
    [exfalso; apply (Unsigned.to_uint_nonzero p); rewrite Hn; by apply unorm_0|..];
    (rewrite unorm_nzhead in Hn by (by rewrite Hz));
    rewrite Hn; apply nzhead_nonzero.
Qed.

Lemma match_integer_uint (p : positive) :
  match_integer (uint_digits (Pos.to_uint p))
  = Some (uint_digits (Pos.to_uint p), []).
Proof.
  pose proof (to_uint_head p) as Hh. pose proof (Unsigned.to_uint_nonnil p) as Hn.
  destruct (Pos.to_uint p) as [|d|d|d|d|d|d|d|d|d|d]; [done|by destruct (Hh d)|..];
    simpl; by rewrite span_digits_uint.
Qed.

Lemma match_number_int_repr (z : Z) :
  match_number (int_repr z) = Some (VInt z, []).
Proof.
  destruct z as [|p|p]; [done|..].
  - unfold match_number, int_repr.
    assert (Hs : match_sign (uint_digits (Pos.to_uint p))
                 = ([], uint_digits (Pos.to_uint p))).
    { pose proof (Unsigned.to_uint_nonnil p) as Hn.
      by destruct (Pos.to_uint p). }
    rewrite Hs, match_integer_uint. simpl.
    by rewrite int_of_digits_uint, Unsigned.of_to.
  - unfold match_number, int_repr.
    change (match_sign (45 :: uint_digits (Pos.to_uint p)))
      with ([45], uint_digits (Pos.to_uint p)).
    cbv beta iota zeta. rewrite match_integer_uint. simpl.
    by rewrite int_of_digits_uint, Unsigned.of_to.
Qed.
End Numbers.

Section Sorting.
Context {A : Type}.
Implicit Types (l : list (str * A)) (kv : str * A).

Lemma str_ltb_asym (a b : str) : str_ltb a b = true -> str_ltb b a = false.
Proof.
  revert b. induction a as [|x a IH]; intros [|y b]; simpl; try done.
  destruct (N.ltb_spec x y), (N.ltb_spec y x); try done; try lia.
  apply IH.
Qed.

Lemma insert_item_head kv kv0 l :
  key_sorted (kv0 :: l) = true -> str_ltb kv0.1 kv.1 = true ->
  match insert_item kv l with
  | kv' :: _ => str_ltb kv'.1 kv0.1 = false
  | [] => True
  end.
Proof.
  intros Hs Hlt. destruct l as [|kv1 l]; simpl.
  - by apply str_ltb_asym.
  - destruct (str_ltb kv1.1 kv.1).
    + simpl in Hs. apply andb_true_iff in Hs as [Hs _].
      by apply negb_true_iff in Hs.
    + by apply str_ltb_asym.
Qed.

Lemma key_sorted_cons kv l :
  key_sorted (kv :: l) = true
  <-> match l with kv' :: _ => str_ltb kv'.1 kv.1 = false | [] => True end
      ∧ key_sorted l = true.
Proof.
  change (key_sorted (kv :: l))
    with (match l with kv' :: _ => negb (str_ltb kv'.1 kv.1) | [] => true end
          && key_sorted l).
  rewrite andb_true_iff. destruct l; [done|]. by rewrite negb_true_iff.
Qed.

Lemma insert_item_sorted kv l :
  key_sorted l = true -> key_sorted (insert_item kv l) = true.
Proof.
  induction l as [|kv0 l IH]; [done|]. intros Hs.
  pose proof Hs as Hs'. apply key_sorted_cons in Hs' as [_ Hl].
  cbn [insert_item]. destruct (str_ltb kv0.1 kv.1) eqn:Hlt.
  - apply key_sorted_cons. split; [|by apply IH].
    by apply insert_item_head.
  - apply key_sorted_cons. split; [done|done].
Qed.

Lemma sort_items_sorted l : key_sorted (sort_items l) = true.
Proof.
  induction l as [|kv l IH]; [done|]. by apply insert_item_sorted.
Qed.

Lemma sort_items_of_sorted l : key_sorted l = true -> sort_items l = l.
Proof.
  induction l as [|kv l IH]; [done|]. intros Hs.
  apply key_sorted_cons in Hs as [Hh Hl].
  unfold sort_items in *. cbn [foldr]. rewrite (IH Hl).
  destruct l as [|kv' l]; [done|]. cbn [insert_item]. by rewrite Hh.
Qed.

Lemma sort_items_idemp l : sort_items (sort_items l) = sort_items l.
Proof. apply sort_items_of_sorted, sort_items_sorted. Qed.

Lemma insert_item_perm kv l : insert_item kv l ≡ₚ kv :: l.
Proof.
  induction l as [|kv0 l IH]; [done|]. cbn [insert_item].
  destruct (str_ltb kv0.1 kv.1); [|done].
  rewrite IH. apply Permutation_swap.
Qed.

Lemma sort_items_perm l : sort_items l ≡ₚ l.
Proof.
  induction l as [|kv l IH]; [done|].
  unfold sort_items in *. cbn [foldr]. by rewrite insert_item_perm, IH.
Qed.
End Sorting.

Section SortingMap.
Context {A B : Type} (f : A -> B).

Lemma insert_item_map (kv : str * A) (l : list (str * A)) :
  insert_item (kv.1, f kv.2) (map (fun kv => (kv.1, f kv.2)) l)
  = map (fun kv => (kv.1, f kv.2)) (insert_item kv l).
Proof.
  induction l as [|kv0 l IH]; [done|]. cbn [map insert_item fst].
  destruct (str_ltb kv0.1 kv.1); [|done]. cbn [map]. by rewrite IH.
Qed.

Lemma sort_items_map (l : list (str * A)) :
  sort_items (map (fun kv => (kv.1, f kv.2)) l)
  = map (fun kv => (kv.1, f kv.2)) (sort_items l).
Proof.
  induction l as [|kv l IH]; [done|].
  unfold sort_items in *. cbn [map foldr]. rewrite IH. apply insert_item_map.
Qed.
End SortingMap.

Section Structure.
Context `{PyFloat}.

Lemma value_nested_ind (P : value -> Prop) :
  P VNone -> (∀ t, P (VBool t)) -> (∀ z, P (VInt z)) -> (∀ x, P (VFloat x)) ->
  (∀ s, P (VStr s)) ->
  (∀ l, Forall P l -> P (VList l)) ->
  (∀ d, Forall (fun kv : str * value => P kv.2) d -> P (VDict d)) ->
  ∀ v, P v.
Proof.
  intros HN HB HI HF HS HL HD. fix IH 1.
  intros [|t|z|x|s|l|d];
    [exact HN | exact (HB t) | exact (HI z) | exact (HF x) | exact (HS s) | | ].
  - apply HL. induction l as [|e l IHl]; constructor; [apply IH | exact IHl].
  - apply HD. induction d as [|[k e] d IHd]; constructor; [apply IH | exact IHd].
Qed.

(** *** White space *)

Lemma skip_ws_head (c : N) (X : str) : is_ws c = false -> skip_ws (c :: X) = c :: X.
Proof. intros Hc. simpl. by rewrite Hc. Qed.

Lemma skip_ws_spaces (n : nat) (X : str) : skip_ws (repeat 32 n ++ X) = skip_ws X.
Proof. induction n as [|n IH]; [done|]. exact IH. Qed.

Lemma skip_ws_newline_indent (level : nat) (X : str) :
  skip_ws (newline_indent level ++ X) = skip_ws X.
Proof. unfold newline_indent. apply (skip_ws_spaces (4 * level)). Qed.

Lemma skip_ws_value (s X : str) : starts_value s -> skip_ws (s ++ X) = s ++ X.
Proof. intros (c & s' & -> & Hws & _). by apply skip_ws_head. Qed.

Lemma delimited_newline (level : nat) (X : str) :
  delimited (newline_indent level ++ X) = true.
Proof. done. Qed.

(** *** The equations of the scanner *)

Lemma array_loop_S (n : nat) (acc : list value) (s : str) :
  array_loop (S n) acc s
  = match scan_once n s with
    | Found v r =>
      match skip_ws r with
      | c :: r' =>
        if c =? 93 then Found (VList (rev (v :: acc))) r'
        else if c =? 44 then array_loop n (v :: acc) (skip_ws r')
        else Invalid
      | [] => Invalid
      end
    | Invalid => Invalid
    | Starved => Starved
    end.
Proof. done. Qed.

Lemma object_loop_S (n : nat) (acc : list (str * value)) (s : str) :
  object_loop (S n) acc s
  = match scanstring s with
    | None => Invalid
    | Some (key, r) =>
      match skip_ws r with
      | c :: r1 =>
        if c =? 58 then
          match scan_once n (skip_ws r1) with
          | Found v r2 =>
            match skip_ws r2 with
            | c' :: r3 =>
              if c' =? 125 then Found (VDict (dict_set key v acc)) r3
              else if c' =? 44 then
                match skip_ws r3 with
                | q :: r4 =>
                  if q =? 34 then object_loop n (dict_set key v acc) r4
                  else Invalid
                | [] => Invalid
                end
              else Invalid
            | [] => Invalid
            end
          | Invalid => Invalid
          | Starved => Starved
          end
        else Invalid
      | [] => Invalid
      end
    end.
Proof. done. Qed.

Lemma scan_once_string (n : nat) (s : str) :
  scan_once (S n) (34 :: s)
  = match scanstring s with
    | Some (x, r) => Found (VStr x) r
    | None => Invalid
    end.
Proof. done. Qed.

Lemma scan_once_array (n : nat) (s : str) :
  scan_once (S n) (91 :: s)
  = match skip_ws s with
    | c1 :: r =>
      if c1 =? 93 then Found (VList []) r else array_loop n [] (c1 :: r)
    | [] => Invalid
    end.
Proof. done. Qed.

Lemma scan_once_object (n : nat) (s : str) :
  scan_once (S n) (123 :: s)
  = match skip_ws s with
    | c1 :: r =>
      if c1 =? 125 then Found (VDict []) r
      else if c1 =? 34 then object_loop n [] r
      else Invalid
    | [] => Invalid
    end.
Proof. done. Qed.

Lemma scan_once_number (n : nat) (s rest : str) (v : value) :
  match_number s = Some (v, []) -> delimited rest = true ->
  scan_once (S n) (s ++ rest) = Found v rest.
Proof.
  intros Hm Hr.
  pose proof (match_number_app _ _ _ _ Hr Hm) as Happ.
  destruct (match_number_head _ _ _ Hm) as (c & s' & -> & Hc).
  assert (Hn : c ≠ 34 ∧ c ≠ 123 ∧ c ≠ 91 ∧ c ≠ 110 ∧ c ≠ 116 ∧ c ≠ 102).
  { destruct Hc as [-> | Hd]; [done|].
    unfold is_digit in Hd. apply andb_true_iff in Hd as [H1 H2].
    apply N.leb_le in H1, H2. repeat split; lia. }
  destruct Hn as (H34 & H123 & H91 & H110 & H116 & H102).
  change (scan_once (S n) ((c :: s') ++ rest))
    with (if c =? 34 then
            match scanstring (s' ++ rest) with
            | Some (x, r) => Found (VStr x) r
            | None => Invalid
            end
          else if c =? 123 then
            match skip_ws (s' ++ rest) with
            | c1 :: r =>
              if c1 =? 125 then Found (VDict []) r
              else if c1 =? 34 then object_loop n [] r
              else Invalid
            | [] => Invalid
            end
          else if c =? 91 then
            match skip_ws (s' ++ rest) with
            | c1 :: r =>
              if c1 =? 93 then Found (VList []) r else array_loop n [] (c1 :: r)
            | [] => Invalid
            end
          else if (c =? 110) && startswith (s' ++ rest) (txt "ull")
          then Found VNone (drop 4 (c :: s' ++ rest))
          else if (c =? 116) && startswith (s' ++ rest) (txt "rue")
          then Found (VBool true) (drop 4 (c :: s' ++ rest))
          else if (c =? 102) && startswith (s' ++ rest) (txt "alse")
          then Found (VBool false) (drop 5 (c :: s' ++ rest))
          else
            match match_number ((c :: s') ++ rest) with
            | Some (v, r) => Found v r
            | None =>
              if startswith (c :: s' ++ rest) (txt "NaN")
              then Found (VFloat float_nan) (drop 3 (c :: s' ++ rest))
              else if startswith (c :: s' ++ rest) (txt "Infinity")
              then Found (VFloat float_inf) (drop 8 (c :: s' ++ rest))
              else if startswith (c :: s' ++ rest) (txt "-Infinity")
              then Found (VFloat float_neg_inf) (drop 9 (c :: s' ++ rest))
              else Invalid
            end).
  rewrite (proj2 (N.eqb_neq c 34)), (proj2 (N.eqb_neq c 123)),
    (proj2 (N.eqb_neq c 91)), (proj2 (N.eqb_neq c 110)),
    (proj2 (N.eqb_neq c 116)), (proj2 (N.eqb_neq c 102)) by done.
  cbn [andb]. by rewrite Happ.
Qed.
End Structure.

Section Reading.
Context `{PyFloat}.

(** *** The first character of a value's text *)

Lemma number_starts_value (s r : str) (v : value) :
  match_number s = Some (v, r) -> starts_value s.
Proof.
  intros Hm. destruct (match_number_head _ _ _ Hm) as (c & s' & -> & Hc).
  exists c, s'. split; [done|].
  destruct Hc as [-> | Hd]; [done|].
  unfold is_digit in Hd. apply andb_true_iff in Hd as [H1 H2].
  apply N.leb_le in H1, H2. unfold is_ws.
  rewrite (proj2 (N.eqb_neq c 32)), (proj2 (N.eqb_neq c 9)),
    (proj2 (N.eqb_neq c 10)), (proj2 (N.eqb_neq c 13)) by lia.
  repeat split; [lia|lia].
Qed.

(** The text of a stable float and what the scanner makes of it. *)
Lemma float_stable_cases (x : float) :
  float_stable x = true ->
  floatstr (reread_float x) = floatstr x
  ∧ (match_number (floatstr x) = Some (VFloat (reread_float x), [])
     ∨ (floatstr x = txt "NaN" ∧ reread_float x = float_nan)
     ∨ (floatstr x = txt "Infinity" ∧ reread_float x = float_inf)
     ∨ (floatstr x = txt "-Infinity" ∧ reread_float x = float_neg_inf)).
Proof.
  unfold float_stable. intros Hs. apply andb_true_iff in Hs as [Heq Hs].
  apply bool_decide_eq_true in Heq. split; [done|].
  unfold floatstr, reread_float in *.
  destruct (float_classify x).
  - right. by left.
  - right. right. by left.
  - right. right. by right.
  - left. destruct (match_number (float_repr x)) as [[[| | |y| | |] [|c r]]|]; done.
Qed.

Lemma scan_once_float (n : nat) (x : float) (rest : str) :
  float_stable x = true -> delimited rest = true ->
  scan_once (S n) (floatstr x ++ rest) = Found (VFloat (reread_float x)) rest.
Proof.
  intros Hs Hr.
  destruct (float_stable_cases x Hs)
    as (_ & [Hm | [[-> ->] | [[-> ->] | [-> ->]]]]).
  - by apply scan_once_number.
  - by destruct rest.
  - by destruct rest.
  - by destruct rest.
Qed.

Lemma float_starts_value (x : float) :
  float_stable x = true -> starts_value (floatstr x).
Proof.
  intros Hs.
  destruct (float_stable_cases x Hs)
    as (_ & [Hm | [[-> _] | [[-> _] | [-> _]]]]).
  - by eapply number_starts_value.
  - by eexists _, _.
  - by eexists _, _.
  - by eexists _, _.
Qed.

Lemma iterencode_starts_value (level : nat) (v : value) :
  stable v = true -> starts_value (iterencode level v).
Proof.
  destruct v as [|[|]|z|x|s|[|e l]|[|kv d]]; intros Hs;
    try (by eexists _, _).
  - eapply number_starts_value, match_number_int_repr.
  - by apply float_starts_value.
Qed.

(** *** Lengths *)

Lemma join_length (sep : str) (chunks : list str) :
  (1 <= length sep)%nat ->
  (list_sum (map (fun x => S (length x)) chunks) <= S (length (join sep chunks)))%nat.
Proof.
  intros Hsep. induction chunks as [|x chunks IH]; [simpl; lia|].
  destruct chunks as [|y chunks]; [cbn [map list_sum fold_right join]; lia|].
  change (join sep (x :: y :: chunks)) with (x ++ sep ++ join sep (y :: chunks)).
  rewrite !length_app. cbn [map list_sum fold_right] in *. lia.
Qed.

Lemma item_separator_length (level : nat) : (1 <= length (item_separator level))%nat.
Proof. simpl. lia. Qed.

Lemma join_cons_app (sep x : str) (chunks : list str) (X : str) :
  join sep (x :: chunks) ++ X
  = x ++ match chunks with
         | [] => X
         | _ => sep ++ join sep chunks ++ X
         end.
Proof.
  destruct chunks as [|y chunks]; [done|].
  change (join sep (x :: y :: chunks)) with (x ++ sep ++ join sep (y :: chunks)).
  by rewrite <- !app_assoc.
Qed.

(** *** Arrays *)

Lemma array_loop_items (lv : nat) (l : list value) (rest : str) :
  Forall reads_back l ->
  Forall (fun e => stable e = true) l ->
  l ≠ [] ->
  ∀ acc fuel,
    (list_sum (map (fun e => S (length (iterencode (S lv) e))) l) <= fuel)%nat ->
    array_loop fuel acc
      (join (item_separator (S lv)) (map (iterencode (S lv)) l)
       ++ newline_indent lv ++ 93 :: rest)
    = Found (VList (rev acc ++ map reread l)) rest.
Proof.
  induction l as [|e l IHl]; [done|].
  intros Hback Hstable _ acc fuel Hfuel.
  apply Forall_cons in Hback as [He Hback].
  apply Forall_cons in Hstable as [Hse Hstable].
  cbn [map list_sum fold_right] in Hfuel.
  destruct fuel as [|m]; [lia|].
  cbn [map]. rewrite join_cons_app, array_loop_S.
  destruct l as [|e' l'].
  - cbn [map]. rewrite (He Hse) by (done || lia).
    rewrite skip_ws_newline_indent, skip_ws_head by done.
    change (93 =? 93) with true. cbv iota. done.
  - rewrite (He Hse) by (done || lia).
    specialize (IHl Hback Hstable).
    cbn [map] in *. unfold item_separator at 1.
    rewrite <- app_comm_cons, skip_ws_head by done.
    change (44 =? 93) with false. change (44 =? 44) with true. cbv iota.
    rewrite skip_ws_newline_indent.
    assert (Hnext : starts_value
              (join (item_separator (S lv))
                 (iterencode (S lv) e' :: map (iterencode (S lv)) l'))).
    { destruct (iterencode_starts_value (S lv) e')
        as (c & s' & Hc & Hrest); [by apply Forall_cons in Hstable as [? _]|].
      exists c. destruct (map (iterencode (S lv)) l') as [|y ys].
      - by exists s'.
      - change (join ?sep (?x :: y :: ys)) with (x ++ sep ++ join sep (y :: ys)).
        rewrite Hc. by eexists. }
    rewrite skip_ws_value by done.
    rewrite IHl by (done || (cbn [list_sum fold_right] in *; lia)).
    cbn [rev]. by rewrite <- app_assoc.
Qed.

(** *** Objects *)

Lemma dict_set_fresh (k : str) (v : value) (acc : list (str * value)) :
  k ∉ map fst acc -> dict_set k v acc = acc ++ [(k, v)].
Proof.
  induction acc as [|[k' v'] acc IH]; [done|]. intros Hk.
  apply not_elem_of_cons in Hk as [Hne Hk]. simpl.
  destruct (decide (k' = k)) as [->|_]; [done|]. by rewrite IH.
Qed.

Lemma item_text_app (lv : nat) (kv : str * value) (X : str) :
  item_text lv kv ++ X
  = 34 :: escape_body kv.1 ++ 34 :: 58 :: 32 :: iterencode (S lv) kv.2 ++ X.
Proof.
  unfold item_text, encode_basestring_ascii.
  rewrite <- !app_assoc, <- app_comm_cons, <- !app_assoc. done.
Qed.

Lemma object_loop_items (lv : nat) (d : list (str * value)) (rest : str) :
  Forall (fun kv : str * value => reads_back kv.2) d ->
  Forall (fun kv : str * value => plain_text kv.1 = true ∧ stable kv.2 = true) d ->
  ∀ (kv : str * value) acc fuel,
    reads_back kv.2 -> plain_text kv.1 = true -> stable kv.2 = true ->
    NoDup (map fst acc ++ kv.1 :: map fst d) ->
    (list_sum (map (fun kv : str * value => S (length (iterencode (S lv) kv.2)))
                 (kv :: d)) <= fuel)%nat ->
    object_loop fuel acc
      (escape_body kv.1 ++ 34 :: 58 :: 32 :: iterencode (S lv) kv.2
       ++ match map (item_text lv) d with
          | [] => newline_indent lv ++ 125 :: rest
          | _ => item_separator (S lv)
                 ++ join (item_separator (S lv)) (map (item_text lv) d)
                 ++ newline_indent lv ++ 125 :: rest
          end)
    = Found (VDict (acc ++ map (fun kv : str * value => (kv.1, reread kv.2))
                             (kv :: d))) rest.
Proof.
  induction d as [|kv2 d IHd];
    intros Hback Hstable kv acc fuel Hkv Hkey Hval Hnodup Hfuel.
  - cbn [map list_sum fold_right] in *.
    destruct fuel as [|m]; [lia|].
    rewrite object_loop_S, scanstring_escape_body by done.
    rewrite skip_ws_head by done. change (58 =? 58) with true. cbv iota.
    change (skip_ws (32 :: ?X)) with (skip_ws X).
    rewrite skip_ws_value by (by apply iterencode_starts_value).
    rewrite (Hkv Hval) by (done || lia).
    rewrite skip_ws_newline_indent, skip_ws_head by done.
    change (125 =? 125) with true. cbv iota.
    rewrite dict_set_fresh; [done|].
    apply NoDup_app in Hnodup as (_ & Hdisj & _).
    intros Hin. apply (Hdisj _ Hin). by left.
  - apply Forall_cons in Hback as [Hkv2 Hback].
    apply Forall_cons in Hstable as [[Hkey2 Hval2] Hstable].
    specialize (IHd Hback Hstable).
    cbn [map list_sum fold_right] in *.
    destruct fuel as [|m]; [lia|].
    rewrite object_loop_S, scanstring_escape_body by done.
    rewrite skip_ws_head by done. change (58 =? 58) with true. cbv iota.
    change (skip_ws (32 :: ?X)) with (skip_ws X).
    rewrite skip_ws_value by (by apply iterencode_starts_value).
    rewrite (Hkv Hval) by (done || lia).
    unfold item_separator at 1.
    rewrite <- app_comm_cons, skip_ws_head by done.
    change (44 =? 125) with false. change (44 =? 44) with true. cbv iota.
    rewrite skip_ws_newline_indent, join_cons_app, item_text_app.
    rewrite skip_ws_head by done. change (34 =? 34) with true. cbv iota.
    assert (Hfresh : kv.1 ∉ map fst acc).
    { apply NoDup_app in Hnodup as (_ & Hdisj & _).
      intros Hin. apply (Hdisj _ Hin). by left. }
    rewrite dict_set_fresh by done.
    rewrite IHd; [by rewrite <- app_assoc|done|done|done| |lia].
    by rewrite map_app, <- app_assoc.
Qed.
End Reading.

Section Main.
Context `{PyFloat}.

Lemma iterencode_nonempty (level : nat) (v : value) :
  stable v = true -> (1 <= length (iterencode level v))%nat.
Proof.
  intros Hs. destruct (iterencode_starts_value level v Hs) as (c & s' & -> & _).
  simpl. lia.
Qed.

Lemma iterencode_list (level : nat) (e : value) (l : list value) :
  iterencode level (VList (e :: l))
  = 91 :: newline_indent (S level)
    ++ join (item_separator (S level)) (map (iterencode (S level)) (e :: l))
    ++ newline_indent level ++ [93].
Proof. done. Qed.

Lemma iterencode_dict (level : nat) (kv : str * value) (d : list (str * value)) :
  iterencode level (VDict (kv :: d))
  = 123 :: newline_indent (S level)
    ++ join (item_separator (S level))
         (map (item_text level) (sort_items (kv :: d)))
    ++ newline_indent level ++ [125].
Proof.
  assert (Hm : ∀ L : list (str * value),
             map (item_text level) L
             = map (fun kc : str * str => encode_basestring_ascii kc.1 ++ [58; 32] ++ kc.2)
                 (map (fun kv : str * value => (kv.1, iterencode (S level) kv.2)) L)).
  { intros L. by rewrite map_map. }
  rewrite Hm, <- (sort_items_map (iterencode (S level))). done.
Qed.

Lemma join_starts_value (sep x : str) (chunks : list str) :
  starts_value x -> starts_value (join sep (x :: chunks)).
Proof.
  intros (c & s' & -> & Hc). exists c.
  destruct chunks as [|y ys]; [by exists s'|].
  change (join sep ((c :: s') :: y :: ys)) with ((c :: s') ++ sep ++ join sep (y :: ys)).
  by eexists.
Qed.

Lemma sort_items_cons {A} (kv : str * A) (l : list (str * A)) :
  ∃ kv' l', sort_items (kv :: l) = kv' :: l'.
Proof.
  pose proof (sort_items_perm (kv :: l)) as Hp.
  destruct (sort_items (kv :: l)) as [|kv' l']; [|by eexists _, _].
  by apply Permutation_nil_cons in Hp.
Qed.

(** The scanner reads the text of every stable value back. *)
Lemma iterencode_reads_back (v : value) : reads_back v.
Proof.
  induction v as [|t|z|x|s|l IHl|d IHd] using value_nested_ind;
    intros Hs level rest fuel Hr Hfuel.
  - destruct fuel as [|n]; [simpl in Hfuel; lia|]. by destruct rest.
  - destruct fuel as [|n]; [destruct t; simpl in Hfuel; lia|].
    by destruct t, rest.
  - pose proof (iterencode_nonempty level (VInt z) Hs).
    destruct fuel as [|n]; [lia|].
    apply scan_once_number; [apply match_number_int_repr | done].
  - pose proof (iterencode_nonempty level (VFloat x) Hs).
    destruct fuel as [|n]; [lia|]. by apply scan_once_float.
  - destruct fuel as [|n]; [simpl in Hfuel; lia|].
    cbn [iterencode reread]. unfold encode_basestring_ascii.
    rewrite <- app_comm_cons, <- app_assoc, scan_once_string.
    change ([34] ++ rest) with (34 :: rest).
    by rewrite scanstring_escape_body.
  - destruct l as [|e l].
    { destruct fuel as [|n]; [simpl in Hfuel; lia|]. done. }
    cbn [stable] in Hs.
    assert (Hstable : Forall (fun e => stable e = true) (e :: l)).
    { apply Forall_forall. intros y Hy.
      apply (proj1 (forallb_forall _ _) Hs). by apply list_elem_of_In. }
    rewrite iterencode_list in *.
    cbn [length] in Hfuel. rewrite !length_app in Hfuel.
    destruct fuel as [|n]; [lia|].
    rewrite <- app_comm_cons, <- !app_assoc. cbn [app].
    rewrite scan_once_array, skip_ws_newline_indent.
    assert (Hj : starts_value
              (join (item_separator (S level)) (map (iterencode (S level)) (e :: l)))).
    { apply join_starts_value, iterencode_starts_value.
      by apply Forall_cons in Hstable as [? _]. }
    rewrite skip_ws_value by done.
    destruct Hj as (c & s' & Hj & _ & H93 & _).
    rewrite Hj. rewrite <- app_comm_cons.
    rewrite (proj2 (N.eqb_neq c 93)) by done.
    rewrite app_comm_cons, <- Hj.
    rewrite (array_loop_items level (e :: l) rest IHl Hstable); [done|done|].
    pose proof (join_length (item_separator (S level))
                  (map (iterencode (S level)) (e :: l))
                  (item_separator_length (S level))) as Hlen.
    rewrite map_map in Hlen.
    cbn [length newline_indent] in Hfuel. lia.
  - destruct d as [|kv d].
    { destruct fuel as [|n]; [simpl in Hfuel; lia|]. done. }
    cbn [stable] in Hs. apply andb_true_iff in Hs as [Hall Hnodup].
    apply bool_decide_eq_true in Hnodup.
    assert (Hstable : Forall (fun kv : str * value =>
                                plain_text kv.1 = true ∧ stable kv.2 = true)
                        (sort_items (kv :: d))).
    { rewrite sort_items_perm. apply Forall_forall. intros y Hy.
      apply andb_true_iff, (proj1 (forallb_forall _ _) Hall).
      by apply list_elem_of_In. }
    assert (Hback : Forall (fun kv : str * value => reads_back kv.2)
                      (sort_items (kv :: d))) by (by rewrite sort_items_perm).
    assert (Hkeys : NoDup (map fst (sort_items (kv :: d))))
      by (by rewrite sort_items_perm).
    cbn [reread]. rewrite sort_items_map.
    rewrite iterencode_dict in *.
    destruct (sort_items_cons kv d) as (kv1 & d1 & Hsort). rewrite Hsort in *.
    apply Forall_cons in Hstable as [[Hkey1 Hval1] Hstable].
    apply Forall_cons in Hback as [Hkv1 Hback].
    cbn [length] in Hfuel. rewrite !length_app in Hfuel.
    destruct fuel as [|n]; [lia|].
    rewrite <- app_comm_cons, <- !app_assoc. cbn [app].
    rewrite scan_once_object, skip_ws_newline_indent.
    cbn [map]. rewrite join_cons_app, item_text_app.
    rewrite skip_ws_head by done.
    change (34 =? 125) with false. change (34 =? 34) with true. cbv iota.
    rewrite (object_loop_items level d1 rest Hback Hstable kv1 []); try done.
    pose proof (join_length (item_separator (S level))
                  (map (item_text level) (kv1 :: d1))
                  (item_separator_length (S level))) as Hlen.
    rewrite map_map in Hlen.
    assert (Hitems :
      (list_sum (map (fun kv : str * value => S (length (iterencode (S level) kv.2)))
                   (kv1 :: d1))
       <= list_sum (map (fun x : str * value => S (length (item_text level x)))
                      (kv1 :: d1)))%nat).
    { clear. induction (kv1 :: d1) as [|y ys IH]; [done|].
      cbn [map list_sum fold_right] in *. unfold item_text at 1.
      rewrite !length_app. unfold list_sum in *. lia. }
    cbn [length newline_indent] in Hfuel. lia.
Qed.
End Main.

Section Idempotence.
Context `{PyFloat}.

(** Decoding the encoder's text of a stable value gives the value back, up to
    the order of the items of its dicts and the identity of its floats. *)
Lemma loads_dumps (v : value) :
  stable v = true -> loads (dumps v) = Some (reread v).
Proof.
  intros Hs. unfold dumps, loads.
  pose proof (iterencode_reads_back v Hs 0%nat [] (2 * length (iterencode 0 v) + 1)%nat
                eq_refl) as Hscan.
  rewrite app_nil_r in Hscan.
  destruct (iterencode_starts_value 0 v Hs) as (c & s' & Hc & Hws & _ & Hbom).
  rewrite Hc in *.
  change (startswith (c :: s') [65279]) with ((c =? 65279) && startswith s' []).
  rewrite (proj2 (N.eqb_neq c 65279)) by done. cbn [andb].
  rewrite skip_ws_head by done.
  rewrite Hscan by lia. done.
Qed.

(** The reread value has the same text. *)
Lemma iterencode_reread (v : value) :
  stable v = true -> ∀ level, iterencode level (reread v) = iterencode level v.
Proof.
  induction v as [|t|z|x|s|l IHl|d IHd] using value_nested_ind;
    intros Hs level; try done.
  - by destruct (float_stable_cases x Hs) as [Heq _].
  - destruct l as [|e l]; [done|].
    cbn [stable] in Hs.
    assert (Hmap : map (iterencode (S level)) (map reread (e :: l))
                   = map (iterencode (S level)) (e :: l)).
    { rewrite map_map. apply map_ext_in. intros y Hy.
      apply (proj1 (Forall_forall _ _) IHl).
      - by apply list_elem_of_In.
      - by apply (proj1 (forallb_forall _ _) Hs). }
    cbn [reread]. cbn [map] in *. rewrite !iterencode_list. cbn [map].
    by rewrite Hmap.
  - destruct d as [|kv d]; [done|].
    cbn [stable] in Hs. apply andb_true_iff in Hs as [Hall _].
    cbn [reread].
    destruct (sort_items_cons (kv.1, reread kv.2)
                (map (fun kv : str * value => (kv.1, reread kv.2)) d))
      as (kv' & d' & Hsort).
    cbn [map]. rewrite Hsort, !iterencode_dict, <- Hsort.
    change ((kv.1, reread kv.2) :: map (fun kv : str * value => (kv.1, reread kv.2)) d)
      with (map (fun kv : str * value => (kv.1, reread kv.2)) (kv :: d)).
    rewrite sort_items_idemp, sort_items_map, map_map.
    assert (Hmap : map (fun x : str * value => item_text level (x.1, reread x.2))
                     (sort_items (kv :: d))
                   = map (item_text level) (sort_items (kv :: d))).
    { apply map_ext_in. intros y Hy. unfold item_text. cbn [fst snd].
      apply list_elem_of_In in Hy. rewrite sort_items_perm in Hy.
      rewrite (proj1 (Forall_forall _ _) IHd y Hy); [done|].
      apply list_elem_of_In in Hy.
      pose proof (proj1 (forallb_forall _ _) Hall y Hy) as Hy'.
      by apply andb_true_iff in Hy' as [_ ?]. }
    by rewrite Hmap.
Qed.

(** Formatting the formatter's output gives that output again: for text that
    decodes to a stable value, the formatted text decodes to a value with the
    same formatted text. *)
Theorem format_report_idempotent (x : str) (v : value) :
  loads x = Some v ->
  stable v = true ->
  format_report (Text x) = Ok (dumps v)
  ∧ (∀ bs, utf8_decode bs = Some x -> format_report (Bytes bs) = Ok (dumps v))
  ∧ loads (dumps v) = Some (reread v)
  ∧ format_report (Text (dumps v)) = Ok (dumps v).
Proof.
  intros Hl Hs. unfold format_report.
  split; [by rewrite Hl|]. split; [intros bs ->; by rewrite Hl|].
  rewrite (loads_dumps v Hs). split; [done|].
  unfold dumps. by rewrite iterencode_reread.
Qed.
End Idempotence.

(** * The formatter on UTF-8 bodies *)

Section Decoded.
Context `{PyFloat}.

Ltac euclid := zify; Z.to_euclidean_division_equations; lia.

Lemma scalar_text_cons (c : N) (s : str) :
  scalar_text (c :: s) = true
  <-> (c < 0x110000 ∧ is_surrogate c = false) ∧ scalar_text s = true.
Proof.
  unfold scalar_text. cbn [forallb].
  rewrite !andb_true_iff, negb_true_iff, N.ltb_lt. done.
Qed.

Lemma scalar_text_suffix (r s : str) :
  r `suffix_of` s -> scalar_text s = true -> scalar_text r = true.
Proof.
  intros [k ->]. unfold scalar_text. rewrite forallb_app.
  intros Hs. by apply andb_true_iff in Hs as [_ ?].
Qed.

Lemma not_surrogate (c : N) : c < 0xD800 ∨ 0xDFFF < c -> is_surrogate c = false.
Proof.
  intros Hc. unfold is_surrogate. apply andb_false_iff.
  destruct Hc; [left; by apply N.leb_gt | right; by apply N.leb_gt].
Qed.

(** The strict decoder gives scalar text. *)
Lemma utf8_decode_N_scalar (n : nat) :
  ∀ bs x, (length bs <= n)%nat -> utf8_decode_N bs = Some x -> scalar_text x = true.
Proof.
  induction n as [|n IH]; intros bs x Hlen Hd.
  { destruct bs; [by injection Hd as <-|simpl in Hlen; lia]. }
  destruct bs as [|b0 r0]; [by injection Hd as <-|].
  cbn [utf8_decode_N] in Hd. cbn [length] in Hlen.
  destruct (b0 <? 0x80) eqn:H0.
  { apply fmap_Some in Hd as (x' & Hx' & ->). apply N.ltb_lt in H0.
    apply scalar_text_cons. split; [|apply (IH r0); [lia|done]].
    split; [lia|]. apply not_surrogate. lia. }
  destruct ((0xC2 <=? b0) && (b0 <=? 0xDF)) eqn:H2.
  { destruct r0 as [|b1 r1]; [done|]. cbn [length] in Hlen.
    destruct (continuation b1) eqn:Hc1; [|done].
    apply fmap_Some in Hd as (x' & Hx' & ->).
    apply andb_true_iff in H2 as [Ha Hb]. apply N.leb_le in Ha, Hb.
    unfold continuation in Hc1. apply andb_true_iff in Hc1 as [Hc Hd].
    apply N.leb_le in Hc, Hd.
    apply scalar_text_cons. split; [|apply (IH r1); [lia|done]].
    split; [lia|]. apply not_surrogate. lia. }
  destruct ((0xE0 <=? b0) && (b0 <=? 0xEF)) eqn:H3.
  { destruct r0 as [|b1 [|b2 r2]]; [done|done|]. cbn [length] in Hlen.
    match type of Hd with (if ?c then _ else _) = _ => destruct c eqn:Hcond end;
      [|done].
    apply fmap_Some in Hd as (x' & Hx' & ->).
    apply andb_true_iff in H3 as [Ha Hb]. apply N.leb_le in Ha, Hb.
    apply andb_true_iff in Hcond as [Hcond Hed].
    apply andb_true_iff in Hcond as [Hcond He0].
    apply andb_true_iff in Hcond as [Hc1 Hc2].
    unfold continuation in Hc1, Hc2.
    apply andb_true_iff in Hc1 as [Hc1 Hc1'].
    apply andb_true_iff in Hc2 as [Hc2 Hc2'].
    apply N.leb_le in Hc1, Hc1', Hc2, Hc2'.
    apply negb_true_iff, andb_false_iff in Hed.
    apply scalar_text_cons. split; [|apply (IH r2); [lia|done]].
    split; [lia|]. apply not_surrogate.
    destruct Hed as [Hed|Hed].
    - apply N.eqb_neq in Hed. lia.
    - apply N.ltb_ge in Hed. lia. }
  destruct ((0xF0 <=? b0) && (b0 <=? 0xF4)) eqn:H4; [|done].
  destruct r0 as [|b1 [|b2 [|b3 r3]]]; [done|done|done|]. cbn [length] in Hlen.
  match type of Hd with (if ?c then _ else _) = _ => destruct c eqn:Hcond end;
    [|done].
  apply fmap_Some in Hd as (x' & Hx' & ->).
  apply andb_true_iff in H4 as [Ha Hb]. apply N.leb_le in Ha, Hb.
  apply andb_true_iff in Hcond as [Hcond Hf4].
  apply andb_true_iff in Hcond as [Hcond Hf0].
  apply andb_true_iff in Hcond as [Hcond Hc3].
  apply andb_true_iff in Hcond as [Hc1 Hc2].
  unfold continuation in Hc1, Hc2, Hc3.
  apply andb_true_iff in Hc1 as [Hc1 Hc1'].
  apply andb_true_iff in Hc2 as [Hc2 Hc2'].
  apply andb_true_iff in Hc3 as [Hc3 Hc3'].
  apply N.leb_le in Hc1, Hc1', Hc2, Hc2', Hc3, Hc3'.
  apply negb_true_iff, andb_false_iff in Hf4.
  apply negb_true_iff, andb_false_iff in Hf0.
  apply scalar_text_cons. split; [|apply (IH r3); [lia|done]].
  assert (Hb1 : b0 < 0xF4 ∨ b1 <= 0x8F).
  { destruct Hf4 as [Hf|Hf]; [apply N.eqb_neq in Hf; lia|apply N.ltb_ge in Hf; lia]. }
  assert (Hb2 : 0xF0 < b0 ∨ 0x90 <= b1).
  { destruct Hf0 as [Hf|Hf]; [apply N.eqb_neq in Hf; lia|apply N.ltb_ge in Hf; lia]. }
  split; [lia|]. apply not_surrogate. lia.
Qed.

Lemma utf8_decode_scalar (bs : bytes) (x : str) :
  utf8_decode bs = Some x -> scalar_text x = true.
Proof. apply (utf8_decode_N_scalar (length (map Byte.to_N bs))). done. Qed.
End Decoded.

Section Scanned.
Context `{PyFloat}.

Ltac euclid := zify; Z.to_euclidean_division_equations; lia.

Lemma hex_value_lt (c v : N) : hex_value c = Some v -> v < 16.
Proof.
  unfold hex_value, is_digit.
  destruct ((48 <=? c) && (c <=? 57)) eqn:H1.
  { apply andb_true_iff in H1 as [Ha Hb]. apply N.leb_le in Ha, Hb.
    intros [= <-]. lia. }
  destruct ((97 <=? c) && (c <=? 102)) eqn:H2.
  { apply andb_true_iff in H2 as [Ha Hb]. apply N.leb_le in Ha, Hb.
    intros [= <-]. lia. }
  destruct ((65 <=? c) && (c <=? 70)) eqn:H3; [|done].
  apply andb_true_iff in H3 as [Ha Hb]. apply N.leb_le in Ha, Hb.
  intros [= <-]. lia.
Qed.

Lemma decode_hex4_lt (h1 h2 h3 h4 c : N) :
  decode_hex4 h1 h2 h3 h4 = Some c -> c < 0x10000.
Proof.
  unfold decode_hex4.
  destruct (hex_value h1) as [a|] eqn:Ha; [|done].
  destruct (hex_value h2) as [b|] eqn:Hb; [|done].
  destruct (hex_value h3) as [c'|] eqn:Hc; [|done].
  destruct (hex_value h4) as [d|] eqn:Hd; [|done].
  apply hex_value_lt in Ha, Hb, Hc, Hd. intros [= <-].
  rewrite !lor_shiftl_add by done. change (2 ^ 4) with 16. lia.
Qed.

Lemma join_surrogates_range (c1 c2 : N) :
  0x10000 <= join_surrogates c1 c2 ∧ join_surrogates c1 c2 < 0x110000.
Proof.
  unfold join_surrogates. change 0x3FF with (N.ones 10).
  rewrite !N.land_ones.
  rewrite lor_shiftl_add by (by apply N.mod_lt).
  change (2 ^ 10) with 1024. euclid.
Qed.

Lemma simple_escape_small (e c : N) : simple_escape e = Some c -> c <= 92.
Proof.
  unfold simple_escape.
  repeat match goal with
         | |- context [if ?b then _ else _] => destruct b
         end; intros [= <-]; lia.
Qed.

Lemma push_Some (c : N) (m : option (str * str)) (x r : str) :
  push c m = Some (x, r) -> ∃ x', m = Some (x', r) ∧ x = c :: x'.
Proof. destruct m as [[x' r']|]; [|done]. intros [= <- <-]. by exists x'. Qed.

Lemma plain_text_cons (c : N) (x : str) :
  c < 0x110000 ->
  (∀ c' x', x = c' :: x' -> is_high_surrogate c = true ->
            is_low_surrogate c' = false) ->
  plain_text x = true ->
  plain_text (c :: x) = true.
Proof.
  unfold plain_text. intros Hc Hpair Hx.
  apply andb_true_iff in Hx as [Hall Hfree].
  apply andb_true_iff. split.
  - cbn [forallb]. rewrite Hall. by rewrite (proj2 (N.ltb_lt _ _) Hc).
  - change (pair_free (c :: x))
      with (match x with
            | c' :: _ => negb (is_high_surrogate c && is_low_surrogate c')
            | [] => true
            end && pair_free x).
    rewrite Hfree, andb_true_r. destruct x as [|c' x']; [done|].
    destruct (is_high_surrogate c) eqn:Hh; [|done].
    by rewrite (Hpair c' x' eq_refl eq_refl).
Qed.

Lemma surrogate_parts (c : N) :
  is_surrogate c = false ->
  is_high_surrogate c = false ∧ is_low_surrogate c = false.
Proof.
  unfold is_surrogate, is_high_surrogate, is_low_surrogate. intros Hc.
  apply andb_false_iff in Hc.
  split; apply andb_false_iff;
    destruct Hc as [Hc|Hc]; apply N.leb_gt in Hc;
    (left; apply N.leb_gt; lia) || (right; apply N.leb_gt; lia).
Qed.

Lemma high_not_low (c : N) : is_high_surrogate c = true -> is_low_surrogate c = false.
Proof.
  unfold is_high_surrogate, is_low_surrogate. intros Hc.
  apply andb_true_iff in Hc as [_ Hc]. apply N.leb_le in Hc.
  apply andb_false_iff. left. apply N.leb_gt. lia.
Qed.

Lemma astral_not_surrogate (c : N) :
  0x10000 <= c -> is_high_surrogate c = false ∧ is_low_surrogate c = false.
Proof. intros Hc. apply surrogate_parts, not_surrogate. lia. Qed.

(** The two ways the scanner goes on after the escape of a high surrogate. *)
Lemma after_high_cases (c1 : N) (s3 : str) (res : str * str) :
  match s3 with
  | b1 :: b2 :: k1 :: k2 :: k3 :: k4 :: s5 =>
    if (b1 =? 92) && (b2 =? 117) then
      match decode_hex4 k1 k2 k3 k4 with
      | None => None
      | Some c2 =>
        if is_low_surrogate c2
        then push (join_surrogates c1 c2) (scanstring s5)
        else push c1 (scanstring s3)
      end
    else push c1 (scanstring s3)
  | _ => push c1 (scanstring s3)
  end = Some res ->
  (∃ k1 k2 k3 k4 s5 c2,
      s3 = 92 :: 117 :: k1 :: k2 :: k3 :: k4 :: s5
      ∧ push (join_surrogates c1 c2) (scanstring s5) = Some res)
  ∨ (push c1 (scanstring s3) = Some res ∧ ¬ low_escape_start s3).
Proof.
  destruct s3 as [|b1 [|b2 [|k1 [|k2 [|k3 [|k4 s5]]]]]];
    try (intros Hp; right; split; [done|];
         intros (? & ? & ? & ? & ? & ? & Heq & _); discriminate Heq).
  destruct (N.eqb_spec b1 92) as [->|Hb1].
  2:{ intros Hp. right. split; [done|].
      intros (? & ? & ? & ? & ? & ? & Heq & _). by injection Heq. }
  destruct (N.eqb_spec b2 117) as [->|Hb2].
  2:{ intros Hp. right. split; [done|].
      intros (? & ? & ? & ? & ? & ? & Heq & _). by injection Heq. }
  cbn [andb]. destruct (decode_hex4 k1 k2 k3 k4) as [c2|] eqn:Hd; [|done].
  destruct (is_low_surrogate c2) eqn:Hl.
  - intros Hp. left. by exists k1, k2, k3, k4, s5, c2.
  - intros Hp. right. split; [done|].
    intros (? & ? & ? & ? & ? & c2' & Heq & Hd' & Hl').
    injection Heq as <- <- <- <- <-. congruence.
Qed.

(** On scalar text the scanner returns plain text and leaves scalar text; a
    low surrogate at the head of what it returns was written as an escape. *)
Lemma scanstring_scalar (n : nat) :
  ∀ s x r,
    (length s <= n)%nat -> scalar_text s = true -> scanstring s = Some (x, r) ->
    plain_text x = true
    ∧ scalar_text r = true
    ∧ (∀ c x', x = c :: x' -> is_low_surrogate c = true -> low_escape_start s).
Proof.
  induction n as [|n IH]; intros s x r Hlen Hs Hscan.
  { destruct s; [done|simpl in Hlen; lia]. }
  destruct s as [|c s1]; [done|]. cbn [length] in Hlen.
  apply scalar_text_cons in Hs as [[Hc Hsur] Hs1].
  destruct (N.eqb_spec c 34) as [->|H34].
  { injection Hscan as <- <-. done. }
  destruct (N.eqb_spec c 92) as [->|H92].
  - destruct s1 as [|e s2]; [done|]. cbn [length] in Hlen.
    apply scalar_text_cons in Hs1 as [_ Hs2].
    destruct (N.eqb_spec e 117) as [->|H117].
    + destruct s2 as [|h1 [|h2 [|h3 [|h4 s3]]]]; try done.
      cbn [length] in Hlen.
      assert (Hs3 : scalar_text s3 = true).
      { apply (scalar_text_suffix _ (h1 :: h2 :: h3 :: h4 :: s3)); [|done].
        by exists [h1; h2; h3; h4]. }
      change (scanstring (92 :: 117 :: h1 :: h2 :: h3 :: h4 :: s3))
        with (match decode_hex4 h1 h2 h3 h4 with
              | None => None
              | Some c1 =>
                if is_high_surrogate c1 then
                  match s3 with
                  | b1 :: b2 :: k1 :: k2 :: k3 :: k4 :: s5 =>
                    if (b1 =? 92) && (b2 =? 117) then
                      match decode_hex4 k1 k2 k3 k4 with
                      | None => None
                      | Some c2 =>
                        if is_low_surrogate c2
                        then push (join_surrogates c1 c2) (scanstring s5)
                        else push c1 (scanstring s3)
                      end
                    else push c1 (scanstring s3)
                  | _ => push c1 (scanstring s3)
                  end
                else push c1 (scanstring s3)
              end) in Hscan.
      destruct (decode_hex4 h1 h2 h3 h4) as [c1|] eqn:Hd; [|done].
      pose proof (decode_hex4_lt _ _ _ _ _ Hd) as Hc1.
      destruct (is_high_surrogate c1) eqn:Hh.
      * apply after_high_cases in Hscan
          as [(k1 & k2 & k3 & k4 & s5 & c2 & -> & Hp) | [Hp Hno]].
        -- apply push_Some in Hp as (x' & Hx' & ->). cbn [length] in Hlen.
           assert (Hs5 : scalar_text s5 = true).
           { apply (scalar_text_suffix _ (92 :: 117 :: k1 :: k2 :: k3 :: k4 :: s5));
               [|done]. by exists [92; 117; k1; k2; k3; k4]. }
           destruct (IH s5 x' r) as (Hplain & Hr & _); [lia|done|done|].
           pose proof (join_surrogates_range c1 c2) as [Hj1 Hj2].
           destruct (astral_not_surrogate _ Hj1) as [Hjh Hjl].
           split; [|split; [done|]].
           ++ apply plain_text_cons; [done| |done]. intros. congruence.
           ++ intros c' x'' [= <- <-]. congruence.
        -- apply push_Some in Hp as (x' & Hx' & ->).
           destruct (IH s3 x' r) as (Hplain & Hr & Hhead); [lia|done|done|].
           split; [|split; [done|]].
           ++ apply plain_text_cons; [lia| |done].
              intros c' x'' -> _.
              destruct (is_low_surrogate c') eqn:Hl; [|done].
              destruct Hno. by apply (Hhead c' x'').
           ++ intros c' x'' [= <- <-] Hl.
              by rewrite (high_not_low _ Hh) in Hl.
      * apply push_Some in Hscan as (x' & Hx' & ->).
        destruct (IH s3 x' r) as (Hplain & Hr & _); [lia|done|done|].
        split; [|split; [done|]].
        -- apply plain_text_cons; [lia| |done]. intros. congruence.
        -- intros c' x'' [= <- <-] Hl.
           by exists h1, h2, h3, h4, s3, c1.
    + cbn [scanstring] in Hscan.
      change (92 =? 34) with false in Hscan. change (92 =? 92) with true in Hscan.
      cbv iota in Hscan.
      rewrite (proj2 (N.eqb_neq e 117)) in Hscan by done.
      destruct (simple_escape e) as [c'|] eqn:He; [|done].
      apply push_Some in Hscan as (x' & Hx' & ->).
      pose proof (simple_escape_small _ _ He) as Hc'.
      destruct (IH s2 x' r) as (Hplain & Hr & _); [lia|done|done|].
      destruct (surrogate_parts c') as [Hnh Hnl]; [apply not_surrogate; lia|].
      split; [|split; [done|]].
      * apply plain_text_cons; [lia| |done]. intros. congruence.
      * intros c'' x'' [= <- <-]. congruence.
  - cbn [scanstring] in Hscan.
    rewrite (proj2 (N.eqb_neq c 34)), (proj2 (N.eqb_neq c 92)) in Hscan by done.
    destruct (c <=? 0x1F); [done|].
    apply push_Some in Hscan as (x' & Hx' & ->).
    destruct (IH s1 x' r) as (Hplain & Hr & _); [lia|done|done|].
    destruct (surrogate_parts c Hsur) as [Hnh Hnl].
    split; [|split; [done|]].
    + apply plain_text_cons; [done| |done]. intros. congruence.
    + intros c' x'' [= <- <-]. congruence.
Qed.
End Scanned.

Section Parsed.
Context `{PyFloat}.

(** *** What the scanners leave *)

Lemma skip_ws_suffix (s : str) : skip_ws s `suffix_of` s.
Proof.
  induction s as [|c s IH]; [done|]. simpl.
  destruct (is_ws c); [by apply suffix_cons_r|done].
Qed.

Lemma span_digits_suffix (s : str) : (span_digits s).2 `suffix_of` s.
Proof.
  induction s as [|c s IH]; [done|]. simpl.
  destruct (is_digit c); [|done].
  destruct (span_digits s) as [ds r]. by apply suffix_cons_r.
Qed.

Lemma match_sign_suffix (s : str) : (match_sign s).2 `suffix_of` s.
Proof.
  destruct s as [|c s]; [done|]. simpl.
  destruct (c =? 45); [by apply suffix_cons_r|done].
Qed.

Lemma match_integer_suffix (s ip r : str) :
  match_integer s = Some (ip, r) -> r `suffix_of` s.
Proof.
  destruct s as [|c s]; [done|]. simpl.
  destruct (c =? 48); [intros [= <- <-]; by apply suffix_cons_r|].
  destruct (is_digit c); [|done].
  pose proof (span_digits_suffix s) as Hs.
  destruct (span_digits s) as [ds r']. intros [= <- <-].
  by apply suffix_cons_r.
Qed.

Lemma match_frac_suffix (s : str) : (match_frac s).2 `suffix_of` s.
Proof.
  destruct s as [|p [|d s]]; [done|done|]. simpl.
  destruct ((p =? 46) && is_digit d); [|done].
  pose proof (span_digits_suffix s) as Hs.
  destruct (span_digits s) as [ds r]. by do 2 apply suffix_cons_r.
Qed.

Lemma match_exp_suffix (s : str) : (match_exp s).2 `suffix_of` s.
Proof.
  destruct s as [|e s]; [done|]. simpl.
  destruct ((e =? 101) || (e =? 69)); [|done].
  destruct s as [|c s]; [done|].
  destruct ((c =? 45) || (c =? 43)).
  - pose proof (span_digits_suffix s) as Hs.
    destruct (span_digits s) as [[|d ds] r]; [done|].
    by do 2 apply suffix_cons_r.
  - pose proof (span_digits_suffix (c :: s)) as Hs.
    destruct (span_digits (c :: s)) as [[|d ds] r]; [done|].
    by apply suffix_cons_r.
Qed.

Lemma match_number_well_formed (s r : str) (v : value) :
  match_number s = Some (v, r) -> well_formed v = true ∧ r `suffix_of` s.
Proof.
  unfold match_number.
  pose proof (match_sign_suffix s) as H1.
  destruct (match_sign s) as [sg s1].
  destruct (match_integer s1) as [[ip s2]|] eqn:Hi; [|done].
  apply match_integer_suffix in Hi.
  pose proof (match_frac_suffix s2) as H3.
  destruct (match_frac s2) as [fr s3].
  pose proof (match_exp_suffix s3) as H4.
  destruct (match_exp s3) as [ex s4].
  cbn [fst snd] in *.
  assert (Hsuf : s4 `suffix_of` s) by (by repeat (etrans; [eassumption|])).
  destruct fr, ex; by intros [= <- <-].
Qed.

(** *** Lists and dicts that are built item by item *)

Lemma forallb_Forall {A} (f : A -> bool) (l : list A) :
  forallb f l = true <-> Forall (fun x => f x = true) l.
Proof.
  induction l as [|x l IH]; [done|]. cbn [forallb].
  by rewrite andb_true_iff, Forall_cons, IH.
Qed.

Lemma well_formed_dict (d : list (str * value)) :
  well_formed (VDict d) = true
  <-> Forall (fun kv : str * value =>
                plain_text kv.1 = true ∧ well_formed kv.2 = true) d
      ∧ NoDup (map fst d).
Proof.
  cbn [well_formed]. rewrite andb_true_iff, bool_decide_eq_true, forallb_Forall.
  split; intros [Hall ?]; (split; [|done]);
    eapply Forall_impl; try exact Hall; intros kv; cbv beta;
    by rewrite andb_true_iff.
Qed.

Lemma dict_set_Forall (P : str * value -> Prop) (k : str) (v : value)
      (acc : list (str * value)) :
  Forall P acc -> P (k, v) -> Forall P (dict_set k v acc).
Proof.
  intros Hacc Hkv. induction acc as [|[k' v'] acc IH]; simpl.
  - by constructor.
  - apply Forall_cons in Hacc as [Hk' Hacc].
    destruct (decide (k' = k)) as [->|_]; constructor; auto.
Qed.

Lemma dict_set_key (x k : str) (v : value) (acc : list (str * value)) :
  x ∈ map fst (dict_set k v acc) -> x = k ∨ x ∈ map fst acc.
Proof.
  induction acc as [|[k' v'] acc IH]; simpl.
  - intros Hx. apply list_elem_of_singleton in Hx. by left.
  - destruct (decide (k' = k)) as [->|_]; simpl.
    + by right.
    + intros Hx. apply elem_of_cons in Hx as [->|Hx].
      * right. by left.
      * destruct (IH Hx) as [->|Hin]; [by left|]. right. by right.
Qed.

Lemma dict_set_NoDup (k : str) (v : value) (acc : list (str * value)) :
  NoDup (map fst acc) -> NoDup (map fst (dict_set k v acc)).
Proof.
  induction acc as [|[k' v'] acc IH]; simpl.
  - intros _. apply NoDup_singleton.
  - intros Hnd. apply NoDup_cons in Hnd as [Hk' Hnd].
    destruct (decide (k' = k)) as [->|Hne]; simpl.
    + by apply NoDup_cons.
    + apply NoDup_cons. split; [|by apply IH].
      intros Hx. destruct (dict_set_key _ _ _ _ Hx) as [->|Hin]; done.
Qed.

Lemma dict_set_well_formed (k : str) (v : value) (acc : list (str * value)) :
  well_formed (VDict acc) = true -> plain_text k = true -> well_formed v = true ->
  well_formed (VDict (dict_set k v acc)) = true.
Proof.
  rewrite !well_formed_dict. intros [Hall Hnd] Hk Hv. split.
  - by apply dict_set_Forall.
  - by apply dict_set_NoDup.
Qed.

(** *** The scanner on scalar text *)

Lemma scan_once_S (n : nat) (s : str) :
  scan_once (S n) s
  = match s with
    | [] => Invalid
    | c :: s' =>
      if c =? 34 then
        match scanstring s' with
        | Some (x, r) => Found (VStr x) r
        | None => Invalid
        end
      else if c =? 123 then
        match skip_ws s' with
        | c1 :: r =>
          if c1 =? 125 then Found (VDict []) r
          else if c1 =? 34 then object_loop n [] r
          else Invalid
        | [] => Invalid
        end
      else if c =? 91 then
        match skip_ws s' with
        | c1 :: r =>
          if c1 =? 93 then Found (VList []) r else array_loop n [] (c1 :: r)
        | [] => Invalid
        end
      else if startswith s (txt "null") then Found VNone (drop 4 s)
      else if startswith s (txt "true") then Found (VBool true) (drop 4 s)
      else if startswith s (txt "false") then Found (VBool false) (drop 5 s)
      else
        match match_number s with
        | Some (v, r) => Found v r
        | None =>
          if startswith s (txt "NaN") then Found (VFloat float_nan) (drop 3 s)
          else if startswith s (txt "Infinity")
          then Found (VFloat float_inf) (drop 8 s)
          else if startswith s (txt "-Infinity")
          then Found (VFloat float_neg_inf) (drop 9 s)
          else Invalid
        end
    end.
Proof. by destruct s. Qed.

(** Whatever the scanner finds on scalar text is well formed, and scalar text
    is left. *)
Lemma scan_well_formed (fuel : nat) :
  (∀ s v r, scalar_text s = true -> scan_once fuel s = Found v r ->
            well_formed v = true ∧ scalar_text r = true)
  ∧ (∀ acc s v r,
        scalar_text s = true -> Forall (fun e => well_formed e = true) acc ->
        array_loop fuel acc s = Found v r ->
        well_formed v = true ∧ scalar_text r = true)
  ∧ (∀ acc s v r,
        scalar_text s = true -> well_formed (VDict acc) = true ->
        object_loop fuel acc s = Found v r ->
        well_formed v = true ∧ scalar_text r = true).
Proof.
  induction fuel as [|n (IHscan & IHarray & IHobject)]; [done|].
  split; [|split].
  - intros s v r Hs. rewrite scan_once_S.
    destruct s as [|c s']; [done|].
    pose proof Hs as Hs'. apply scalar_text_cons in Hs' as [_ Hs'].
    pose proof (scalar_text_suffix _ _ (skip_ws_suffix s') Hs') as Hskip.
    destruct (c =? 34).
    { destruct (scanstring s') as [[x r']|] eqn:Hx; [|done].
      intros [= <- <-].
      by destruct (scanstring_scalar _ _ _ _ (le_n _) Hs' Hx) as (? & ? & _). }
    destruct (c =? 123).
    { destruct (skip_ws s') as [|c1 r']; [done|].
      apply scalar_text_cons in Hskip as [_ Hr'].
      destruct (c1 =? 125); [by intros [= <- <-]|].
      destruct (c1 =? 34); [|done]. by apply IHobject. }
    destruct (c =? 91).
    { destruct (skip_ws s') as [|c1 r'] eqn:Hsk; [done|].
      destruct (c1 =? 93).
      - apply scalar_text_cons in Hskip as [_ Hr']. by intros [= <- <-].
      - by apply IHarray. }
    destruct (startswith (c :: s') (txt "null")).
    { intros [= <- <-]. split; [done|].
      by apply (scalar_text_suffix _ _ (suffix_drop _ _)). }
    destruct (startswith (c :: s') (txt "true")).
    { intros [= <- <-]. split; [done|].
      by apply (scalar_text_suffix _ _ (suffix_drop _ _)). }
    destruct (startswith (c :: s') (txt "false")).
    { intros [= <- <-]. split; [done|].
      by apply (scalar_text_suffix _ _ (suffix_drop _ _)). }
    destruct (match_number (c :: s')) as [[v' r']|] eqn:Hm.
    { intros [= <- <-].
      destruct (match_number_well_formed _ _ _ Hm) as [Hv Hsuf].
      split; [done|]. by apply (scalar_text_suffix _ _ Hsuf). }
    destruct (startswith (c :: s') (txt "NaN")).
    { intros [= <- <-]. split; [done|].
      by apply (scalar_text_suffix _ _ (suffix_drop _ _)). }
    destruct (startswith (c :: s') (txt "Infinity")).
    { intros [= <- <-]. split; [done|].
      by apply (scalar_text_suffix _ _ (suffix_drop _ _)). }
    destruct (startswith (c :: s') (txt "-Infinity")); [|done].
    intros [= <- <-]. split; [done|].
    by apply (scalar_text_suffix _ _ (suffix_drop _ _)).
  - intros acc s v r Hs Hacc. rewrite array_loop_S.
    destruct (scan_once n s) as [v' r'| |] eqn:Hscan; [|done|done].
    destruct (IHscan _ _ _ Hs Hscan) as [Hv' Hr'].
    pose proof (scalar_text_suffix _ _ (skip_ws_suffix r') Hr') as Hskip.
    destruct (skip_ws r') as [|c r'']; [done|].
    apply scalar_text_cons in Hskip as [_ Hr''].
    destruct (c =? 93).
    { intros [= <- <-]. split; [|done].
      cbn [well_formed]. apply forallb_Forall.
      apply (Forall_rev (l := v' :: acc)). by constructor. }
    destruct (c =? 44); [|done].
    apply IHarray; [|by constructor].
    by apply (scalar_text_suffix _ _ (skip_ws_suffix r'')).
  - intros acc s v r Hs Hacc. rewrite object_loop_S.
    destruct (scanstring s) as [[key r0]|] eqn:Hkey; [|done].
    destruct (scanstring_scalar _ _ _ _ (le_n _) Hs Hkey) as (Hplain & Hr0 & _).
    pose proof (scalar_text_suffix _ _ (skip_ws_suffix r0) Hr0) as Hskip.
    destruct (skip_ws r0) as [|c r1]; [done|].
    apply scalar_text_cons in Hskip as [_ Hr1].
    destruct (c =? 58); [|done].
    pose proof (scalar_text_suffix _ _ (skip_ws_suffix r1) Hr1) as Hskip1.
    destruct (scan_once n (skip_ws r1)) as [v' r2| |] eqn:Hscan; [|done|done].
    destruct (IHscan _ _ _ Hskip1 Hscan) as [Hv' Hr2].
    pose proof (scalar_text_suffix _ _ (skip_ws_suffix r2) Hr2) as Hskip2.
    destruct (skip_ws r2) as [|c' r3]; [done|].
    apply scalar_text_cons in Hskip2 as [_ Hr3].
    pose proof (dict_set_well_formed key v' acc Hacc Hplain Hv') as Hset.
    destruct (c' =? 125); [by intros [= <- <-]|].
    destruct (c' =? 44); [|done].
    pose proof (scalar_text_suffix _ _ (skip_ws_suffix r3) Hr3) as Hskip3.
    destruct (skip_ws r3) as [|q r4]; [done|].
    apply scalar_text_cons in Hskip3 as [_ Hr4].
    destruct (q =? 34); [|done]. by apply IHobject.
Qed.

Lemma loads_well_formed (x : str) (v : value) :
  scalar_text x = true -> loads x = Some v -> well_formed v = true.
Proof.
  intros Hx. unfold loads. destruct (startswith x [65279]); [done|].
  destruct (scan_once (2 * length x + 1) (skip_ws x)) as [v' r| |] eqn:Hscan;
    [|done|done].
  destruct (proj1 (scan_well_formed _) _ _ _
              (scalar_text_suffix _ _ (skip_ws_suffix x) Hx) Hscan) as [Hv _].
  destruct (skip_ws r); [|done]. by intros [= <-].
Qed.

Lemma stable_of_parts (v : value) :
  well_formed v = true -> floats_stable v = true -> stable v = true.
Proof.
  induction v as [|t|z|x|s|l IHl|d IHd] using value_nested_ind; try done.
  - cbn [well_formed floats_stable stable]. rewrite !forallb_Forall.
    intros Hw Hf. induction IHl as [|e l He _ IH]; [done|].
    apply Forall_cons in Hw as [? ?]. apply Forall_cons in Hf as [? ?].
    constructor; auto.
  - cbn [well_formed floats_stable stable].
    rewrite !andb_true_iff, !forallb_Forall. intros [Hw Hnd] Hf.
    split; [|done]. clear Hnd.
    induction IHd as [|kv d Hkv _ IH]; [done|].
    apply Forall_cons in Hw as [Hw1 ?]. apply Forall_cons in Hf as [? ?].
    apply andb_true_iff in Hw1 as [? ?].
    constructor; [apply andb_true_iff|]; auto.
Qed.

(** On a body that is UTF-8 and JSON, formatting the formatted report changes
    nothing, whatever the strings and keys of the report; only its floats
    have to be stable. *)
Theorem format_report_idempotent_on_bytes (bs : bytes) (x : str) (v : value) :
  utf8_decode bs = Some x ->
  loads x = Some v ->
  floats_stable v = true ->
  format_report (Bytes bs) = Ok (dumps v)
  ∧ format_report (Text (dumps v)) = Ok (dumps v).
Proof.
  intros Hd Hl Hf.
  assert (Hs : stable v = true).
  { apply stable_of_parts; [|done].
    apply (loads_well_formed x); [by apply (utf8_decode_scalar bs)|done]. }
  unfold format_report at 1. rewrite Hd, Hl. split; [done|].
  unfold format_report. rewrite (loads_dumps v Hs).
  unfold dumps. by rewrite iterencode_reread.
Qed.
End Parsed.

(** * The properties at work on the sample requests *)

Section Witnesses.
#[local] Existing Instance whole_floats.
#[local] Existing Instance reference_python.
#[local] Existing Instance reference_database.

Lemma ignore_check_off_never_reads_body_witness :
  should_ignore_report (request_of broken_payload) all_sinks_state
    = (Ok false, all_sinks_state)
  ∧ process_report (request_of broken_payload) all_sinks_state
    = run_sinks (request_of broken_payload) all_sinks_state.
Proof.
  apply (ignore_check_off_never_reads_body
           (request_of broken_payload) all_sinks_state (VBool false));
    reflexivity.
Defined.


Lemma ignore_check_decode_error_propagates_witness :
  process_report (request_of broken_payload) ignoring_state
    = (Raise ValueError, ignoring_state)
  ∧ from_message (quoted broken_payload) = Ok (new_report (quoted broken_payload))
  ∧ getattr (new_report (quoted broken_payload)) "is_valid" = VBool false
  ∧ format_report (Bytes (body (request_of broken_payload)))
    = Ok (txt "Invalid JSON. Raw dump is below." ++ [10; 10] ++ quoted broken_payload).
Proof.
  apply (ignore_check_decode_error_propagates
           (request_of broken_payload) ignoring_state (VBool true)
           (quoted broken_payload));
    reflexivity.
Defined.

Lemma ignore_check_reads_top_level_prefix_only_witness :
  (should_ignore_report (request_of firefox_extension_report) ignoring_all_sinks_state
     = (Ok false, ignoring_all_sinks_state)
   ∧ ∃ imports,
       forallb is_import imports = true
       ∧ process_report (request_of firefox_extension_report) ignoring_all_sinks_state
         = (Ok tt,
            {| settings := settings ignoring_all_sinks_state;
               _additional_handlers := Some [txt "site.handlers.notify"];
               effects :=
                 effects ignoring_all_sinks_state
                 ++ [MailAdmins (txt "CSP Violation Report")
                       (txt "User agent:" ++ [10]
                        ++ user_agent_of (request_of firefox_extension_report)
                        ++ [10; 10] ++ txt "Report:" ++ [10]
                        ++ dumps (VDict (object_of firefox_extension_report)));
                     LogCall (txt "warning")
                       (txt "Content Security Policy violation: %s")
                       (dumps (VDict (object_of firefox_extension_report)));
                     SaveReport
                       (<["user_agent"%string :=
                            VStr (user_agent_of (request_of firefox_extension_report))]>
                          (record_of firefox_extension_report))]
                 ++ imports
                 ++ map (fun h => HandlerCall h (request_of firefox_extension_report))
                      [txt "site.handlers.notify"] |}))
  ∧ (should_ignore_report (request_of chrome_extension_payload) ignoring_all_sinks_state
       = (Ok false, ignoring_all_sinks_state)
     ∧ ∃ imports,
         forallb is_import imports = true
         ∧ process_report (request_of chrome_extension_payload) ignoring_all_sinks_state
           = (Ok tt,
              {| settings := settings ignoring_all_sinks_state;
                 _additional_handlers := Some [txt "site.handlers.notify"];
                 effects :=
                   effects ignoring_all_sinks_state
                   ++ [MailAdmins (txt "CSP Violation Report")
                         (txt "User agent:" ++ [10]
                          ++ user_agent_of (request_of chrome_extension_payload)
                          ++ [10; 10] ++ txt "Report:" ++ [10]
                          ++ dumps (VDict (object_of chrome_extension_payload)));
                       LogCall (txt "warning")
                         (txt "Content Security Policy violation: %s")
                         (dumps (VDict (object_of chrome_extension_payload)));
                       SaveReport
                         (<["user_agent"%string :=
                              VStr (user_agent_of (request_of chrome_extension_payload))]>
                            (record_of chrome_extension_payload))]
                   ++ imports
                   ++ map (fun h => HandlerCall h (request_of chrome_extension_payload))
                        [txt "site.handlers.notify"] |})).
Proof.
  split.
  - apply (ignore_check_reads_top_level_prefix_only
             (request_of firefox_extension_report) ignoring_all_sinks_state
             (get_additional_handlers ignoring_all_sinks_state).2
             (quoted firefox_extension_report) (object_of firefox_extension_report)
             (VBool true) (VBool true) (VBool true)
             (VList [VStr (txt "site.handlers.notify")]) (VStr (txt "utf-8"))
             (txt "warning") (quoted firefox_extension_report)
             (record_of firefox_extension_report) [txt "site.handlers.notify"]);
      try reflexivity.
    + left. reflexivity.
    + intros _. split; [reflexivity|]. apply (bool_decide_unpack _). reflexivity.
    + intros _. repeat split; reflexivity.
  - apply (ignore_check_reads_top_level_prefix_only
             (request_of chrome_extension_payload) ignoring_all_sinks_state
             (get_additional_handlers ignoring_all_sinks_state).2
             (quoted chrome_extension_payload) (object_of chrome_extension_payload)
             (VBool true) (VBool true) (VBool true)
             (VList [VStr (txt "site.handlers.notify")]) (VStr (txt "utf-8"))
             (txt "warning") (quoted chrome_extension_payload)
             (record_of chrome_extension_payload) [txt "site.handlers.notify"]);
      try reflexivity.
    + right. exists (txt "chrome-extension://abc"). split; reflexivity.
    + intros _. split; [reflexivity|]. apply (bool_decide_unpack _). reflexivity.
    + intros _. repeat split; reflexivity.
Defined.

(** C10 as the specification words it fails on the code: on an object
    without a [source-file] member the check answers [False], yet with all
    four sinks on not all of them run.  When the [csp-report] member is a
    number the save sink raises [AttributeError] after the mail and the log
    call, so nothing is stored and the handler is neither resolved nor
    called. *)
Lemma enabled_sinks_do_not_all_run :
  loads (quoted scalar_report_payload)
    = Some (VDict (object_of scalar_report_payload))
  ∧ dict_get (txt "source-file") (object_of scalar_report_payload) = None
  ∧ should_ignore_report (request_of scalar_report_payload) ignoring_all_sinks_state
    = (Ok false, ignoring_all_sinks_state)
  ∧ Config__getattribute__ "SAVE" ignoring_all_sinks_state
    = (Ok (VBool true), ignoring_all_sinks_state)
  ∧ Config__getattribute__ "ADDITIONAL_HANDLERS" ignoring_all_sinks_state
    = (Ok (VList [VStr (txt "site.handlers.notify")]), ignoring_all_sinks_state)
  ∧ process_report (request_of scalar_report_payload) ignoring_all_sinks_state
    = (Raise AttributeError,
       with_events
         [MailAdmins (txt "CSP Violation Report")
            (txt "User agent:" ++ [10]
             ++ user_agent_of (request_of scalar_report_payload)
             ++ [10; 10] ++ txt "Report:" ++ [10]
             ++ dumps (VDict (object_of scalar_report_payload)));
          LogCall (txt "warning") (txt "Content Security Policy violation: %s")
            (dumps (VDict (object_of scalar_report_payload)))]
         ignoring_all_sinks_state).
Proof. repeat split; reflexivity. Qed.


Lemma enabled_sinks_run_once_in_order_witness :
  getattr sample_record "is_valid" = VBool true
  ∧ ∃ imports,
      forallb is_import imports = true
      ∧ process_report (request_of complete_report) all_sinks_state
        = (Ok tt,
           {| settings := settings all_sinks_state;
              _additional_handlers := Some [txt "site.handlers.notify"];
              effects :=
                effects all_sinks_state
                ++ [MailAdmins (txt "CSP Violation Report")
                      (txt "User agent:" ++ [10]
                       ++ user_agent_of (request_of complete_report) ++ [10; 10]
                       ++ txt "Report:" ++ [10] ++ sample_formatted);
                    LogCall (txt "warning")
                      (txt "Content Security Policy violation: %s")
                      sample_formatted;
                    SaveReport
                      (<["user_agent"%string :=
                           VStr (user_agent_of (request_of complete_report))]>
                         sample_record)]
                ++ imports
                ++ map (fun h => HandlerCall h (request_of complete_report))
                     [txt "site.handlers.notify"] |}).
Proof.
  split; [reflexivity|].
  apply (enabled_sinks_run_once_in_order
           (request_of complete_report) all_sinks_state
           (get_additional_handlers all_sinks_state).2
           (VBool true) (VBool true) (VBool true)
           (VList [VStr (txt "site.handlers.notify")]) (VStr (txt "utf-8"))
           (txt "warning") sample_formatted (quoted complete_report)
           sample_record [txt "site.handlers.notify"]);
    try reflexivity.
  apply (bool_decide_unpack _). reflexivity.
Defined.

Lemma additional_handlers_resolved_once_witness :
  let w1 := (get_additional_handlers all_sinks_state).2 in
  let ss : list (gmap string value) :=
    [∅; {[ "CSP_REPORTS_ADDITIONAL_HANDLERS"%string :=
             VList [VStr (txt "site.handlers.audit")] ]}] in
  (Forall (fun r => r = Ok [txt "site.handlers.notify"]) (later_calls ss w1).1
   ∧ length (later_calls ss w1).1 = length ss
   ∧ effects (later_calls ss w1).2 = effects w1
   ∧ _additional_handlers (later_calls ss w1).2 = Some [txt "site.handlers.notify"])
  ∧ (∀ s n x0, Config_defaults n = Some x0 ->
       Config__getattribute__ n (with_settings s w1)
       = (Ok (default x0 (s !! String.append "CSP_REPORTS_" n)),
          with_settings s w1)).
Proof.
  apply (additional_handlers_resolved_once all_sinks_state).
  reflexivity.
Defined.

Lemma from_message_validity_witness :
  (getattr sample_record "is_valid" = VBool true
   ↔ required_present sample_record ∧ optional_valid sample_record)
  ∧ (∀ decoded report_data n f x,
       loads (quoted complete_report) = Some decoded ->
       getitem decoded (txt "csp-report") = Ok report_data ->
       n ∈ OPTIONAL_FIELDS ->
       get_field (replace_char "-" "_" n) = Some f ->
       get_method report_data (txt n) VNone = Ok x ->
       to_python (kind f) x = Raise ValidationError ->
       getattr sample_record (replace_char "-" "_" n) = VNone).
Proof.
  apply (from_message_validity (quoted complete_report) sample_record).
  reflexivity.
Defined.

(** C1 as the specification words it fails on the code: a report with all
    five required fields converted to text is flagged invalid when its
    disposition is none of the choices, or when its status code is negative. *)
Lemma required_fields_present_yet_invalid :
  (∃ r, from_message (quoted odd_disposition_report) = Ok r
        ∧ required_present r
        ∧ getattr r "disposition" = VStr (txt "bogus")
        ∧ getattr r "is_valid" = VBool false)
  ∧ (∃ r, from_message (quoted negative_status_report) = Ok r
          ∧ required_present r
          ∧ getattr r "status_code" = VInt (-1)
          ∧ getattr r "is_valid" = VBool false).
Proof.
  split.
  - exists (match from_message (quoted odd_disposition_report) with
            | Ok r => r
            | Raise _ => ∅
            end).
    split; [reflexivity|].
    split; [unfold required_present; repeat constructor; by vm_compute|].
    split; reflexivity.
  - exists (match from_message (quoted negative_status_report) with
            | Ok r => r
            | Raise _ => ∅
            end).
    split; [reflexivity|].
    split; [unfold required_present; repeat constructor; by vm_compute|].
    split; reflexivity.
Qed.

Lemma from_message_keeps_message_witness :
  getattr (record_of incomplete_report) "json" = VStr (quoted incomplete_report)
  ∧ getattr (record_of incomplete_report) "user_agent" = VStr [].
Proof.
  apply (from_message_keeps_message (quoted incomplete_report)).
  reflexivity.
Defined.

Lemma from_message_without_report_witness :
  ∃ r, from_message (quoted broken_payload) = Ok r
       ∧ getattr r "is_valid" = VBool false
       ∧ getattr r "json" = VStr (quoted broken_payload)
       ∧ ∀ n, n ∈ REQUIRED_FIELDS ++ OPTIONAL_FIELDS ->
              getattr r (replace_char "-" "_" n) = VNone.
Proof.
  apply (from_message_without_report (quoted broken_payload)).
  left. reflexivity.
Defined.

Lemma from_message_reads_members_witness :
  getattr (record_of incomplete_report) "document_uri"
    = VStr (txt "https://example.org/page")
  ∧ getattr (record_of incomplete_report) "line_number" = VInt 12
  ∧ getattr (record_of incomplete_report) "blocked_uri" = VNone.
Proof.
  pose proof (from_message_reads_members
                (quoted incomplete_report) (record_of incomplete_report)
                (object_of incomplete_report) (members_of incomplete_report))
    as Hread.
  split; [|split].
  - refine (proj1 (Hread "document-uri"%string eq_refl eq_refl eq_refl _) _ _ eq_refl);
      apply (bool_decide_unpack _); reflexivity.
  - refine (proj1 (proj2 (Hread "line-number"%string eq_refl eq_refl eq_refl _))
              _ _ eq_refl);
      apply (bool_decide_unpack _); reflexivity.
  - refine (proj2 (proj2 (Hread "blocked-uri"%string eq_refl eq_refl eq_refl _)) _).
    + apply (bool_decide_unpack _); reflexivity.
    + left. reflexivity.
Defined.

Lemma complete_report_is_valid_witness :
  ∃ r, from_message (quoted plain_report) = Ok r
       ∧ getattr r "is_valid" = VBool true.
Proof.
  apply (complete_report_is_valid (quoted plain_report)
           (object_of plain_report) (members_of plain_report)).
  - reflexivity.
  - reflexivity.
  - intros n Hn. unfold REQUIRED_FIELDS in Hn.
    repeat (apply elem_of_cons in Hn as [->|Hn]);
      try (by apply elem_of_nil in Hn); eexists; reflexivity.
  - intros n Hn. unfold validated_fields in Hn.
    repeat (apply elem_of_cons in Hn as [->|Hn]);
      try (by apply elem_of_nil in Hn); reflexivity.
Defined.

Lemma missing_required_member_is_invalid_witness :
  getattr (record_of incomplete_report) "is_valid" = VBool false.
Proof.
  apply (missing_required_member_is_invalid
           (quoted incomplete_report) (record_of incomplete_report)
           (object_of incomplete_report) (members_of incomplete_report)
           "blocked-uri");
    try reflexivity.
  - apply (bool_decide_unpack _). reflexivity.
  - left. reflexivity.
Defined.

Lemma json_as_html_is_escaped_witness :
  ∃ formatted,
    format_report (Text (quoted plain_report)) = Ok formatted
    ∧ json_as_html (record_of plain_report)
      = Ok (txt "<pre>" ++ [10] ++ escape formatted ++ txt "</pre>")
    ∧ Forall (fun x => x ≠ 60 ∧ x ≠ 62 ∧ x ≠ 34 ∧ x ≠ 39) (escape formatted).
Proof.
  apply (json_as_html_is_escaped (record_of plain_report) (quoted plain_report)).
  reflexivity.
Defined.

Lemma nice_report_of_parsed_witness :
  (∃ out, nice_report (record_of plain_report) = Ok out)
  ∧ (∀ d rd, loads (quoted plain_report) = Some (VDict d) ->
             dict_get (txt "csp-report") d = Some rd ->
             nice_report (record_of plain_report) = Ok (dumps rd))
  ∧ (quoted plain_report ≠ [] -> loads (quoted plain_report) = None ->
     nice_report (record_of plain_report)
     = Ok (txt "Invalid CSP report: '" ++ quoted plain_report ++ txt "'")).
Proof.
  apply (nice_report_of_parsed (quoted plain_report) (record_of plain_report)).
  reflexivity.
Defined.

Lemma nice_report_raises_on_scalar_witness :
  nice_report scalar_record = Raise TypeError.
Proof.
  apply (nice_report_raises_on_scalar scalar_record (txt "5") (VInt 5));
    try reflexivity; discriminate.
Defined.

Lemma ignore_check_raises_on_odd_json_witness :
  process_report (request_of list_payload) ignoring_state
    = (Raise AttributeError, ignoring_state)
  ∧ process_report (request_of odd_source_payload) ignoring_state
    = (Raise AttributeError, ignoring_state).
Proof.
  split.
  - apply (ignore_check_raises_on_odd_json
             (request_of list_payload) ignoring_state (VBool true)
             (quoted list_payload) (VList []));
      try reflexivity.
    left. discriminate.
  - apply (ignore_check_raises_on_odd_json
             (request_of odd_source_payload) ignoring_state (VBool true)
             (quoted odd_source_payload)
             (VDict [(txt "source-file", VInt 5)]));
      try reflexivity.
    right. exists [(txt "source-file", VInt 5)], (VInt 5).
    split; [reflexivity|]. split; [reflexivity|]. discriminate.
Defined.

Lemma failed_resolution_is_not_cached_witness :
  _additional_handlers failing_handlers_state = None
  ∧ _additional_handlers (get_additional_handlers failing_handlers_state).2 = None
  ∧ settings (get_additional_handlers failing_handlers_state).2
    = settings failing_handlers_state.
Proof.
  apply (failed_resolution_is_not_cached
           failing_handlers_state
           (get_additional_handlers failing_handlers_state).2 AttributeError).
  reflexivity.
Defined.

Lemma handlers_resolved_in_order_witness :
  (get_additional_handlers two_handlers_state).1
    = Ok [txt "site.handlers.notify"; txt "site.handlers.audit"]
  ∧ _additional_handlers (get_additional_handlers two_handlers_state).2
    = Some [txt "site.handlers.notify"; txt "site.handlers.audit"].
Proof.
  apply (handlers_resolved_in_order
           two_handlers_state
           [VStr (txt "site.handlers.notify"); VStr (txt "site.handlers.audit")]
           [txt "site.handlers.notify"; txt "site.handlers.audit"]);
    try reflexivity.
  repeat constructor.
  - exists (txt "site.handlers"), (txt "notify").
    split; [reflexivity|]. split; [|reflexivity].
    apply (bool_decide_unpack _). reflexivity.
  - exists (txt "site.handlers"), (txt "audit").
    split; [reflexivity|]. split; [|reflexivity].
    apply (bool_decide_unpack _). reflexivity.
Defined.

Lemma all_toggles_off_does_nothing_witness :
  process_report (request_of broken_payload) silent_state = (Ok tt, silent_state).
Proof.
  apply (all_toggles_off_does_nothing
           (request_of broken_payload) silent_state
           (VBool false) (VBool false) (VBool false) (VBool false) (VList []));
    reflexivity.
Defined.

Lemma failing_save_aborts_dispatch_witness :
  process_report (request_of list_payload) all_sinks_state
  = (Raise TypeError,
     with_events
       [MailAdmins (txt "CSP Violation Report")
          (txt "User agent:" ++ [10] ++ user_agent_of (request_of list_payload)
           ++ [10; 10] ++ txt "Report:" ++ [10] ++ txt "[]");
        LogCall (txt "warning") (txt "Content Security Policy violation: %s")
          (txt "[]")]
       all_sinks_state).
Proof.
  apply (failing_save_aborts_dispatch
           (request_of list_payload) all_sinks_state
           (VBool true) (VBool true) (VBool true) (VStr (txt "utf-8"))
           (txt "warning") (txt "[]") (quoted list_payload) TypeError);
    try reflexivity.
  apply (bool_decide_unpack _). reflexivity.
Defined.

Lemma malformed_report_is_stored_invalid_witness :
  let stored := <["user_agent"%string :=
                    VStr (user_agent_of (request_of broken_payload))]>
                  (new_report (quoted broken_payload)) in
  save_report (request_of broken_payload) all_sinks_state
    = (Ok tt, with_events [SaveReport stored] all_sinks_state)
  ∧ getattr stored "is_valid" = VBool false
  ∧ getattr stored "json" = VStr (quoted broken_payload)
  ∧ getattr stored "user_agent" = VStr (user_agent_of (request_of broken_payload)).
Proof.
  apply (malformed_report_is_stored_invalid
           (request_of broken_payload) all_sinks_state (VStr (txt "utf-8"))
           (quoted broken_payload));
    reflexivity.
Defined.

Lemma format_report_idempotent_witness :
  format_report (Text (quoted mixed_payload))
    = Ok (dumps (VDict (object_of mixed_payload)))
  ∧ (∀ bs, utf8_decode bs = Some (quoted mixed_payload) ->
           format_report (Bytes bs) = Ok (dumps (VDict (object_of mixed_payload))))
  ∧ loads (dumps (VDict (object_of mixed_payload)))
    = Some (reread (VDict (object_of mixed_payload)))
  ∧ format_report (Text (dumps (VDict (object_of mixed_payload))))
    = Ok (dumps (VDict (object_of mixed_payload))).
Proof.
  apply (format_report_idempotent
           (quoted mixed_payload) (VDict (object_of mixed_payload)));
    reflexivity.
Defined.

Lemma format_report_idempotent_on_bytes_witness :
  format_report (Bytes (quoted_octets mixed_payload))
    = Ok (dumps (VDict (object_of mixed_payload)))
  ∧ format_report (Text (dumps (VDict (object_of mixed_payload))))
    = Ok (dumps (VDict (object_of mixed_payload))).
Proof.
  apply (format_report_idempotent_on_bytes
           (quoted_octets mixed_payload) (quoted mixed_payload)
           (VDict (object_of mixed_payload)));
    reflexivity.
Defined.



Lemma data_of_parsed_witness :
  (∀ decoded, loads (quoted plain_report) = Some decoded ->
              data (record_of plain_report)
              = (Ok decoded, <["_data"%string := decoded]> (record_of plain_report)))
  ∧ (loads (quoted plain_report) = None ->
     data (record_of plain_report) = (Raise ValueError, record_of plain_report)).
Proof.
  apply (data_of_parsed (quoted plain_report) (record_of plain_report)).
  reflexivity.
Defined.

Lemma data_is_decoded_once_witness :
  data (data (record_of plain_report)).2
    = (Ok (VDict (object_of plain_report)), (data (record_of plain_report)).2)
  ∧ ∀ s, data (<["json"%string := VStr s]> (data (record_of plain_report)).2)
         = (Ok (VDict (object_of plain_report)),
            <["json"%string := VStr s]> (data (record_of plain_report)).2).
Proof.
  apply (data_is_decoded_once (record_of plain_report)).
  reflexivity.
Defined.

Lemma non_utf8_body_stops_dispatch_witness :
  process_report latin1_request all_sinks_state
    = (Raise UnicodeDecodeError, all_sinks_state)
  ∧ ∀ charset message report,
      charset_of latin1_request all_sinks_state = (Ok charset, all_sinks_state) ->
      decode (body latin1_request) charset = Ok message ->
      from_message message = Ok report ->
      save_report latin1_request all_sinks_state
      = (Ok tt,
         with_events
           [SaveReport
              (<["user_agent"%string := VStr (user_agent_of latin1_request)]> report)]
           all_sinks_state).
Proof.
  apply (non_utf8_body_stops_dispatch
           latin1_request all_sinks_state (VBool true) (VBool true) (txt "warning"));
    try reflexivity.
  apply (bool_decide_unpack _). reflexivity.
Defined.

Lemma bare_handler_name_is_refused_witness :
  get_additional_handlers bare_name_state = (Raise ValueError, bare_name_state).
Proof.
  apply (bare_handler_name_is_refused bare_name_state 115 (txt "ite.handlers.notify"));
    [reflexivity|reflexivity|discriminate].
Defined.

End Witnesses.
